(** * Risk scoring and nowcast analytics: a shallow embedding

The development follows the JavaScript sources module by module:

- [Nowcast]   : src/nowcastEngine.js   (trend history, rising streak, escalation)
- [Matcher]   : src/utils/reservoirMatcher.js
- [Analytics] : src/analyticsEngine.js (risk formula, risk bands, high-risk zones)
- [RiskEngine]: src/riskEngine.js      (top-level assessment)
- [OpenMeteo], [Usgs], [ReservoirCollector] : the collectors, as far as
  the assessment depends on what they resolve to
- [Routes]    : src/api/routes.js      (the alert history of the run-check handler)

Numbers.  Scores that the code produces with [Math.round] are integers
and are modelled in [Z].  The arithmetic of the feature normalisers is
modelled exactly, in [Q]; the logistic curve needs [Math.exp] and is
modelled with the real exponential.  IEEE rounding, overflow to
[Infinity] and the last-bit behaviour of [Math.exp] are outside the
model; the values JavaScript treats specially when it reads a field
([undefined], [null], [NaN], the infinities) are inside it. *)

From Stdlib Require Import ZArith QArith Qminmax Qround Qabs Reals Qreals Lra Lqa Lia.
From Stdlib Require Import List Sorted Permutation String Ascii.
From stdpp Require Import base gmap list strings pretty.

Open Scope Z_scope.

(** ** JavaScript values and primitives used by the sources *)
Module JS.

(** The result of [Number(v)]: a finite number or one of the three
    non-finite doubles. *)
Inductive number :=
| Fin (q : Q)
| NaN
| PosInfinity
| NegInfinity.

(** What a numeric field of an input object may hold. *)
Inductive value :=
| Undefined
| Null
| Num (n : number).

(** [Number(v)]: [undefined] gives [NaN], [null] gives 0. *)
Definition toNumber (v : value) : number :=
  match v with
  | Undefined => NaN
  | Null => Fin 0
  | Num n => n
  end.

(** [a ?? b]. *)
Definition nullish (a b : value) : value :=
  match a with
  | Undefined | Null => b
  | Num _ => a
  end.

(** [Number.isFinite(Number(v)) ? Number(v) : null]. *)
Definition finiteOrNull (v : value) : option Q :=
  match toNumber v with
  | Fin q => Some q
  | _ => None
  end.

Definition Qleb (x y : Q) : bool := Qle_bool x y.
Definition Qltb (x y : Q) : bool := negb (Qle_bool y x).

(** [Math.max(min, Math.min(max, value))] on finite numbers. *)
Definition clamp (v lo hi : Q) : Q := Qmax lo (Qmin hi v).

(** [Math.round]: the nearest integer, halves towards +infinity. *)
Definition round (x : Q) : Z := Qfloor (x + (1 # 2)).

(** The same two on real numbers, for the output of the logistic curve. *)
Definition clampR (v lo hi : R) : R := Rmax lo (Rmin hi v).
Definition roundR (x : R) : Z := Zfloor (x + / 2).

(** *** ASCII strings *)

Definition code (c : ascii) : nat := nat_of_ascii c.

Definition is_upper (c : ascii) : bool := (65 <=? code c)%nat && (code c <=? 90)%nat.
Definition is_lower (c : ascii) : bool := (97 <=? code c)%nat && (code c <=? 122)%nat.
Definition is_digit (c : ascii) : bool := (48 <=? code c)%nat && (code c <=? 57)%nat.
(** [\s] restricted to ASCII: tab, line feed, vertical tab, form feed,
    carriage return, space. *)
Definition is_space (c : ascii) : bool :=
  ((9 <=? code c)%nat && (code c <=? 13)%nat) || (code c =? 32)%nat.

Definition lower_char (c : ascii) : ascii :=
  if is_upper c then ascii_of_nat (code c + 32) else c.

Fixpoint map_string (f : ascii -> ascii) (s : string) : string :=
  match s with
  | EmptyString => EmptyString
  | String c rest => String (f c) (map_string f rest)
  end.

Definition toLowerCase (s : string) : string := map_string lower_char s.

(** [s.includes(t)]. *)
Fixpoint includes (s t : string) : bool :=
  String.prefix t s ||
  match s with
  | EmptyString => false
  | String _ rest => includes rest t
  end.

(** [s.split(' ')]: always at least one piece. *)
Fixpoint split_space (s : string) (piece : string) : list string :=
  match s with
  | EmptyString => [piece]
  | String c rest =>
      if (code c =? 32)%nat then piece :: split_space rest EmptyString
      else split_space rest (piece +:+ String c EmptyString)
  end.

(** [s.trim()]. *)
Fixpoint trimStart (s : string) : string :=
  match s with
  | String c rest => if is_space c then trimStart rest else s
  | EmptyString => EmptyString
  end.

Fixpoint trimEnd (s : string) : string :=
  match s with
  | EmptyString => EmptyString
  | String c rest =>
      match trimEnd rest with
      | EmptyString => if is_space c then EmptyString else String c EmptyString
      | rest' => String c rest'
      end
  end.

Definition trim (s : string) : string := trimEnd (trimStart s).

End JS.

(** ** src/utils/reservoirMatcher.js *)
Module Matcher.
Import JS.

(** A monitored location, one entry of data/dams.json.  An absent name
    or state is the empty string, which is what [value || ''] makes of
    it. *)
Record Dam := {
  dam_name : string;
  dam_state : string;
  lat : Q;
  lon : Q
}.

(** One normalised reservoir record. *)
Record Reservoir := {
  name : string;
  state : string;
  level_pct : value;
  inflow : value;
  outflow : value
}.

(** [.replace(/[^a-z0-9\s]/g, ' ')]. *)
Definition blank_other (c : ascii) : ascii :=
  if is_lower c || is_digit c || is_space c then c else " "%char.

Fixpoint all_digits (s : string) : bool :=
  match s with
  | EmptyString => true
  | String c rest => is_digit c && all_digits rest
  end.

(** The alternatives of [(dam|reservoir|barrage|project|lake|rl\d+|ph|bbmb)]. *)
Definition is_generic_word (w : string) : bool :=
  String.eqb w "dam" || String.eqb w "reservoir" || String.eqb w "barrage" ||
  String.eqb w "project" || String.eqb w "lake" ||
  match w with
  | String "r" (String "l" (String d ds)) => is_digit d && all_digits ds
  | _ => false
  end ||
  String.eqb w "ph" || String.eqb w "bbmb".

Definition flush_word (w : string) : string :=
  if is_generic_word w then " "%string else w.

(** [.replace(/\b(...)\b/g, ' ')] on a string of lower-case letters,
    digits and white space: there a word boundary is an end of a maximal
    run of letters and digits, so a match is a whole run. [word] is the
    run read so far. *)
Fixpoint replace_generic (s : string) (word : string) : string :=
  match s with
  | EmptyString => flush_word word
  | String c rest =>
      if is_lower c || is_digit c
      then replace_generic rest (word +:+ String c EmptyString)
      else flush_word word +:+ String c (replace_generic rest EmptyString)
  end.

(** [.replace(/\s+/g, ' ')]. *)
Fixpoint collapse_spaces (s : string) (in_run : bool) : string :=
  match s with
  | EmptyString => EmptyString
  | String c rest =>
      if is_space c
      then (if in_run then collapse_spaces rest true
            else String " " (collapse_spaces rest true))
      else String c (collapse_spaces rest false)
  end.

Definition normalizeText (v : string) : string :=
  trim (collapse_spaces
          (replace_generic (map_string blank_other (toLowerCase v)) EmptyString)
          false).

Definition tokens (v : string) : list string :=
  let text := normalizeText v in
  if String.eqb text "" then []
  else filter (fun t => (2 <? String.length t)%nat = true) (split_space text EmptyString).

(** [jaccardScore]: the two [Set]s are lists without duplicates. *)
Definition jaccardScore (a b : string) : Q :=
  let A := remove_dups (tokens a) in
  let B := remove_dups (tokens b) in
  if (length A =? 0)%nat || (length B =? 0)%nat then 0%Q
  else
    let intersection := length (filter (fun item => item ∈ B) A) in
    let union := length (remove_dups (A ++ B)) in
    if (union =? 0)%nat then 0%Q
    else (inject_Z (Z.of_nat intersection) / inject_Z (Z.of_nat union))%Q.

Definition DAM_ALIASES : list (string * list string) :=
  [ ("tehri dam", ["tehri"]);
    ("bhakra nangal dam", ["bhakra"; "bhakra dam"]);
    ("hirakud dam", ["hirakud"]);
    ("sardar sarovar dam", ["sardar sarovar"]);
    ("nagarjuna sagar dam", ["nagarjuna sagar"]);
    ("srisailam dam", ["srisailam"]);
    ("idukki dam", ["idukki"]);
    ("koyna dam", ["koyna"]);
    ("indira sagar dam", ["indira sagar"; "narmada sagar"]);
    ("krishna raja sagara", ["krishna raja sagar"; "krs"]);
    ("mettur dam", ["mettur"]);
    ("maithon dam", ["maithon"]);
    ("panchet dam", ["panchet"]);
    ("ukai dam", ["ukai"]);
    ("pong dam", ["pong"]);
    ("pandoh dam", ["pandoh"]);
    ("chamera dam", ["chamera"]);
    ("gumti dam", ["gumti"]);
    ("ramganga dam", ["ramganga"]);
    ("nizam sagar", ["nizam sagar"; "nizamsagar"]);
    ("singur dam", ["singur"]);
    ("kadana dam", ["kadana"]);
    ("dantiwada dam", ["dantiwada"]);
    ("umiam lake dam", ["umiam"; "umiam lake"]) ]%string.

(** [DAM_ALIASES[key] || []], for the keys the table itself has. *)
Fixpoint aliases_of (key : string) (table : list (string * list string)) : list string :=
  match table with
  | [] => []
  | (k, v) :: rest => if String.eqb k key then v else aliases_of key rest
  end.

Definition getCandidateNames (damName : string) : list string :=
  let key := toLowerCase damName in
  let aliases := aliases_of key DAM_ALIASES in
  filter (fun n => String.eqb n "" = false) (damName :: aliases).

(** The body of the loop over [damNames] in [scoreReservoirMatch]. *)
Definition nameStep (reservoirName : string) (bestNameScore : Q) (nm : string) : Q :=
  let sc := jaccardScore nm reservoirName in
  let best1 := if Qltb bestNameScore sc then sc else bestNameScore in
  let normDam := normalizeText nm in
  let normRes := normalizeText reservoirName in
  if negb (String.eqb normDam "") && negb (String.eqb normRes "") &&
     (includes normRes normDam || includes normDam normRes)
  then Qmax best1 0.9
  else best1.

Definition stateBonus (dam : Dam) (reservoir : Reservoir) : Q :=
  let damState := normalizeText (dam_state dam) in
  let reservoirState := normalizeText (state reservoir) in
  if negb (String.eqb damState "") && negb (String.eqb reservoirState "") &&
     String.eqb damState reservoirState
  then 0.2 else 0.

Definition bestNameScore (dam : Dam) (reservoir : Reservoir) : Q :=
  fold_left (nameStep (name reservoir)) (getCandidateNames (dam_name dam)) 0%Q.

Definition scoreReservoirMatch (dam : Dam) (reservoir : Reservoir) : Q :=
  (bestNameScore dam reservoir + stateBonus dam reservoir)%Q.

(** The name similarity in the words of the specification (section 4.2,
    step 2): the maximum, over the name variants of the location, of the
    token-set similarity and of 0.9 when one normalised name contains the
    other.  [bestNameScore] above is the loop of the source; the two are
    compared in [bestNameScore_spec]. *)
Definition eitherIncludes (a b : string) : bool :=
  negb (String.eqb (normalizeText a) "") && negb (String.eqb (normalizeText b) "") &&
  (includes (normalizeText b) (normalizeText a) || includes (normalizeText a) (normalizeText b)).

Definition variantScore_spec (reservoirName nm : string) : Q :=
  Qmax (jaccardScore nm reservoirName) (if eitherIncludes nm reservoirName then 0.9 else 0).

Definition nameSimilarity_spec (dam : Dam) (reservoir : Reservoir) : Q :=
  fold_right Qmax 0%Q
    (map (variantScore_spec (name reservoir)) (getCandidateNames (dam_name dam))).

(** [{ ...best, match_score }]; [best] is still [null] when no candidate
    scored above 0. *)
Record Match := {
  best : option Reservoir;
  match_score : Q
}.

Definition minScore_default : Q := 0.45.

(** The body of the loop over [reservoirLevels]. *)
Definition bestStep (dam : Dam) (acc : option Reservoir * Q) (reservoir : Reservoir)
    : option Reservoir * Q :=
  let sc := scoreReservoirMatch dam reservoir in
  if Qltb (snd acc) sc then (Some reservoir, sc) else acc.

Definition matchReservoirToDam (dam : option Dam) (reservoirLevels : list Reservoir)
    (minScore : Q) : option Match :=
  match dam, reservoirLevels with
  | None, _ => None
  | Some _, [] => None
  | Some d, _ =>
      let '(b, bestScore) := fold_left (bestStep d) reservoirLevels (None, 0%Q) in
      if Qltb bestScore minScore then None
      else Some {| best := b;
                   match_score := (inject_Z (round (bestScore * 100)) / 100)%Q |}
  end.

End Matcher.

(** ** src/analyticsEngine.js *)
Module Analytics.
Import JS.

(** [safeNum(value, fallback = 0)]. *)
Definition safeNum (v : value) (fallback : number) : number :=
  match toNumber v with
  | Fin q => Fin q
  | _ => fallback
  end.

(** [safeNum(value)] with the default fallback is always finite. *)
Definition safeNum0 (v : value) : Q :=
  match safeNum v (Fin 0) with
  | Fin q => q
  | _ => 0%Q
  end.

(** [100 / (1 + Math.exp(-z))]. *)
Definition sigmoidTo100 (v center steepness : R) : R :=
  let z := (steepness * (v - center))%R in
  (100 / (1 + exp (- z)))%R.

Definition normalizeReservoirLevel (levelPct : value) : option Q :=
  match safeNum levelPct NaN with
  | Fin level =>
      if Qleb 0 level && Qleb level 1 then Some (level * 100)%Q
      else if Qleb 0 level && Qleb level 100 then Some level
      else None
  | _ => None
  end.

(** The three fields [reservoirStressIndex] reads. *)
Record ReservoirContext := {
  level_pct : value;
  inflow : value;
  outflow : value
}.

(** [{}]. *)
Definition emptyContext : ReservoirContext :=
  {| level_pct := Undefined; inflow := Undefined; outflow := Undefined |}.

Definition levelStress (c : ReservoirContext) : option Q :=
  match normalizeReservoirLevel (level_pct c) with
  | None => None
  | Some levelPct => Some (clamp ((levelPct - 60) * 2.5) 0 100)
  end.

Definition flowStress (c : ReservoirContext) : option Q :=
  match safeNum (inflow c) NaN, safeNum (outflow c) NaN with
  | Fin i, Fin o =>
      if Qleb 0 o
      then let ratio := (i / (o + 1e-6))%Q in
           Some (clamp ((ratio - 1) * 45 + 50) 0 100)
      else None
  | _, _ => None
  end.

Definition reservoirStressIndex (c : ReservoirContext) : Z :=
  match levelStress c, flowStress c with
  | None, None => 0
  | Some l, Some f => round (0.7 * l + 0.3 * f)
  | Some l, None => round l
  | None, Some f => round f
  end.

Record RainSummary := {
  precipitation_sum_24h_mm : value;
  precipitation_sum_72h_mm : value;
  precipitation_sum_7d_mm : value;
  max_hourly_precipitation_mm : value
}.

(** [{}] as a rain summary. *)
Definition emptySummary : RainSummary :=
  {| precipitation_sum_24h_mm := Undefined; precipitation_sum_72h_mm := Undefined;
     precipitation_sum_7d_mm := Undefined; max_hourly_precipitation_mm := Undefined |}.

(** The argument of [calculateAdvancedRisk].  An absent or falsy
    [rainSummary] or [reservoirContext] is [None], an absent or falsy
    [state] is the empty string. *)
Record Input := {
  rainSummary : option RainSummary;
  rain72h : value;
  rain7d : value;
  earthquakesNearby : value;
  elevation : value;
  baselineAvgDaily : value;
  reservoirContext : option ReservoirContext;
  state : string
}.

Definition LANDSLIDE_PRONE_STATES : list string :=
  [ "kerala"; "uttarakhand"; "himachal pradesh"; "assam"; "tamil nadu";
    "maharashtra"; "karnataka"; "goa"; "meghalaya"; "arunachal pradesh";
    "mizoram"; "nagaland"; "manipur"; "jammu and kashmir"; "sikkim";
    "west bengal" ]%string.

(** The local constants of [calculateAdvancedRisk], in source order, each
    as a function of the input. *)
Section Locals.
Variable input : Input.

Definition summaryOf : RainSummary := default emptySummary (rainSummary input).
Definition r24 : Q := safeNum0 (precipitation_sum_24h_mm summaryOf).
Definition r72 : Q :=
  safeNum0 (nullish (rain72h input)
              (nullish (precipitation_sum_72h_mm summaryOf) (Num (Fin r24)))).
Definition r7 : Q :=
  safeNum0 (nullish (rain7d input)
              (nullish (precipitation_sum_7d_mm summaryOf) (Num (Fin r72)))).
Definition peak : Q := safeNum0 (max_hourly_precipitation_mm summaryOf).
Definition quakes : Q := safeNum0 (earthquakesNearby input).
Definition elevationOf : option Q := finiteOrNull (elevation input).
Definition baselineOf : option Q := finiteOrNull (baselineAvgDaily input).
Definition stateOf : string := toLowerCase (state input).
Definition contextOf : ReservoirContext := default emptyContext (reservoirContext input).

Definition intensityFlood : Q := clamp (r24 / 1.25 + peak * 2.8) 0 100.
Definition persistence : Q := clamp (r72 / 2.0) 0 100.
Definition saturation : Q := clamp (r7 / 3.6) 0 100.
Definition seismic : Q := clamp (quakes * 18) 0 100.
Definition anomalyRatio : Q :=
  match baselineOf with
  | Some b => if Qltb 0 b then (r24 / 24) / b else 1
  | None => 1
  end.
Definition anomaly : Q := clamp ((anomalyRatio - 1) * 50 + 50) 0 100.
Definition reservoirStress : Z := reservoirStressIndex contextOf.
Definition lowlandFactor : Q :=
  match elevationOf with
  | None => 0
  | Some e => if Qltb e 300 then 12 else if Qltb e 600 then 6 else 0
  end.

Definition floodLinear : Q :=
  0.30 * intensityFlood +
  0.18 * persistence +
  0.14 * saturation +
  0.14 * inject_Z reservoirStress +
  0.10 * anomaly +
  0.08 * seismic +
  0.06 * lowlandFactor.
Definition floodScore : Z :=
  roundR (clampR (sigmoidTo100 (Q2R floodLinear) 50 0.09) 0 100).

Definition intensityLand : Q := clamp (r24 / 1.15 + peak * 3.1) 0 100.
Definition durationLand : Q := clamp (r72 / 1.8) 0 100.
Definition seismicLand : Q := clamp (quakes * 20) 0 100.
Definition terrain : Q :=
  match elevationOf with
  | None => 50
  | Some e => clamp (e / 30) 0 100
  end.
Definition proneStateBoost : Q :=
  if bool_decide (stateOf ∈ LANDSLIDE_PRONE_STATES) then 12 else 0.
Definition spillSlopeStress : Q := clamp (inject_Z reservoirStress * 0.55) 0 100.

Definition landslideLinear : Q :=
  0.27 * intensityLand +
  0.24 * durationLand +
  0.16 * terrain +
  0.10 * seismicLand +
  0.10 * anomaly +
  0.07 * spillSlopeStress +
  0.06 * proneStateBoost.
Definition landslideScore : Z :=
  roundR (clampR (sigmoidTo100 (Q2R landslideLinear) 48 0.085) 0 100).

Definition featuresAvailable : list bool :=
  [ Qltb 0 r24;
    Qltb 0 r72;
    Qltb 0 r7;
    Qleb 0 peak;
    Qleb 0 quakes;
    bool_decide (is_Some elevationOf);
    bool_decide (is_Some baselineOf);
    bool_decide (is_Some (normalizeReservoirLevel (level_pct contextOf))) ].
Definition completeness : Q :=
  inject_Z (Z.of_nat (length (filter (fun b => b = true) featuresAvailable)))
  / inject_Z (Z.of_nat (length featuresAvailable)).
Definition sourceDiversity : Q :=
  3 + (if bool_decide (is_Some baselineOf) then 1 else 0)
    + (if bool_decide (is_Some (normalizeReservoirLevel (level_pct contextOf)))
       then 1 else 0).
Definition confidenceOf : Z :=
  round (clamp (45 + completeness * 40 + sourceDiversity * 3) 0 100).
End Locals.

Module Flood.
Record components := {
  intensity : Z;
  persistence : Z;
  saturation : Z;
  reservoir_stress : Z;
  anomaly : Z;
  seismic : Z;
  lowland_factor : Z
}.
End Flood.

Module Landslide.
Record components := {
  intensity : Z;
  duration : Z;
  terrain : Z;
  seismic : Z;
  anomaly : Z;
  reservoir_spill_stress : Z;
  prone_state_boost : Z
}.
End Landslide.

Record Components := {
  flood : Flood.components;
  landslide : Landslide.components
}.

Record RiskResult := {
  flood_score : Z;
  landslide_score : Z;
  confidence : Z;
  components : Components
}.

Definition floodComponents (input : Input) : Flood.components :=
  {| Flood.intensity := round (intensityFlood input);
     Flood.persistence := round (persistence input);
     Flood.saturation := round (saturation input);
     Flood.reservoir_stress := round (inject_Z (reservoirStress input));
     Flood.anomaly := round (anomaly input);
     Flood.seismic := round (seismic input);
     Flood.lowland_factor := round (lowlandFactor input) |}.

Definition landslideComponents (input : Input) : Landslide.components :=
  {| Landslide.intensity := round (intensityLand input);
     Landslide.duration := round (durationLand input);
     Landslide.terrain := round (terrain input);
     Landslide.seismic := round (seismicLand input);
     Landslide.anomaly := round (anomaly input);
     Landslide.reservoir_spill_stress := round (spillSlopeStress input);
     Landslide.prone_state_boost := round (proneStateBoost input) |}.

Definition calculateAdvancedRisk (input : Input) : RiskResult :=
  {| flood_score := floodScore input;
     landslide_score := landslideScore input;
     confidence := confidenceOf input;
     components := {| flood := floodComponents input;
                      landslide := landslideComponents input |} |}.

(** The range of a score or sub-index. *)
Definition in_range (z : Z) : Prop := 0 <= z <= 100.

(** Every number in [components], in the order of the object literal. *)
Definition componentValues (c : Components) : list Z :=
  [ Flood.intensity (flood c); Flood.persistence (flood c); Flood.saturation (flood c);
    Flood.reservoir_stress (flood c); Flood.anomaly (flood c); Flood.seismic (flood c);
    Flood.lowland_factor (flood c);
    Landslide.intensity (landslide c); Landslide.duration (landslide c);
    Landslide.terrain (landslide c); Landslide.seismic (landslide c);
    Landslide.anomaly (landslide c); Landslide.reservoir_spill_stress (landslide c);
    Landslide.prone_state_boost (landslide c) ].

(** [calculateAdvancedRisk()] and [calculateAdvancedRisk({})]. *)
Definition emptyInput : Input :=
  {| rainSummary := None; rain72h := Undefined; rain7d := Undefined;
     earthquakesNearby := Undefined; elevation := Undefined;
     baselineAvgDaily := Undefined; reservoirContext := None; state := "" |}.

(** The same situation spelled out: zero rainfall sums and peak, zero
    earthquakes, no elevation, no baseline, no reservoir match. *)
Definition zeroInput : Input :=
  {| rainSummary :=
       Some {| precipitation_sum_24h_mm := Num (Fin 0);
               precipitation_sum_72h_mm := Num (Fin 0);
               precipitation_sum_7d_mm := Num (Fin 0);
               max_hourly_precipitation_mm := Num (Fin 0) |};
     rain72h := Num (Fin 0); rain7d := Num (Fin 0);
     earthquakesNearby := Num (Fin 0); elevation := Undefined;
     baselineAvgDaily := Undefined; reservoirContext := None; state := "" |}.

(** The bundle [input] with its 24-hour rainfall sum set to [x] and
    every other field as it is. *)
Definition withRain24 (input : Input) (x : Q) : Input :=
  {| rainSummary :=
       Some {| precipitation_sum_24h_mm := Num (Fin x);
               precipitation_sum_72h_mm := precipitation_sum_72h_mm (summaryOf input);
               precipitation_sum_7d_mm := precipitation_sum_7d_mm (summaryOf input);
               max_hourly_precipitation_mm := max_hourly_precipitation_mm (summaryOf input) |};
     rain72h := rain72h input; rain7d := rain7d input;
     earthquakesNearby := earthquakesNearby input; elevation := elevation input;
     baselineAvgDaily := baselineAvgDaily input;
     reservoirContext := reservoirContext input; state := state input |}.

Inductive Level := LOW | MEDIUM | HIGH.

Definition riskLevel (sc : Z) : Level :=
  if sc <=? 33 then LOW
  else if sc <=? 66 then MEDIUM
  else HIGH.

#[global] Instance Level_eq_dec : EqDecision Level.
Proof. solve_decision. Defined.

(** *** The high-risk zones of [runFullAnalytics] *)

(** The fields of one entry of [damResults] that the zone list reads. *)
Record DamResult := {
  name : string;
  dam_state : string;
  flood_risk_score : Z;
  landslide_risk_score : Z;
  flood_risk_level : Level;
  landslide_risk_level : Level
}.

(** Lines 305-313: the entry pushed for a dam with its two scores. *)
Definition damResult (nm st : string) (floodSc landslideSc : Z) : DamResult :=
  {| name := nm; dam_state := st;
     flood_risk_score := floodSc;
     landslide_risk_score := landslideSc;
     flood_risk_level := riskLevel floodSc;
     landslide_risk_level := riskLevel landslideSc |}.

Record Zone := {
  dam : string;
  zone_state : string;
  flood_risk : Z;
  landslide_risk : Z;
  flood_level : Level;
  landslide_level : Level;
  zone_severity : Level
}.

Definition isZone (d : DamResult) : bool :=
  negb (bool_decide (flood_risk_level d = LOW)) ||
  negb (bool_decide (landslide_risk_level d = LOW)).

Definition toZone (d : DamResult) : Zone :=
  {| dam := name d;
     zone_state := dam_state d;
     flood_risk := flood_risk_score d;
     landslide_risk := landslide_risk_score d;
     flood_level := flood_risk_level d;
     landslide_level := landslide_risk_level d;
     zone_severity :=
       if bool_decide (flood_risk_level d = HIGH) ||
          bool_decide (landslide_risk_level d = HIGH)
       then HIGH else MEDIUM |}.

(** The comparator handed to [.sort]. *)
Definition zoneCompare (a b : Zone) : Z :=
  if bool_decide (zone_severity a = HIGH) && negb (bool_decide (zone_severity b = HIGH))
  then -1
  else if bool_decide (zone_severity b = HIGH) && negb (bool_decide (zone_severity a = HIGH))
  then 1
  else Z.max (flood_risk b) (landslide_risk b) - Z.max (flood_risk a) (landslide_risk a).

(** [Array.prototype.sort(compare)] is a stable sort; it is modelled by
    insertion from the right, which keeps equal elements in their
    original order. *)
Fixpoint insertBy {A : Type} (compare : A -> A -> Z) (x : A) (l : list A) : list A :=
  match l with
  | [] => [x]
  | y :: rest =>
      if compare x y <=? 0 then x :: y :: rest
      else y :: insertBy compare x rest
  end.

Fixpoint sortBy {A : Type} (compare : A -> A -> Z) (l : list A) : list A :=
  match l with
  | [] => []
  | x :: rest => insertBy compare x (sortBy compare rest)
  end.

Definition high_risk_zones (damResults : list DamResult) : list Zone :=
  sortBy zoneCompare (map toZone (filter (fun d => isZone d = true) damResults)).

(** The per-state rollup of one score list, lines 332-340. *)
Definition stateAverage (scores : list Z) (count : Z) : Z :=
  let n := if count =? 0 then 1 else count in
  round (inject_Z (fold_left Z.add scores 0) / inject_Z n).

Definition stateFloodLevel (st : string) (damResults : list DamResult) : Level :=
  let mine := filter (fun d => dam_state d = st) damResults in
  riskLevel (stateAverage (map flood_risk_score mine) (Z.of_nat (length mine))).

Definition stateLandslideLevel (st : string) (damResults : list DamResult) : Level :=
  let mine := filter (fun d => dam_state d = st) damResults in
  riskLevel (stateAverage (map landslide_risk_score mine) (Z.of_nat (length mine))).

(** *** The rest of src/analyticsEngine.js *)

(** [getDamsByState(state)] on the loaded list; an absent filter is the
    empty string. *)
Definition getDamsByState (dams : list Matcher.Dam) (st : string) : list Matcher.Dam :=
  if String.eqb st "" then dams
  else
    let s := toLowerCase (trim st) in
    filter (fun d => toLowerCase (Matcher.dam_state d) = s) dams.

(** [a * b] on numbers: 0 times an infinity is [NaN]. *)
Definition mul (x y : number) : number :=
  match x, y with
  | NaN, _ | _, NaN => NaN
  | Fin a, Fin b => Fin (a * b)
  | Fin a, PosInfinity | PosInfinity, Fin a =>
      if Qeq_bool a 0 then NaN else if Qltb 0 a then PosInfinity else NegInfinity
  | Fin a, NegInfinity | NegInfinity, Fin a =>
      if Qeq_bool a 0 then NaN else if Qltb 0 a then NegInfinity else PosInfinity
  | PosInfinity, PosInfinity | NegInfinity, NegInfinity => PosInfinity
  | PosInfinity, NegInfinity | NegInfinity, PosInfinity => NegInfinity
  end.

(** [Math.min(100, x)]. *)
Definition min100 (x : number) : number :=
  match x with
  | Fin q => Fin (Qmin 100 q)
  | PosInfinity => Fin 100
  | NegInfinity => NegInfinity
  | NaN => NaN
  end.

(** [Math.round(x)] on any number. *)
Definition roundNumber (x : number) : number :=
  match x with
  | Fin q => Fin (inject_Z (round q))
  | _ => x
  end.

(** [riskLevel(score)] on any number: both comparisons are false for
    [NaN], which therefore falls through to ['HIGH']. *)
Definition riskLevelOf (sc : number) : Level :=
  match sc with
  | Fin q => if Qleb q 33 then LOW else if Qleb q 66 then MEDIUM else HIGH
  | NegInfinity => LOW
  | PosInfinity | NaN => HIGH
  end.

(** [config.risk.calibration].  A multiplier is [Some] when
    [typeof multiplier === 'number'], which holds for every number,
    [NaN] and the infinities included, and [None] otherwise. *)
Record Calibration := {
  flood_multiplier : option number;
  landslide_multiplier : option number
}.

(** One calibration step, lines 298-299:
    [Math.round(Math.min(100, score * multiplier))] when the multiplier is
    of type number; [sc] is the integer score before the step. *)
Definition calibrate (multiplier : option number) (sc : Z) : number :=
  match multiplier with
  | Some m => roundNumber (min100 (mul (Fin (inject_Z sc)) m))
  | None => Fin (inject_Z sc)
  end.

(** The scores and levels of the entry pushed to [damResults], lines
    305-313, with the scores as the numbers they are after calibration. *)
Record ScoredDam := {
  scored_name : string;
  scored_state : string;
  scored_flood : number;
  scored_landslide : number;
  scored_flood_level : Level;
  scored_landslide_level : Level
}.

(** Lines 284-313 of [runFullAnalytics] for one dam: the risk formula when
    the rain entry has a summary and zeros otherwise, then the optional
    calibration, then the entry with its levels.  [summary] is the summary
    after the merge with the second rainfall source, [elev] the elevation
    chosen for the dam and [st] is [dam.state || 'Unknown']. *)
Definition analyticsDamResult (nm st : string) (summary : option RainSummary)
    (eqNear : Z) (elev baselineSample : value) (matchedReservoir : option ReservoirContext)
    (cal : option Calibration) : ScoredDam :=
  let scores :=
    match summary with
    | Some s =>
        let advanced :=
          calculateAdvancedRisk
            {| rainSummary := Some s;
               rain72h := precipitation_sum_72h_mm s;
               rain7d := precipitation_sum_7d_mm s;
               earthquakesNearby := Num (Fin (inject_Z eqNear));
               elevation := elev;
               baselineAvgDaily := baselineSample;
               reservoirContext := matchedReservoir;
               state := st |} in
        (flood_score advanced, landslide_score advanced)
    | None => (0, 0)
    end in
  let floodSc :=
    match cal with
    | Some c => calibrate (flood_multiplier c) (fst scores)
    | None => Fin (inject_Z (fst scores))
    end in
  let landslideSc :=
    match cal with
    | Some c => calibrate (landslide_multiplier c) (snd scores)
    | None => Fin (inject_Z (snd scores))
    end in
  {| scored_name := nm; scored_state := st;
     scored_flood := floodSc;
     scored_landslide := landslideSc;
     scored_flood_level := riskLevelOf floodSc;
     scored_landslide_level := riskLevelOf landslideSc |}.

(** A multiplier that is absent, not a number, or a finite number. *)
Definition finiteMultiplier (multiplier : option number) : Prop :=
  match multiplier with
  | None | Some (Fin _) => True
  | Some _ => False
  end.

(** A multiplier that is absent, not a number, or a finite number that is
    not negative. *)
Definition plainMultiplier (multiplier : option number) : Prop :=
  match multiplier with
  | None => True
  | Some (Fin m) => (0 <= m)%Q
  | Some _ => False
  end.

End Analytics.

(** ** src/riskEngine.js *)
Module RiskEngine.
Import JS.

(** The outcome of awaiting a collector: its value, or the [message] of
    the error it rejected with. *)
Inductive fetched (A : Type) :=
| Resolved (a : A)
| Rejected (message : string).
Arguments Resolved {A} a.
Arguments Rejected {A} message.

Definition isRejected {A : Type} (f : fetched A) : bool :=
  match f with
  | Rejected _ => true
  | Resolved _ => false
  end.

(** [await Promise.all([a, b])]: rejects as soon as one of the two does.
    When both reject, [secondFirst] says which rejection came first. *)
Definition promiseAll2 {A B : Type} (a : fetched A) (b : fetched B) (secondFirst : bool)
    : fetched (A * B) :=
  match a, b with
  | Resolved x, Resolved y => Resolved (x, y)
  | Rejected m, Resolved _ => Rejected m
  | Resolved _, Rejected m => Rejected m
  | Rejected m1, Rejected m2 => Rejected (if secondFirst then m2 else m1)
  end.

Record Earthquake := {
  magnitude : Q;
  latitude : Q;
  longitude : Q
}.

(** One entry of the array [fetchRainfall] resolves to. *)
Record RainEntry := {
  summary : option Analytics.RainSummary;
  elevation_m : value
}.

Definition getLevel (sc : Z) : Analytics.Level := Analytics.riskLevel sc.

Definition generateAlertMessage (alertLevel : Analytics.Level) (floodScore landslideScore : Z)
    : string :=
  match alertLevel with
  | Analytics.LOW => "No significant disaster risk. Continue normal monitoring."
  | Analytics.MEDIUM =>
      "Moderate risk: Flood " +:+ pretty floodScore +:+ ", Landslide " +:+
      pretty landslideScore +:+ ". Stay alert and monitor updates."
  | Analytics.HIGH =>
      "High disaster risk: Flood " +:+ pretty floodScore +:+ ", Landslide " +:+
      pretty landslideScore +:+ ". Take preventive actions and follow authorities."
  end.

Definition generateRecommendations (alertLevel : Analytics.Level) : list string :=
  match alertLevel with
  | Analytics.HIGH =>
      [ "Evacuate low-lying and landslide-prone areas if advised";
        "Avoid crossing flooded roads and streams";
        "Follow instructions from disaster management authorities";
        "Keep emergency kit ready" ]%string
  | Analytics.MEDIUM =>
      [ "Stay away from riverbanks and landslide-prone slopes";
        "Monitor weather and official advisories";
        "Be prepared to move to safer locations if conditions worsen" ]%string
  | Analytics.LOW =>
      [ "No special action required"; "Continue normal activities";
        "Stay informed through official channels" ]%string
  end.

Record Diagnostics := {
  diag_confidence : Z;
  averaged_flood : Analytics.Flood.components;
  averaged_landslide : Analytics.Landslide.components
}.

(** The object [runRiskCheck] resolves to.  The keys the degraded object
    does not have are [None] there. *)
Record Assessment := {
  assessment_id : string;
  timestamp : string;
  success : bool;
  error : option string;
  flood_risk_score : Z;
  landslide_risk_score : Z;
  flood_risk_level : option Analytics.Level;
  landslide_risk_level : option Analytics.Level;
  overall_alert_level : Analytics.Level;
  alert_message : string;
  recommendations : list string;
  model_diagnostics : option Diagnostics
}.

Fixpoint filter_string (keep : ascii -> bool) (s : string) : string :=
  match s with
  | EmptyString => EmptyString
  | String c rest =>
      if keep c then String c (filter_string keep rest) else filter_string keep rest
  end.

(** [`RISK_${timestamp.replace(/[-:T]/g, '').slice(0, 15)}`]. *)
Definition assessmentIdOf (ts : string) : string :=
  "RISK_" +:+
  String.substring 0 15
    (filter_string
       (fun c => negb (Ascii.eqb c "-" || Ascii.eqb c ":" || Ascii.eqb c "T")) ts).

Definition Chennai : Matcher.Dam :=
  {| Matcher.dam_name := "Chennai"; Matcher.dam_state := "";
     Matcher.lat := 13.0827; Matcher.lon := 80.2707 |}.

Definition locationsOf (dams : list Matcher.Dam) (configLocations : option (list Matcher.Dam))
    : list Matcher.Dam :=
  match dams with
  | [] => default [Chennai] configLocations
  | _ => take 25 dams
  end.

Definition eqNear (significantEq : list Earthquake) (lat lon : Q) : Z :=
  Z.of_nat (length (filter
    (fun e => Qleb (Qabs (latitude e - lat)) 2 && Qleb (Qabs (longitude e - lon)) 2 = true)
    significantEq)).

(** The matched record as [calculateAdvancedRisk] reads it. *)
Definition contextOfMatch (m : option Matcher.Match) : option Analytics.ReservoirContext :=
  match m with
  | None => None
  | Some mt =>
      Some match Matcher.best mt with
           | Some r => {| Analytics.level_pct := Matcher.level_pct r;
                          Analytics.inflow := Matcher.inflow r;
                          Analytics.outflow := Matcher.outflow r |}
           | None => Analytics.emptyContext
           end
  end.

(** Lines 108-117: the argument built for one location. *)
Definition riskCheckInput (rainSummary : Analytics.RainSummary) (elevation : value)
    (damOf : option Matcher.Dam) (eq : Z) (reservoir : option Matcher.Match)
    : Analytics.Input :=
  {| Analytics.rainSummary := Some rainSummary;
     Analytics.rain72h := Analytics.precipitation_sum_72h_mm rainSummary;
     Analytics.rain7d := Analytics.precipitation_sum_7d_mm rainSummary;
     Analytics.earthquakesNearby := Num (Fin (inject_Z eq));
     Analytics.elevation := elevation;
     Analytics.baselineAvgDaily := Null;
     Analytics.reservoirContext := contextOfMatch reservoir;
     Analytics.state := match damOf with Some d => Matcher.dam_state d | None => "" end |}.

(** The running sums of the loop. *)
Record Totals := {
  floodSum : Z;
  landslideSum : Z;
  confidenceSum : Z;
  count : Z;
  floodTotals : Analytics.Flood.components;
  landslideTotals : Analytics.Landslide.components
}.

Definition addFlood (a b : Analytics.Flood.components) : Analytics.Flood.components :=
  {| Analytics.Flood.intensity := Analytics.Flood.intensity a + Analytics.Flood.intensity b;
     Analytics.Flood.persistence := Analytics.Flood.persistence a + Analytics.Flood.persistence b;
     Analytics.Flood.saturation := Analytics.Flood.saturation a + Analytics.Flood.saturation b;
     Analytics.Flood.reservoir_stress :=
       Analytics.Flood.reservoir_stress a + Analytics.Flood.reservoir_stress b;
     Analytics.Flood.anomaly := Analytics.Flood.anomaly a + Analytics.Flood.anomaly b;
     Analytics.Flood.seismic := Analytics.Flood.seismic a + Analytics.Flood.seismic b;
     Analytics.Flood.lowland_factor :=
       Analytics.Flood.lowland_factor a + Analytics.Flood.lowland_factor b |}.

Definition addLandslide (a b : Analytics.Landslide.components)
    : Analytics.Landslide.components :=
  {| Analytics.Landslide.intensity :=
       Analytics.Landslide.intensity a + Analytics.Landslide.intensity b;
     Analytics.Landslide.duration :=
       Analytics.Landslide.duration a + Analytics.Landslide.duration b;
     Analytics.Landslide.terrain := Analytics.Landslide.terrain a + Analytics.Landslide.terrain b;
     Analytics.Landslide.seismic := Analytics.Landslide.seismic a + Analytics.Landslide.seismic b;
     Analytics.Landslide.anomaly := Analytics.Landslide.anomaly a + Analytics.Landslide.anomaly b;
     Analytics.Landslide.reservoir_spill_stress :=
       Analytics.Landslide.reservoir_spill_stress a + Analytics.Landslide.reservoir_spill_stress b;
     Analytics.Landslide.prone_state_boost :=
       Analytics.Landslide.prone_state_boost a + Analytics.Landslide.prone_state_boost b |}.

Definition zeroTotals : Totals :=
  {| floodSum := 0; landslideSum := 0; confidenceSum := 0; count := 0;
     floodTotals := Analytics.Flood.Build_components 0 0 0 0 0 0 0;
     landslideTotals := Analytics.Landslide.Build_components 0 0 0 0 0 0 0 |}.

(** What the loop keeps true of the two anomaly sums. *)
Definition anomalyInvariant (t : Totals) : Prop :=
  Analytics.Flood.anomaly (floodTotals t) = 50 * count t /\
  Analytics.Landslide.anomaly (landslideTotals t) = 50 * count t /\
  0 <= count t.

(** One iteration of the loop over [rainfallData]; [dam] is
    [locations[i]]. *)
Definition accumulate (significantEq : list Earthquake) (reservoirLevels : list Matcher.Reservoir)
    (t : Totals) (rain : RainEntry) (dam : option Matcher.Dam) : Totals :=
  match summary rain with
  | None => t
  | Some s =>
      let eq := match dam with
                | Some d => eqNear significantEq (Matcher.lat d) (Matcher.lon d)
                | None => 0
                end in
      let reservoir := match dam with
                       | Some d => Matcher.matchReservoirToDam (Some d) reservoirLevels
                                     Matcher.minScore_default
                       | None => None
                       end in
      let advanced :=
        Analytics.calculateAdvancedRisk (riskCheckInput s (elevation_m rain) dam eq reservoir) in
      {| floodSum := floodSum t + Analytics.flood_score advanced;
         landslideSum := landslideSum t + Analytics.landslide_score advanced;
         confidenceSum := confidenceSum t + Analytics.confidence advanced;
         count := count t + 1;
         floodTotals :=
           addFlood (floodTotals t) (Analytics.flood (Analytics.components advanced));
         landslideTotals :=
           addLandslide (landslideTotals t)
             (Analytics.landslide (Analytics.components advanced)) |}
  end.

Fixpoint loop (significantEq : list Earthquake) (reservoirLevels : list Matcher.Reservoir)
    (rainfallData : list RainEntry) (locations : list Matcher.Dam) (t : Totals) : Totals :=
  match rainfallData with
  | [] => t
  | rain :: rest =>
      loop significantEq reservoirLevels rest (tail locations)
        (accumulate significantEq reservoirLevels t rain (head locations))
  end.

(** [count ? Math.round(v / count) : 0]. *)
Definition average (v cnt : Z) : Z :=
  if cnt =? 0 then 0 else round (inject_Z v / inject_Z cnt).

Definition averageFlood (c : Analytics.Flood.components) (cnt : Z)
    : Analytics.Flood.components :=
  {| Analytics.Flood.intensity := average (Analytics.Flood.intensity c) cnt;
     Analytics.Flood.persistence := average (Analytics.Flood.persistence c) cnt;
     Analytics.Flood.saturation := average (Analytics.Flood.saturation c) cnt;
     Analytics.Flood.reservoir_stress := average (Analytics.Flood.reservoir_stress c) cnt;
     Analytics.Flood.anomaly := average (Analytics.Flood.anomaly c) cnt;
     Analytics.Flood.seismic := average (Analytics.Flood.seismic c) cnt;
     Analytics.Flood.lowland_factor := average (Analytics.Flood.lowland_factor c) cnt |}.

Definition averageLandslide (c : Analytics.Landslide.components) (cnt : Z)
    : Analytics.Landslide.components :=
  {| Analytics.Landslide.intensity := average (Analytics.Landslide.intensity c) cnt;
     Analytics.Landslide.duration := average (Analytics.Landslide.duration c) cnt;
     Analytics.Landslide.terrain := average (Analytics.Landslide.terrain c) cnt;
     Analytics.Landslide.seismic := average (Analytics.Landslide.seismic c) cnt;
     Analytics.Landslide.anomaly := average (Analytics.Landslide.anomaly c) cnt;
     Analytics.Landslide.reservoir_spill_stress :=
       average (Analytics.Landslide.reservoir_spill_stress c) cnt;
     Analytics.Landslide.prone_state_boost :=
       average (Analytics.Landslide.prone_state_boost c) cnt |}.

(** The object returned from the [catch] block. *)
Definition degraded (ts : string) (message : string) : Assessment :=
  {| assessment_id := assessmentIdOf ts;
     timestamp := ts;
     success := false;
     error := Some message;
     flood_risk_score := 0;
     landslide_risk_score := 0;
     flood_risk_level := None;
     landslide_risk_level := None;
     overall_alert_level := Analytics.LOW;
     alert_message := "Data fetch failed. Retry later.";
     recommendations := ["Retry run check or check API connectivity."%string];
     model_diagnostics := None |}.

(** The object returned after the loop. *)
Definition assemble (ts : string) (t : Totals) : Assessment :=
  let floodScore := average (floodSum t) (count t) in
  let landslideScore := average (landslideSum t) (count t) in
  let modelConfidence := average (confidenceSum t) (count t) in
  let overallScore := Z.max floodScore landslideScore in
  let alertLevel := getLevel overallScore in
  {| assessment_id := assessmentIdOf ts;
     timestamp := ts;
     success := true;
     error := None;
     flood_risk_score := floodScore;
     landslide_risk_score := landslideScore;
     flood_risk_level := Some (getLevel floodScore);
     landslide_risk_level := Some (getLevel landslideScore);
     overall_alert_level := alertLevel;
     alert_message := generateAlertMessage alertLevel floodScore landslideScore;
     recommendations := generateRecommendations alertLevel;
     model_diagnostics :=
       Some {| diag_confidence := modelConfidence;
               averaged_flood := averageFlood (floodTotals t) (count t);
               averaged_landslide := averageLandslide (landslideTotals t) (count t) |} |}.

(** [runRiskCheck(config)].  [ts] is [new Date().toISOString()], [dams]
    is what [loadDams()] returns, and the three collectors are given by
    their outcomes; the reservoir collector is awaited only after the
    first two have resolved. *)
Definition runRiskCheck (ts : string) (dams : list Matcher.Dam)
    (configLocations : option (list Matcher.Dam))
    (rainfall : fetched (list RainEntry)) (earthquakesF : fetched (list Earthquake))
    (secondFirst : bool) (reservoirs : fetched (list Matcher.Reservoir)) : Assessment :=
  let locations := locationsOf dams configLocations in
  match promiseAll2 rainfall earthquakesF secondFirst with
  | Rejected message => degraded ts message
  | Resolved (rainfallData, earthquakes) =>
      match reservoirs with
      | Rejected message => degraded ts message
      | Resolved reservoirLevels =>
          let significantEq :=
            filter (fun e => Qleb 4.5 (magnitude e) = true) earthquakes in
          assemble ts (loop significantEq reservoirLevels rainfallData locations zeroTotals)
      end
  end.

End RiskEngine.

(** ** src/nowcastEngine.js *)
Module Nowcast.

(** One entry of a history array: [{ score, ts: Date.now() }]. *)
Record TrendPoint := { score : Z; ts : Z }.

(** [Array.prototype.slice(start)] with one argument: a negative [start]
    counts from the end, and both ends are clipped to the array. *)
Definition slice_from {A : Type} (start : Z) (l : list A) : list A :=
  let len := Z.of_nat (length l) in
  let k := if start <? 0 then Z.max (len + start) 0 else Z.min start len in
  drop (Z.to_nat k) l.

Definition maxPoints_default : Z := 8.

Section History.
Context `{Countable K}.

(** The process-wide [scoreHistory = new Map()]. *)
Definition scoreHistory_init : gmap K (list TrendPoint) := ∅.

(** [updateHistory(damId, score, maxPoints = 8)]; the clock value read
    by [Date.now()] is the argument [now].  Returns the new store and
    the array [next]. *)
Definition updateHistory (scoreHistory : gmap K (list TrendPoint))
    (damId : K) (sc : Z) (now : Z) (maxPoints : Z)
    : gmap K (list TrendPoint) * list TrendPoint :=
  let existing := default [] (scoreHistory !! damId) in
  let next := slice_from (- maxPoints) (existing ++ [{| score := sc; ts := now |}]) in
  (<[damId := next]> scoreHistory, next).
End History.

(** The loop of [consecutiveRising]: [i] runs from [length - 1] down to 1
    and stops at the first comparison that is not a strict rise. *)
Fixpoint risingLoop (history : list TrendPoint) (i : nat) (rising : Z) : Z :=
  match i with
  | O => rising
  | S j =>
      match history !! i, history !! j with
      | Some cur, Some prev =>
          if score prev <? score cur then risingLoop history j (rising + 1) else rising
      | _, _ => rising
      end
  end.

Definition consecutiveRising (history : list TrendPoint) : Z :=
  if (length history <? 2)%nat then 0
  else risingLoop history (length history - 1)%nat 0.

(** [config.risk.nowcast]; an absent key is [None] and takes the default
    through [??]. *)
Record NowcastCfg := {
  warning_threshold : option Z;
  emergency_threshold : option Z;
  rising_checks : option Z
}.

Definition defaultCfg : NowcastCfg :=
  {| warning_threshold := None; emergency_threshold := None; rising_checks := None |}.

Definition warningThreshold (c : NowcastCfg) : Z := default 60 (warning_threshold c).
Definition emergencyThreshold (c : NowcastCfg) : Z := default 75 (emergency_threshold c).
Definition risingChecks (c : NowcastCfg) : Z := default 3 (rising_checks c).

(** The escalation fields of one entry of [results]. *)
Record Escalation := {
  overall_score_1h : Z;
  warning_triggered : bool;
  emergency_triggered : bool;
  rising_out : Z
}.

Section Escalate.
Context `{Countable K}.

(** Lines 525-529 of [runOneHourNowcast] for one dam, with
    [overall1h = Math.max(flood_score_1h, landslide_score_1h)] already
    computed: append to the history, count the streak, set the two
    flags. *)
Definition escalate (c : NowcastCfg) (store : gmap K (list TrendPoint))
    (damKey : K) (overall1h : Z) (now : Z)
    : gmap K (list TrendPoint) * Escalation :=
  let '(store', history) := updateHistory store damKey overall1h now maxPoints_default in
  let rising := consecutiveRising history in
  let warningTriggered :=
    (warningThreshold c <=? overall1h) && (risingChecks c <=? rising) in
  let emergencyTriggered :=
    (emergencyThreshold c <=? overall1h) && (Z.max 1 (risingChecks c - 1) <=? rising) in
  (store', {| overall_score_1h := overall1h;
              warning_triggered := warningTriggered;
              emergency_triggered := emergencyTriggered;
              rising_out := rising |}).

(** Successive nowcast runs for one dam: each run carries its score and
    its clock value; the store is threaded from run to run. *)
Fixpoint runs (c : NowcastCfg) (store : gmap K (list TrendPoint))
    (damKey : K) (samples : list (Z * Z))
    : gmap K (list TrendPoint) * list Escalation :=
  match samples with
  | [] => (store, [])
  | (sc, now) :: rest =>
      let '(store1, e) := escalate c store damKey sc now in
      let '(store2, es) := runs c store1 damKey rest in
      (store2, e :: es)
  end.

(** Any interleaving of appends to any keys. *)
Fixpoint appends (store : gmap K (list TrendPoint)) (ops : list (K * Z * Z))
    : gmap K (list TrendPoint) :=
  match ops with
  | [] => store
  | (k, sc, now) :: rest =>
      appends (fst (updateHistory store k sc now maxPoints_default)) rest
  end.
End Escalate.

(** *** The rest of src/nowcastEngine.js *)

(** Every point appended under the key [k] by [ops], oldest first. *)
Definition pointsFor `{Countable K} (k : K) (ops : list (K * Z * Z)) : list TrendPoint :=
  omap (fun op => if decide (op.1.1 = k)
                  then Some {| score := op.1.2; ts := op.2 |} else None) ops.

(** [toNumber(value, fallback = 0)]. *)
Definition toNumber (v : JS.value) (fallback : Q) : Q :=
  match JS.toNumber v with
  | JS.Fin q => q
  | _ => fallback
  end.

(** The [hourly] object of a rain entry.  An element of [time] is given by
    what [Date.parse] makes of it: milliseconds, or [None] for [NaN]. An
    absent array is the empty list. *)
Record Hourly := {
  time : list (option Z);
  precipitation : list JS.value
}.

(** One element of [paired]. *)
Record Paired := { pts : Z; p : Q }.

(** [times.map((t, i) => ({ ts: Date.parse(t), p: precip[i] || 0 }))
    .filter((x) => Number.isFinite(x.ts))]; [precip] holds what is left
    of the array from index [i] on. *)
Fixpoint pairUp (times : list (option Z)) (precip : list Q) : list Paired :=
  match times with
  | [] => []
  | t :: times' =>
      match t with
      | Some ms => {| pts := ms; p := default 0%Q (head precip) |} :: pairUp times' (tail precip)
      | None => pairUp times' (tail precip)
      end
  end.

(** [xs.slice(0, n).reduce((a, b) => a + b.p, 0)]. *)
Definition sumFirst (n : nat) (xs : list Paired) : Q :=
  fold_left (fun a b => (a + p b)%Q) (take n xs) 0%Q.

(** [Math.round(x * 100) / 100]. *)
Definition round2 (x : Q) : Q := (inject_Z (JS.round (x * 100)) / 100)%Q.

Record RainWin := {
  next1h_mm : JS.value;
  next3h_mm : JS.value;
  past6h_mm : JS.value;
  accel_mm : JS.value
}.

Definition zeroWin : RainWin :=
  {| next1h_mm := JS.Num (JS.Fin 0); next3h_mm := JS.Num (JS.Fin 0);
     past6h_mm := JS.Num (JS.Fin 0); accel_mm := JS.Num (JS.Fin 0) |}.

(** [rainfallWindows(hourly)]; [now] is the value of [Date.now()]. *)
Definition rainfallWindows (hourly : Hourly) (now : Z) : RainWin :=
  let times := time hourly in
  let precip := map (fun v => toNumber v 0) (precipitation hourly) in
  if ((length times =? 0) || (length precip =? 0))%nat then zeroWin
  else
    let paired := pairUp times precip in
    if (length paired =? 0)%nat then zeroWin
    else
      let next := Analytics.sortBy (fun a b => pts a - pts b)
                    (filter (fun x => now <= pts x) paired) in
      let past := Analytics.sortBy (fun a b => pts b - pts a)
                    (filter (fun x => pts x < now) paired) in
      let next1h := sumFirst 1 next in
      let next3h := sumFirst 3 next in
      let prev3h := sumFirst 3 past in
      let past6h := sumFirst 6 past in
      let accel := Qmax 0 (next3h - prev3h) in
      {| next1h_mm := JS.Num (JS.Fin (round2 next1h));
         next3h_mm := JS.Num (JS.Fin (round2 next3h));
         past6h_mm := JS.Num (JS.Fin (round2 past6h));
         accel_mm := JS.Num (JS.Fin (round2 accel)) |}.

Definition normalizeRain (v : JS.value) (scale : Q) : Q :=
  JS.clamp ((toNumber v 0 / scale) * 100) 0 100.

Record OneHour := {
  flood_score_1h : Z;
  landslide_score_1h : Z
}.

(** [oneHourScores(advanced, rainWin, modelConfidence, elevation,
    reservoirLevelPct)]; [x == null] holds of [undefined] and [null]. *)
Definition oneHourScores (advanced : Analytics.RiskResult) (rainWin : RainWin)
    (modelConfidence : Z) (elevation reservoirLevelPct : JS.value) : OneHour :=
  let next1h := normalizeRain (next1h_mm rainWin) 25 in
  let next3h := normalizeRain (next3h_mm rainWin) 55 in
  let past6h := normalizeRain (past6h_mm rainWin) 70 in
  let accel := normalizeRain (accel_mm rainWin) 30 in
  let terrain :=
    match elevation with
    | JS.Undefined | JS.Null => 50%Q
    | _ => JS.clamp (toNumber elevation 0 / 30) 0 100
    end in
  let reservoirStress :=
    match reservoirLevelPct with
    | JS.Undefined | JS.Null => 0%Q
    | _ => JS.clamp ((toNumber reservoirLevelPct 0 - 60) * 2.5) 0 100
    end in
  let flood1h :=
    JS.clamp
      (0.34 * inject_Z (Analytics.flood_score advanced) +
       0.26 * next1h +
       0.16 * next3h +
       0.10 * past6h +
       0.08 * accel +
       0.06 * reservoirStress)
      0 100 in
  let landslide1h :=
    JS.clamp
      (0.32 * inject_Z (Analytics.landslide_score advanced) +
       0.22 * next1h +
       0.15 * next3h +
       0.10 * accel +
       0.11 * terrain +
       0.10 * (100 - JS.clamp (inject_Z modelConfidence) 0 100) * 0.2)
      0 100 in
  {| flood_score_1h := JS.round flood1h;
     landslide_score_1h := JS.round landslide1h |}.

(** One entry of [results]; the fields the summary reads. *)
Record NowcastResult := {
  result_name : string;
  result_overall : Z;
  result_warning : bool;
  result_emergency : bool
}.

Record NowcastSummary := {
  warning_count : nat;
  emergency_count : nat;
  alert_level_1h : Analytics.Level;
  dams : list NowcastResult
}.

(** Lines 549-568 of [runOneHourNowcast]: the counts, the alert level and
    the ranking of the per-dam results. *)
Definition summarize (results : list NowcastResult) : NowcastSummary :=
  let warningCount := length (filter (fun r => result_warning r = true) results) in
  let emergencyCount := length (filter (fun r => result_emergency r = true) results) in
  let alertLevel :=
    if (0 <? emergencyCount)%nat then Analytics.HIGH
    else if (0 <? warningCount)%nat then Analytics.MEDIUM
    else Analytics.LOW in
  {| warning_count := warningCount;
     emergency_count := emergencyCount;
     alert_level_1h := alertLevel;
     dams := Analytics.sortBy (fun a b => result_overall b - result_overall a) results |}.

(** Lines 504-513: the argument built for one dam. *)
Definition nowcastInput (s : Analytics.RainSummary) (elevation_m : JS.value)
    (eqNearby : Z) (matchedReservoir : option Matcher.Match) (damState : string)
    : Analytics.Input :=
  {| Analytics.rainSummary := Some s;
     Analytics.rain72h := Analytics.precipitation_sum_72h_mm s;
     Analytics.rain7d := Analytics.precipitation_sum_7d_mm s;
     Analytics.earthquakesNearby := JS.Num (JS.Fin (inject_Z eqNearby));
     Analytics.elevation := elevation_m;
     Analytics.baselineAvgDaily := JS.Null;
     Analytics.reservoirContext := RiskEngine.contextOfMatch matchedReservoir;
     Analytics.state := damState |}.

(** [matchedReservoir?.level_pct ?? null]. *)
Definition matchedLevel (matchedReservoir : option Matcher.Match) : JS.value :=
  match matchedReservoir with
  | Some m => match Matcher.best m with
              | Some r => JS.nullish (Matcher.level_pct r) JS.Null
              | None => JS.Null
              end
  | None => JS.Null
  end.

(** Lines 504-524 for one dam that has a rain summary: the risk formula,
    the rain windows, the two 1-hour scores and their maximum. *)
Definition overall1hOf (s : Analytics.RainSummary) (elevation_m : JS.value)
    (hourly : Hourly) (now : Z) (eqNearby : Z)
    (matchedReservoir : option Matcher.Match) (damState : string) : Z :=
  let advanced :=
    Analytics.calculateAdvancedRisk
      (nowcastInput s elevation_m eqNearby matchedReservoir damState) in
  let rainWin := rainfallWindows hourly now in
  let oneHour :=
    oneHourScores advanced rainWin (Analytics.confidence advanced) elevation_m
      (matchedLevel matchedReservoir) in
  Z.max (flood_score_1h oneHour) (landslide_score_1h oneHour).

End Nowcast.

(** ** The rainfall collector (Open-Meteo): the summary of one location *)
Module OpenMeteo.
Import JS.

(** [a + b] on numbers. *)
Definition add (x y : number) : number :=
  match x, y with
  | Fin a, Fin b => Fin (a + b)
  | NaN, _ | _, NaN => NaN
  | PosInfinity, NegInfinity | NegInfinity, PosInfinity => NaN
  | PosInfinity, _ | _, PosInfinity => PosInfinity
  | NegInfinity, _ | _, NegInfinity => NegInfinity
  end.

(** [n || 0] on a number: 0 and [NaN] are falsy. *)
Definition orZero (n : number) : number :=
  match n with
  | NaN => Fin 0
  | Fin q => if Qeq_bool q 0 then Fin 0 else Fin q
  | _ => n
  end.

(** [sum(arr)]: [arr.reduce((a, b) => a + (Number(b) || 0), 0)] on an array
    of numbers. *)
Definition sum (arr : list number) : number :=
  fold_left (fun a b => add a (orZero b)) arr (Fin 0).

(** [Math.max] of two numbers. *)
Definition max2 (x y : number) : number :=
  match x, y with
  | NaN, _ | _, NaN => NaN
  | PosInfinity, _ | _, PosInfinity => PosInfinity
  | NegInfinity, n | n, NegInfinity => n
  | Fin a, Fin b => Fin (Qmax a b)
  end.

(** [Math.max(0, ...precip)]. *)
Definition maxWithZero (precip : list number) : number :=
  fold_left max2 precip (Fin 0).

(** [Math.round(x * 100) / 100]. *)
Definition round2 (x : number) : number :=
  match x with
  | Fin q => Fin (Nowcast.round2 q)
  | _ => x
  end.

(** [n >= k ? precip.slice(-k) : precip]. *)
Definition lastHours (k : nat) (precip : list number) : list number :=
  if (k <=? length precip)%nat then Nowcast.slice_from (- Z.of_nat k) precip
  else precip.

(** The [summary] object [fetchLocation] builds from
    [precip = (hourly.precipitation || []).map(Number)]. *)
Definition summaryOf (precip : list number) : Analytics.RainSummary :=
  {| Analytics.precipitation_sum_24h_mm := Num (round2 (sum (lastHours 24 precip)));
     Analytics.precipitation_sum_72h_mm := Num (round2 (sum (lastHours 72 precip)));
     Analytics.precipitation_sum_7d_mm := Num (round2 (sum precip));
     Analytics.max_hourly_precipitation_mm := Num (round2 (maxWithZero precip)) |}.

(** The summary of the entry returned when both attempts fail. *)
Definition fallbackSummary : Analytics.RainSummary :=
  {| Analytics.precipitation_sum_24h_mm := Num (Fin 0);
     Analytics.precipitation_sum_72h_mm := Num (Fin 0);
     Analytics.precipitation_sum_7d_mm := Num (Fin 0);
     Analytics.max_hourly_precipitation_mm := Num (Fin 0) |}.

(** An hourly value that is a finite number not below 0, or [NaN]. *)
Definition plausible (n : number) : Prop :=
  match n with
  | Fin q => (0 <= q)%Q
  | NaN => True
  | _ => False
  end.

(** What one request for a location comes to inside its [try] block: the
    hourly precipitation and the elevation read from the response, or a
    failure ([fetch] rejects, the status is not ok, the body does not
    parse) with the message of the error thrown. *)
Inductive Response :=
| Answered (precip : list number) (elevation : value)
| Failed (message : string).

(** The fields of the entry [fetchLocation] returns that [runRiskCheck]
    reads: after the first attempt, after the retry, or the fallback of
    the inner [catch], which has a zero summary and no elevation. *)
Definition fetchLocation (first retry : Response) : RiskEngine.RainEntry :=
  match first, retry with
  | Answered precip elevation, _ | Failed _, Answered precip elevation =>
      {| RiskEngine.summary := Some (summaryOf precip);
         RiskEngine.elevation_m := elevation |}
  | Failed _, Failed _ =>
      {| RiskEngine.summary := Some fallbackSummary;
         RiskEngine.elevation_m := Undefined |}
  end.

(** Both the request and the retry of a location fail. *)
Definition bothFailed (r : Response * Response) : Prop :=
  match r with
  | (Failed _, Failed _) => True
  | _ => False
  end.

(** [fetchRainfall(config, { locations })], given for each location what
    its request and its retry come to: every failure is caught per
    location, so the promise resolves. *)
Definition fetchRainfall (responses : list (Response * Response))
    : RiskEngine.fetched (list RiskEngine.RainEntry) :=
  RiskEngine.Resolved (map (fun r => fetchLocation r.1 r.2) responses).

End OpenMeteo.

(** ** The earthquake collector (USGS) *)
Module Usgs.

(** [fetchRecentEarthquakes(config, 72)]: the events read from the
    response, or the empty array of the [catch] block when the request
    fails ([None]). *)
Definition fetchRecentEarthquakes (response : option (list RiskEngine.Earthquake))
    : RiskEngine.fetched (list RiskEngine.Earthquake) :=
  RiskEngine.Resolved (default [] response).

End Usgs.

(** ** The reservoir collector: merging the two sources *)
Module ReservoirCollector.
Import JS.

(** [(row.name || '').trim().toLowerCase()]. *)
Definition rowKey (row : Matcher.Reservoir) : string :=
  toLowerCase (trim (Matcher.name row)).

(** One step of [merged.forEach]; the [Map] is the list of its values in
    insertion order, each stored under its own key. *)
Definition dedupStep (dedup : list Matcher.Reservoir) (row : Matcher.Reservoir)
    : list Matcher.Reservoir :=
  let key := rowKey row in
  if String.eqb key "" then dedup
  else if existsb (fun kept => String.eqb (rowKey kept) key) dedup then dedup
  else dedup ++ [row].

(** [fetchCombinedWaterLevels] from the rows of the two sources. *)
Definition combine (nwdpRows reservoirRows : list Matcher.Reservoir)
    : list Matcher.Reservoir :=
  fold_left dedupStep (nwdpRows ++ reservoirRows) [].

(** [fetchCombinedWaterLevels(config)], given what each of the two sources
    comes to: its rows, or [None] when the source is not enabled or its
    request fails, which [fetchNwdpReservoirLevels] and
    [fetchReservoirLevels] turn into the empty array. *)
Definition fetchCombinedWaterLevels (nwdp reservoir : option (list Matcher.Reservoir))
    : RiskEngine.fetched (list Matcher.Reservoir) :=
  RiskEngine.Resolved (combine (default [] nwdp) (default [] reservoir)).

End ReservoirCollector.

(** ** src/api/routes.js: the assessment state of the run-check handler *)
Module Routes.

Definition MAX_HISTORY : nat := 100.

(** The module-level variables the handler writes. *)
Record State := {
  currentAssessment : option RiskEngine.Assessment;
  alertHistory : list RiskEngine.Assessment
}.

Definition initial : State :=
  {| currentAssessment := None; alertHistory := [] |}.

(** What [POST /run-check] and the monitoring timer do with the object
    [runRiskCheck] resolved to: store it, and when its [assessment_id] is
    truthy put it in front of the history and drop the last entry if the
    history has grown beyond [MAX_HISTORY]. *)
Definition recordAssessment (st : State) (assessment : RiskEngine.Assessment) : State :=
  {| currentAssessment := Some assessment;
     alertHistory :=
       if String.eqb (RiskEngine.assessment_id assessment) "" then alertHistory st
       else
         let unshifted := assessment :: alertHistory st in
         if (MAX_HISTORY <? length unshifted)%nat then removelast unshifted
         else unshifted |}.

(** Successive checks, oldest first. *)
Definition recordAll (st : State) (assessments : list RiskEngine.Assessment) : State :=
  fold_left recordAssessment assessments st.

End Routes.

(** ** Sample data *)
Module Samples.

Definition tehri : Matcher.Dam :=
  {| Matcher.dam_name := "Tehri Dam"; Matcher.dam_state := "Uttarakhand";
     Matcher.lat := 30.38; Matcher.lon := 78.48 |}.

Definition tehriRecord : Matcher.Reservoir :=
  {| Matcher.name := "Tehri"; Matcher.state := "Uttarakhand";
     Matcher.level_pct := JS.Num (JS.Fin 64);
     Matcher.inflow := JS.Undefined; Matcher.outflow := JS.Undefined |}.

(** Six hourly readings around the clock value 5000: three past, three to
    come, listed out of order, with one time that does not parse. *)
Definition hourlySample : Nowcast.Hourly :=
  {| Nowcast.time := [Some 3000; Some 6000; None; Some 4000; Some 5000; Some 7000; Some 2000];
     Nowcast.precipitation :=
       [JS.Num (JS.Fin 1.5); JS.Num (JS.Fin 4); JS.Num (JS.Fin 9); JS.Null;
        JS.Num (JS.Fin 2.25); JS.Num JS.NaN; JS.Num (JS.Fin 0.5)] |}.

End Samples.

(** * Properties *)

(** ** Facts about the JavaScript primitives *)
Section JSFacts.
Import JS.

Lemma Qleb_le (x y : Q) : Qleb x y = true <-> (x <= y)%Q.
Proof. apply Qle_bool_iff. Qed.

Lemma Qltb_lt (x y : Q) : Qltb x y = true <-> (x < y)%Q.
Proof.
  unfold Qltb. rewrite negb_true_iff. split.
  - intros Hf. apply Qnot_le_lt. intros Hle.
    apply Qle_bool_iff in Hle. congruence.
  - intros Hlt. destruct (Qle_bool y x) eqn:E; [|reflexivity].
    apply Qle_bool_iff in E. exfalso. apply (Qlt_not_le _ _ Hlt E).
Qed.

Lemma Qltb_ge (x y : Q) : Qltb x y = false <-> (y <= x)%Q.
Proof.
  unfold Qltb. rewrite negb_false_iff. apply Qle_bool_iff.
Qed.

Lemma clamp_range (v : Q) : (0 <= clamp v 0 100 <= 100)%Q.
Proof.
  unfold clamp. split.
  - apply Q.le_max_l.
  - apply Q.max_lub; [discriminate | apply Q.le_min_l].
Qed.

Lemma clamp_mono (u v lo hi : Q) : (u <= v)%Q -> (clamp u lo hi <= clamp v lo hi)%Q.
Proof.
  intros Huv. unfold clamp.
  apply Q.max_le_compat_l, Q.min_le_compat_l, Huv.
Qed.

Lemma round_mono (x y : Q) : (x <= y)%Q -> round x <= round y.
Proof.
  intros Hxy. unfold round. apply Qfloor_resp_le.
  apply Qplus_le_compat; [exact Hxy | apply Qle_refl].
Qed.

Lemma round_range (x : Q) : (0 <= x <= 100)%Q -> 0 <= round x <= 100.
Proof.
  intros [H0 H1]. split.
  - change 0 with (round 0). apply round_mono, H0.
  - change 100 with (round 100). apply round_mono, H1.
Qed.

Lemma round_inject_Z (z : Z) : round (inject_Z z) = z.
Proof.
  unfold round. apply Z.le_antisymm.
  - apply Z.lt_succ_r. rewrite Zlt_Qlt.
    eapply Qle_lt_trans; [apply Qfloor_le|].
    unfold Z.succ. rewrite inject_Z_plus.
    apply Qplus_lt_r. reflexivity.
  - rewrite <- (Qfloor_Z z) at 1. apply Qfloor_resp_le.
    rewrite <- (Qplus_0_r (inject_Z z)) at 1.
    apply Qplus_le_r. discriminate.
Qed.

Lemma clampR_range (v : R) : (0 <= clampR v 0 100 <= 100)%R.
Proof.
  unfold clampR. split.
  - apply Rmax_l.
  - apply Rmax_lub; [Lra.lra | apply Rmin_l].
Qed.

Lemma clampR_mono (u v lo hi : R) : (u <= v)%R -> (clampR u lo hi <= clampR v lo hi)%R.
Proof.
  intros Huv. unfold clampR.
  apply Rle_max_compat_l, Rle_min_compat_l, Huv.
Qed.

Lemma roundR_mono (x y : R) : (x <= y)%R -> roundR x <= roundR y.
Proof.
  intros Hxy. unfold roundR. apply Zfloor_le. Lra.lra.
Qed.

Lemma roundR_eq (z : Z) (x : R) :
  (IZR z - / 2 <= x < IZR z + / 2)%R -> roundR x = z.
Proof.
  intros [Hl Hu]. unfold roundR. apply Zfloor_eq. split; Lra.lra.
Qed.

Lemma roundR_range (x : R) : (0 <= x <= 100)%R -> 0 <= roundR x <= 100.
Proof.
  intros [H0 H1]. split.
  - rewrite <- (roundR_eq 0 0) by (simpl; Lra.lra). apply roundR_mono, H0.
  - rewrite <- (roundR_eq 100 100) by (simpl; Lra.lra). apply roundR_mono, H1.
Qed.

End JSFacts.

(** ** The risk formula *)
Section RiskFormulaFacts.
Import JS Analytics.

Lemma levelStress_range (c : ReservoirContext) (l : Q) :
  levelStress c = Some l -> (0 <= l <= 100)%Q.
Proof.
  unfold levelStress. destruct (normalizeReservoirLevel _); [|discriminate].
  intros [= <-]. apply clamp_range.
Qed.

Lemma flowStress_range (c : ReservoirContext) (f : Q) :
  flowStress c = Some f -> (0 <= f <= 100)%Q.
Proof.
  unfold flowStress.
  destruct (safeNum (inflow c) NaN); try discriminate.
  destruct (safeNum (outflow c) NaN); try discriminate.
  destruct (Qleb 0 _); [|discriminate].
  intros [= <-]. apply clamp_range.
Qed.

Lemma reservoirStressIndex_range (c : ReservoirContext) :
  in_range (reservoirStressIndex c).
Proof.
  unfold reservoirStressIndex, in_range.
  destruct (levelStress c) as [l|] eqn:El; destruct (flowStress c) as [f|] eqn:Ef.
  - apply levelStress_range in El. apply flowStress_range in Ef.
    apply round_range. split; Lqa.lra.
  - apply round_range, (levelStress_range _ _ El).
  - apply round_range, (flowStress_range _ _ Ef).
  - lia.
Qed.

Lemma lowlandFactor_range (i : Input) : in_range (round (lowlandFactor i)).
Proof.
  unfold lowlandFactor, in_range. destruct (elevationOf i) as [e|].
  - destruct (Qltb e 300); [|destruct (Qltb e 600)]; vm_compute; split; discriminate.
  - vm_compute; split; discriminate.
Qed.

Lemma terrain_range (i : Input) : (0 <= terrain i <= 100)%Q.
Proof.
  unfold terrain. destruct (elevationOf i); [apply clamp_range|].
  split; discriminate.
Qed.

Lemma proneStateBoost_range (i : Input) : in_range (round (proneStateBoost i)).
Proof.
  unfold proneStateBoost, in_range.
  destruct (bool_decide _); vm_compute; split; discriminate.
Qed.

Example riskLevel_bands :
  map riskLevel [0; 33; 34; 66; 67; 100] = [LOW; LOW; MEDIUM; MEDIUM; HIGH; HIGH].
Proof. reflexivity. Qed.

(** [null] is not [undefined]: [Number(null)] is 0, so a bundle that
    passes [elevation: null] and [baselineAvgDaily: null] is scored at sea
    level and counts both features as present. *)
Example null_is_zero :
  let input :=
    {| rainSummary := None; rain72h := Undefined; rain7d := Undefined;
       earthquakesNearby := Undefined; elevation := Null;
       baselineAvgDaily := Null; reservoirContext := None; state := "" |} in
  elevationOf input = Some 0%Q /\ baselineOf input = Some 0%Q /\
  anomaly input = 50%Q /\ terrain input = 0%Q /\ lowlandFactor input = 12%Q /\
  confidenceOf input = 77.
Proof. vm_compute. repeat split. Qed.

(** C3. For every input of [calculateAdvancedRisk], the two scores, the
    confidence and each of the fourteen rounded sub-indices of the
    components are integers between 0 and 100. *)
Theorem calculateAdvancedRisk_bounded (input : Input) :
  let r := calculateAdvancedRisk input in
  in_range (flood_score r) /\ in_range (landslide_score r) /\ in_range (confidence r) /\
  Forall in_range (componentValues (components r)).
Proof.
  cbv zeta. unfold calculateAdvancedRisk. cbn [flood_score landslide_score confidence components].
  split; [apply roundR_range, clampR_range|].
  split; [apply roundR_range, clampR_range|].
  split; [apply round_range, clamp_range|].
  unfold componentValues, floodComponents, landslideComponents.
  cbn [flood landslide Flood.intensity Flood.persistence Flood.saturation
       Flood.reservoir_stress Flood.anomaly Flood.seismic Flood.lowland_factor
       Landslide.intensity Landslide.duration Landslide.terrain Landslide.seismic
       Landslide.anomaly Landslide.reservoir_spill_stress Landslide.prone_state_boost].
  repeat apply Forall_cons_2; try apply Forall_nil_2;
    try (apply round_range, clamp_range).
  - rewrite round_inject_Z. apply reservoirStressIndex_range.
  - apply lowlandFactor_range.
  - apply round_range, terrain_range.
  - apply proneStateBoost_range.
Qed.

(** *** The logistic curve *)

Lemma exp_le (x y : R) : (x <= y)%R -> (exp x <= exp y)%R.
Proof.
  intros [Hlt | ->]; [left; apply exp_increasing, Hlt | right; reflexivity].
Qed.

Lemma sigmoidTo100_mono (u v center steepness : R) :
  (0 <= steepness)%R -> (u <= v)%R ->
  (sigmoidTo100 u center steepness <= sigmoidTo100 v center steepness)%R.
Proof.
  intros Hs Huv. unfold sigmoidTo100.
  assert (He : (exp (- (steepness * (v - center))) <= exp (- (steepness * (u - center))))%R).
  { apply exp_le. apply Ropp_le_contravar, Rmult_le_compat_l; Lra.lra. }
  pose proof (exp_pos (- (steepness * (v - center)))) as Hv.
  pose proof (exp_pos (- (steepness * (u - center)))) as Hu.
  unfold Rdiv. apply Rmult_le_compat_l; [Lra.lra|].
  apply Rinv_le_contravar; Lra.lra.
Qed.

Lemma exp_INR_mult (n : nat) (y : R) : exp (INR n * y) = (exp y ^ n)%R.
Proof.
  induction n as [|n IH].
  - simpl. rewrite Rmult_0_l. apply exp_0.
  - rewrite S_INR, Rmult_plus_distr_r, Rmult_1_l, exp_plus, IH. simpl. ring.
Qed.

(** Two elementary enclosures of the exponential, from [1 + y <= exp y]. *)
Lemma exp_ge_pow (n : nat) (y : R) :
  (0 <= 1 + y)%R -> ((1 + y) ^ n <= exp (INR n * y))%R.
Proof.
  intros Hy. rewrite exp_INR_mult. apply pow_incr.
  split; [exact Hy | apply exp_ineq1_le].
Qed.

Lemma exp_le_pow (n : nat) (y : R) :
  (y < 1)%R -> (exp (INR n * y) <= (/ (1 - y)) ^ n)%R.
Proof.
  intros Hy. rewrite exp_INR_mult. apply pow_incr. split.
  - left. apply exp_pos.
  - assert (H1 : (1 - y <= exp (- y))%R)
      by (pose proof (exp_ineq1_le (- y)); Lra.lra).
    rewrite exp_Ropp in H1.
    pose proof (exp_pos y) as Hp.
    apply (Rmult_le_reg_r (1 - y)); [Lra.lra|].
    rewrite Rinv_l by Lra.lra.
    apply (Rmult_le_reg_r (/ exp y)); [apply Rinv_0_lt_compat, Hp|].
    rewrite Rmult_1_l, Rmult_assoc, (Rmult_comm (1 - y)), <- Rmult_assoc, Rinv_r
      by Lra.lra.
    Lra.lra.
Qed.

(** The rounded, clamped value of the curve, from an enclosure of the
    exponential. *)
Lemma sigmoid_round (k : Z) (lin center steepness lo hi : R) :
  (lo <= exp (- (steepness * (lin - center))) <= hi)%R ->
  (0 <= IZR k - / 2)%R -> (IZR k + / 2 <= 100)%R ->
  ((IZR k - / 2) * (1 + hi) <= 100)%R ->
  (100 < (IZR k + / 2) * (1 + lo))%R ->
  roundR (clampR (sigmoidTo100 lin center steepness) 0 100) = k.
Proof.
  intros [Hlo Hhi] Hk0 Hk1 Hup Hdn. unfold sigmoidTo100. cbv zeta.
  set (E := exp _) in *.
  pose proof (exp_pos (- (steepness * (lin - center)))) as HE. fold E in HE.
  set (s := (100 / (1 + E))%R).
  assert (Hs : (s * (1 + E) = 100)%R) by (unfold s; field; Lra.lra).
  assert (Hge : (IZR k - / 2 <= s)%R).
  { apply (Rmult_le_reg_r (1 + E)); [Lra.lra|]. rewrite Hs.
    apply Rle_trans with ((IZR k - / 2) * (1 + hi))%R; [|exact Hup].
    apply Rmult_le_compat_l; Lra.lra. }
  assert (Hlt : (s < IZR k + / 2)%R).
  { apply (Rmult_lt_reg_r (1 + E)); [Lra.lra|]. rewrite Hs.
    apply Rlt_le_trans with ((IZR k + / 2) * (1 + lo))%R; [exact Hdn|].
    apply Rmult_le_compat_l; Lra.lra. }
  unfold clampR. rewrite Rmin_right by Lra.lra. rewrite Rmax_right by Lra.lra.
  apply roundR_eq. split; assumption.
Qed.

Lemma floodScore_at_5 (i : Input) : (floodLinear i == 5)%Q -> floodScore i = 2.
Proof.
  intros Hq. unfold floodScore. rewrite (Qeq_eqR _ _ Hq).
  apply (sigmoid_round 2 _ _ _ 40 65)%R; try Lra.lra.
  replace (- (0.09 * (Q2R 5 - 50)))%R with (INR 32 * (4.05 / 32))%R at 1
    by (unfold Q2R; simpl; Lra.lra).
  replace (- (0.09 * (Q2R 5 - 50)))%R with (INR 128 * (4.05 / 128))%R
    by (unfold Q2R; simpl; Lra.lra).
  split.
  - eapply Rle_trans; [|apply exp_ge_pow; Lra.lra]. Lra.lra.
  - eapply Rle_trans; [apply exp_le_pow; Lra.lra|]. Lra.lra.
Qed.

Lemma landslideScore_at_13 (i : Input) : (landslideLinear i == 13)%Q -> landslideScore i = 5.
Proof.
  intros Hq. unfold landslideScore. rewrite (Qeq_eqR _ _ Hq).
  apply (sigmoid_round 5 _ _ _ 17.5 21)%R; try Lra.lra.
  replace (- (0.085 * (Q2R 13 - 48)))%R with (INR 64 * (2.975 / 64))%R at 1
    by (unfold Q2R; simpl; Lra.lra).
  replace (- (0.085 * (Q2R 13 - 48)))%R with (INR 128 * (2.975 / 128))%R
    by (unfold Q2R; simpl; Lra.lra).
  split.
  - eapply Rle_trans; [|apply exp_ge_pow; Lra.lra]. Lra.lra.
  - eapply Rle_trans; [apply exp_le_pow; Lra.lra|]. Lra.lra.
Qed.

Lemma landslideScore_at_13_72 (i : Input) :
  (landslideLinear i == 13.72)%Q -> landslideScore i = 5.
Proof.
  intros Hq. unfold landslideScore. rewrite (Qeq_eqR _ _ Hq).
  apply (sigmoid_round 5 _ _ _ 17.5 21)%R; try Lra.lra.
  replace (- (0.085 * (Q2R 13.72 - 48)))%R with (INR 128 * (2.9138 / 128))%R
    by (unfold Q2R; simpl; Lra.lra).
  split.
  - eapply Rle_trans; [|apply exp_ge_pow; Lra.lra]. Lra.lra.
  - eapply Rle_trans; [apply exp_le_pow; Lra.lra|]. Lra.lra.
Qed.

Lemma Qleb_gt (x y : Q) : Qleb x y = false -> (y < x)%Q.
Proof.
  intros Hf. apply Qnot_le_lt. intros Hle. apply Qleb_le in Hle. congruence.
Qed.

(** With a non-negative peak and a non-negative earthquake count, two of
    the eight features always count as present and three sources always
    count: the confidence cannot be below 45 + 10 + 9. *)
Lemma confidence_floor (i : Input) :
  64 <= confidenceOf i \/ (peak i < 0)%Q \/ (quakes i < 0)%Q.
Proof.
  destruct (Qleb 0 (peak i)) eqn:Ep; [|right; left; apply Qleb_gt, Ep].
  destruct (Qleb 0 (quakes i)) eqn:Eq; [|right; right; apply Qleb_gt, Eq].
  left. unfold confidenceOf, completeness, sourceDiversity, featuresAvailable.
  rewrite Ep, Eq.
  destruct (Qltb 0 (r24 i)), (Qltb 0 (r72 i)), (Qltb 0 (r7 i)),
    (bool_decide (is_Some (elevationOf i))), (bool_decide (is_Some (baselineOf i))),
    (bool_decide (is_Some (normalizeReservoirLevel (level_pct (contextOf i)))));
    apply Z.leb_le; vm_compute; reflexivity.
Qed.

(** C9. The empty bundle, and the bundle that spells the same situation
    out with zero rainfall sums and zero earthquakes, both give flood
    score 2, landslide score 5 and confidence 64, with every sub-index 0
    except the neutral anomaly and terrain (50).  Both scores are below
    20, and 64 is the least confidence any bundle with a non-negative
    peak and earthquake count can get. *)
Theorem empty_bundle_minimal :
  calculateAdvancedRisk emptyInput =
    {| flood_score := 2; landslide_score := 5; confidence := 64;
       components :=
         {| flood := Flood.Build_components 0 0 0 0 50 0 0;
            landslide := Landslide.Build_components 0 0 50 0 50 0 0 |} |} /\
  calculateAdvancedRisk zeroInput = calculateAdvancedRisk emptyInput /\
  flood_score (calculateAdvancedRisk emptyInput) <= 20 /\
  landslide_score (calculateAdvancedRisk emptyInput) <= 20 /\
  (forall input : Input,
      64 <= confidence (calculateAdvancedRisk input) \/
      (peak input < 0)%Q \/ (quakes input < 0)%Q).
Proof.
  assert (He : calculateAdvancedRisk emptyInput =
    {| flood_score := 2; landslide_score := 5; confidence := 64;
       components :=
         {| flood := Flood.Build_components 0 0 0 0 50 0 0;
            landslide := Landslide.Build_components 0 0 50 0 50 0 0 |} |}).
  { unfold calculateAdvancedRisk.
    rewrite (floodScore_at_5 emptyInput) by (vm_compute; reflexivity).
    rewrite (landslideScore_at_13 emptyInput) by (vm_compute; reflexivity).
    reflexivity. }
  split; [exact He|]. split.
  - rewrite He. unfold calculateAdvancedRisk.
    rewrite (floodScore_at_5 zeroInput) by (vm_compute; reflexivity).
    rewrite (landslideScore_at_13 zeroInput) by (vm_compute; reflexivity).
    reflexivity.
  - rewrite He. cbn [flood_score landslide_score].
    split; [lia|]. split; [lia|].
    intros input. apply confidence_floor.
Qed.

(** *** Monotonicity in the 24-hour rainfall *)

Lemma Qdiv_le_mono (a b c : Q) : (0 < c)%Q -> (a <= b)%Q -> (a / c <= b / c)%Q.
Proof.
  intros Hc Hab. unfold Qdiv. apply Qmult_le_compat_r; [exact Hab|].
  apply Qlt_le_weak, Qinv_lt_0_compat, Hc.
Qed.

Section Rain24.
Variable i : Input.
Variables a b : Q.
Hypothesis Hab : (a <= b)%Q.

Lemma r24_withRain24 (x : Q) : r24 (withRain24 i x) = x.
Proof. reflexivity. Qed.

(** A local constant that does not read the 24-hour sum is the same on
    both bundles. *)
Ltac unchanged f :=
  change (f (withRain24 i a)) with (f i);
  change (f (withRain24 i b)) with (f i).

Lemma r72_mono : (r72 (withRain24 i a) <= r72 (withRain24 i b))%Q.
Proof.
  unfold r72. rewrite !r24_withRain24. cbn.
  destruct (rain72h i) as [| |n], (precipitation_sum_72h_mm (summaryOf i)) as [| |m];
    cbn; first [exact Hab | apply Qle_refl].
Qed.

Lemma r7_mono : (r7 (withRain24 i a) <= r7 (withRain24 i b))%Q.
Proof.
  unfold r7. cbn.
  destruct (rain7d i) as [| |n], (precipitation_sum_7d_mm (summaryOf i)) as [| |m];
    cbn; first [exact r72_mono | apply Qle_refl].
Qed.

Lemma anomaly_mono : (anomaly (withRain24 i a) <= anomaly (withRain24 i b))%Q.
Proof.
  unfold anomaly. apply clamp_mono.
  assert (Hr : (anomalyRatio (withRain24 i a) <= anomalyRatio (withRain24 i b))%Q).
  { unfold anomalyRatio. rewrite !r24_withRain24.
    unchanged baselineOf.
    destruct (baselineOf i) as [b0|]; [|apply Qle_refl].
    destruct (Qltb 0 b0) eqn:Eb; [|apply Qle_refl].
    apply Qltb_lt in Eb.
    apply Qdiv_le_mono; [exact Eb|].
    apply Qdiv_le_mono; [reflexivity | exact Hab]. }
  Lqa.lra.
Qed.

Lemma floodLinear_mono : (floodLinear (withRain24 i a) <= floodLinear (withRain24 i b))%Q.
Proof.
  unfold floodLinear.
  assert (H1 : (intensityFlood (withRain24 i a) <= intensityFlood (withRain24 i b))%Q).
  { unfold intensityFlood. apply clamp_mono. rewrite !r24_withRain24.
    unchanged peak.
    apply Qplus_le_compat; [|apply Qle_refl].
    apply Qdiv_le_mono; [reflexivity | exact Hab]. }
  assert (H2 : (persistence (withRain24 i a) <= persistence (withRain24 i b))%Q).
  { unfold persistence. apply clamp_mono, Qdiv_le_mono; [reflexivity | apply r72_mono]. }
  assert (H3 : (saturation (withRain24 i a) <= saturation (withRain24 i b))%Q).
  { unfold saturation. apply clamp_mono, Qdiv_le_mono; [reflexivity | apply r7_mono]. }
  pose proof anomaly_mono as H4.
  unchanged reservoirStress.
  unchanged seismic.
  unchanged lowlandFactor.
  Lqa.lra.
Qed.

Lemma landslideLinear_mono :
  (landslideLinear (withRain24 i a) <= landslideLinear (withRain24 i b))%Q.
Proof.
  unfold landslideLinear.
  assert (H1 : (intensityLand (withRain24 i a) <= intensityLand (withRain24 i b))%Q).
  { unfold intensityLand. apply clamp_mono. rewrite !r24_withRain24.
    unchanged peak.
    apply Qplus_le_compat; [|apply Qle_refl].
    apply Qdiv_le_mono; [reflexivity | exact Hab]. }
  assert (H2 : (durationLand (withRain24 i a) <= durationLand (withRain24 i b))%Q).
  { unfold durationLand. apply clamp_mono, Qdiv_le_mono; [reflexivity | apply r72_mono]. }
  pose proof anomaly_mono as H4.
  unchanged terrain.
  unchanged seismicLand.
  unchanged spillSlopeStress.
  unchanged proneStateBoost.
  Lqa.lra.
Qed.
End Rain24.

(** C4. With every other field of the bundle held fixed, a larger
    24-hour rainfall sum gives a flood score and a landslide score that
    are not smaller. *)
Theorem rain24_monotone (i : Input) (a b : Q) :
  (a <= b)%Q ->
  flood_score (calculateAdvancedRisk (withRain24 i a))
    <= flood_score (calculateAdvancedRisk (withRain24 i b)) /\
  landslide_score (calculateAdvancedRisk (withRain24 i a))
    <= landslide_score (calculateAdvancedRisk (withRain24 i b)).
Proof.
  intros Hab. cbn [calculateAdvancedRisk flood_score landslide_score].
  unfold floodScore, landslideScore. split.
  - apply roundR_mono, clampR_mono, sigmoidTo100_mono; [Lra.lra|].
    apply Qle_Rle, floodLinear_mono, Hab.
  - apply roundR_mono, clampR_mono, sigmoidTo100_mono; [Lra.lra|].
    apply Qle_Rle, landslideLinear_mono, Hab.
Qed.

End RiskFormulaFacts.

(** ** The reservoir matcher *)
Section MatcherFacts.
Import JS Matcher.

Lemma jaccardScore_nonneg (a b : string) : (0 <= jaccardScore a b)%Q.
Proof.
  unfold jaccardScore.
  destruct (_ || _); [apply Qle_refl|].
  destruct (_ =? _)%nat eqn:E; [apply Qle_refl|].
  apply Nat.eqb_neq in E.
  apply Qle_shift_div_l.
  - change 0%Q with (inject_Z 0). rewrite <- Zlt_Qlt. lia.
  - rewrite Qmult_0_l. change 0%Q with (inject_Z 0). rewrite <- Zle_Qle. lia.
Qed.

Lemma nameStep_max (res : string) (acc : Q) (nm : string) :
  (nameStep res acc nm == Qmax acc (variantScore_spec res nm))%Q.
Proof.
  unfold nameStep, variantScore_spec, eitherIncludes.
  pose proof (jaccardScore_nonneg nm res) as Hj.
  set (sc := jaccardScore nm res) in *.
  assert (Hb : ((if Qltb acc sc then sc else acc) == Qmax acc sc)%Q).
  { destruct (Qltb acc sc) eqn:E.
    - apply Qltb_lt in E. symmetry. apply Q.max_r, Qlt_le_weak, E.
    - apply Qltb_ge in E. symmetry. apply Q.max_l, E. }
  destruct (_ && _).
  - rewrite Hb. symmetry. apply Q.max_assoc.
  - rewrite Hb. rewrite (Q.max_l sc 0 Hj). reflexivity.
Qed.

Lemma nameSteps_max (res : string) (names : list string) :
  forall acc : Q,
    (0 <= acc)%Q ->
    (fold_left (nameStep res) names acc ==
     Qmax acc (fold_right Qmax 0%Q (map (variantScore_spec res) names)))%Q.
Proof.
  induction names as [|nm names IH]; intros acc Hacc; cbn [fold_left map fold_right].
  - symmetry. apply Q.max_l, Hacc.
  - rewrite IH.
    + rewrite nameStep_max. symmetry. apply Q.max_assoc.
    + rewrite nameStep_max. eapply Qle_trans; [exact Hacc | apply Q.le_max_l].
Qed.

Lemma maxima_nonneg (l : list Q) : (0 <= fold_right Qmax 0%Q l)%Q.
Proof.
  induction l as [|x l IH]; [apply Qle_refl|]. cbn [fold_right].
  eapply Qle_trans; [exact IH | apply Q.le_max_r].
Qed.

(** The loop of [scoreReservoirMatch] computes the name similarity the
    specification describes, and the combined score adds the state bonus,
    which is 0 or 0.2. *)
Lemma bestNameScore_spec (d : Dam) (r : Reservoir) :
  (bestNameScore d r == nameSimilarity_spec d r)%Q /\
  (scoreReservoirMatch d r == nameSimilarity_spec d r + stateBonus d r)%Q /\
  (stateBonus d r = 0%Q \/ stateBonus d r = 0.2%Q).
Proof.
  assert (Hb : (bestNameScore d r == nameSimilarity_spec d r)%Q).
  { unfold bestNameScore, nameSimilarity_spec.
    rewrite nameSteps_max by apply Qle_refl.
    apply Q.max_r, maxima_nonneg. }
  split; [exact Hb|]. split.
  - unfold scoreReservoirMatch. rewrite Hb. reflexivity.
  - unfold stateBonus. destruct (_ && _); [right | left]; reflexivity.
Qed.

(** The loop keeps the first candidate of highest score seen so far,
    among those scoring above the initial 0. *)
Lemma bestStep_fold (d : Dam) (l : list Reservoir) :
  forall acc : option Reservoir * Q,
    let res := fold_left (bestStep d) l acc in
    (snd acc <= snd res)%Q /\
    (forall r, r ∈ l -> (scoreReservoirMatch d r <= snd res)%Q) /\
    (res = acc \/ exists r, r ∈ l /\ res = (Some r, scoreReservoirMatch d r)).
Proof.
  induction l as [|x l IH]; intros acc; cbn [fold_left].
  - cbv zeta. split; [apply Qle_refl|]. split; [|left; reflexivity].
    intros r Hr. inversion Hr.
  - specialize (IH (bestStep d acc x)). cbv zeta in *.
    destruct IH as (Hmono & Hall & Hres).
    assert (Hstep : (snd acc <= snd (bestStep d acc x))%Q /\
                    (scoreReservoirMatch d x <= snd (bestStep d acc x))%Q /\
                    (bestStep d acc x = acc \/
                     bestStep d acc x = (Some x, scoreReservoirMatch d x))).
    { unfold bestStep. destruct (Qltb (snd acc) (scoreReservoirMatch d x)) eqn:E.
      - apply Qltb_lt in E. cbn [snd].
        split; [apply Qlt_le_weak, E|]. split; [apply Qle_refl | right; reflexivity].
      - apply Qltb_ge in E.
        split; [apply Qle_refl|]. split; [exact E | left; reflexivity]. }
    destruct Hstep as (Hs1 & Hs2 & Hs3).
    split; [eapply Qle_trans; eassumption|]. split.
    + intros r Hr. apply elem_of_cons in Hr as [->|Hr]; [|apply Hall, Hr].
      eapply Qle_trans; eassumption.
    + destruct Hres as [Hres|(r & Hr & Hres)].
      * rewrite Hres. destruct Hs3 as [Hs3|Hs3]; [left; exact Hs3|].
        right. exists x. split; [apply elem_of_cons; left; reflexivity | exact Hs3].
      * right. exists r. split; [apply elem_of_cons; right; exact Hr | exact Hres].
Qed.

Lemma stateBonus_cases (d : Dam) (r : Reservoir) :
  (normalizeText (dam_state d) <> ""%string /\
   normalizeText (dam_state d) = normalizeText (state r) -> stateBonus d r = 0.2%Q) /\
  (~ (normalizeText (dam_state d) <> ""%string /\
      normalizeText (dam_state d) = normalizeText (state r)) -> stateBonus d r = 0%Q).
Proof.
  unfold stateBonus.
  destruct (String.eqb_spec (normalizeText (dam_state d)) "") as [Hd|Hd];
    destruct (String.eqb_spec (normalizeText (state r)) "") as [Hr|Hr];
    destruct (String.eqb_spec (normalizeText (dam_state d)) (normalizeText (state r)))
      as [He|He]; cbn [negb andb]; split; intros Hc;
    first [reflexivity | tauto | congruence].
Qed.

Lemma round_within_half (x : Q) : (Qabs (inject_Z (round x) / 100 - x / 100) < 1 # 100)%Q.
Proof.
  unfold round.
  pose proof (Qfloor_le (x + (1 # 2))%Q) as Hlo.
  pose proof (Qlt_floor (x + (1 # 2))%Q) as Hhi.
  rewrite inject_Z_plus in Hhi. change (inject_Z 1) with 1%Q in Hhi.
  set (n := inject_Z (Qfloor (x + (1 # 2))%Q)) in *.
  assert (E : ((n / 100 - x / 100) * 100 == n - x)%Q) by field.
  set (y := (n / 100 - x / 100)%Q) in *.
  apply Qabs_case; intros _; Lqa.lra.
Qed.

(** C5. The combined score of a candidate is the name similarity of the
    specification (the best, over the name variants of the location, of
    the token-set similarity and of 0.9 under containment) plus 0.2 when
    the two region strings are non-empty and equal after normalisation,
    and plus nothing otherwise.  With a positive minimum score (0.45 by
    default), a returned match is a candidate of the list whose combined
    score is the highest of all candidates and is at least the minimum,
    and it carries a [match_score] within a hundredth of that score;
    nothing is returned exactly when every candidate scores below the
    minimum. *)
Theorem matchReservoirToDam_best_above_threshold
    (d : Dam) (reservoirLevels : list Reservoir) (minScore : Q) :
  (0 < minScore)%Q ->
  (forall r : Reservoir,
      (normalizeText (dam_state d) <> ""%string /\
       normalizeText (dam_state d) = normalizeText (state r) ->
       (scoreReservoirMatch d r == nameSimilarity_spec d r + 0.2)%Q) /\
      (~ (normalizeText (dam_state d) <> ""%string /\
          normalizeText (dam_state d) = normalizeText (state r)) ->
       (scoreReservoirMatch d r == nameSimilarity_spec d r)%Q)) /\
  (forall m : Match,
      matchReservoirToDam (Some d) reservoirLevels minScore = Some m ->
      exists r : Reservoir,
        best m = Some r /\
        r ∈ reservoirLevels /\
        (minScore <= scoreReservoirMatch d r)%Q /\
        (forall r', r' ∈ reservoirLevels ->
                    (scoreReservoirMatch d r' <= scoreReservoirMatch d r)%Q) /\
        (Qabs (match_score m - scoreReservoirMatch d r) < 1 # 100)%Q) /\
  (matchReservoirToDam (Some d) reservoirLevels minScore = None <->
   forall r, r ∈ reservoirLevels -> (scoreReservoirMatch d r < minScore)%Q).
Proof.
  intros Hmin. split; [|split].
  - intros r. destruct (bestNameScore_spec d r) as (_ & Hsc & _).
    destruct (stateBonus_cases d r) as [Hyes Hno].
    split; intros Hc; rewrite Hsc.
    + rewrite (Hyes Hc). reflexivity.
    + rewrite (Hno Hc). ring.
  - intros m Hm. unfold matchReservoirToDam in Hm.
    destruct reservoirLevels as [|x l]; [discriminate|].
    pose proof (bestStep_fold d (x :: l) (None, 0%Q)) as Hfold. cbv zeta in Hfold.
    destruct (fold_left (bestStep d) (x :: l) (None, 0%Q)) as [b bestScore].
    cbn [snd] in Hfold. destruct Hfold as (_ & Hall & Hres).
    destruct (Qltb bestScore minScore) eqn:E; [discriminate|].
    apply Qltb_ge in E. injection Hm as <-. cbn [best match_score].
    destruct Hres as [Hres|(r & Hr & Hres)].
    + injection Hres as -> ->. exfalso. apply (Qlt_not_le _ _ Hmin E).
    + injection Hres as -> ->. exists r.
      split; [reflexivity|]. split; [exact Hr|]. split; [exact E|]. split; [exact Hall|].
      pose proof (round_within_half (scoreReservoirMatch d r * 100)) as Hw.
      assert (Hx : (scoreReservoirMatch d r * 100 / 100 == scoreReservoirMatch d r)%Q)
        by (field).
      rewrite Hx in Hw. exact Hw.
  - unfold matchReservoirToDam.
    destruct reservoirLevels as [|x l].
    { split; [intros _ r Hr; inversion Hr | reflexivity]. }
    pose proof (bestStep_fold d (x :: l) (None, 0%Q)) as Hfold. cbv zeta in Hfold.
    destruct (fold_left (bestStep d) (x :: l) (None, 0%Q)) as [b bestScore].
    cbn [snd] in Hfold. destruct Hfold as (_ & Hall & Hres).
    destruct (Qltb bestScore minScore) eqn:E.
    + apply Qltb_lt in E. split; [|reflexivity]. intros _ r Hr.
      eapply Qle_lt_trans; [apply Hall, Hr | exact E].
    + apply Qltb_ge in E. split; [discriminate|]. intros Hlow. exfalso.
      destruct Hres as [Hres|(r & Hr & Hres)].
      * injection Hres as -> ->. apply (Qlt_not_le _ _ Hmin E).
      * injection Hres as -> ->. apply (Qlt_not_le _ _ (Hlow r Hr) E).
Qed.

(** A worked example with the alias table: the first record matches the
    alias "bhakra" exactly and shares the state; the second shares
    nothing and alone gives no match. *)
Example bhakra_example :
  let d := {| dam_name := "Bhakra Nangal Dam"; dam_state := "Himachal Pradesh";
              lat := 31.41; lon := 76.43 |} in
  let r1 := {| name := "Gobind Sagar"; state := "Punjab"; level_pct := Num (Fin 71);
               inflow := Undefined; outflow := Undefined |} in
  let r2 := {| name := "BHAKRA (RL1680)"; state := "himachal pradesh";
               level_pct := Num (Fin 82); inflow := Undefined; outflow := Undefined |} in
  normalizeText "BHAKRA (RL1680)" = "bhakra"%string /\
  (scoreReservoirMatch d r2 == 1.2)%Q /\
  (scoreReservoirMatch d r1 == 0)%Q /\
  matchReservoirToDam (Some d) [r1; r2] minScore_default =
    Some {| best := Some r2; match_score := 1.20 |} /\
  matchReservoirToDam (Some d) [r1] minScore_default = None.
Proof. vm_compute. repeat split. Qed.

End MatcherFacts.

Lemma matchReservoirToDam_best_above_threshold_witness :
  exists (m : Matcher.Match) (r : Matcher.Reservoir),
    Matcher.matchReservoirToDam (Some Samples.tehri) [Samples.tehriRecord]
      Matcher.minScore_default = Some m /\
    Matcher.best m = Some r /\
    r ∈ [Samples.tehriRecord] /\
    (Matcher.minScore_default <= Matcher.scoreReservoirMatch Samples.tehri r)%Q /\
    (forall r', r' ∈ [Samples.tehriRecord] ->
                (Matcher.scoreReservoirMatch Samples.tehri r'
                 <= Matcher.scoreReservoirMatch Samples.tehri r)%Q) /\
    (Qabs (Matcher.match_score m - Matcher.scoreReservoirMatch Samples.tehri r) < 1 # 100)%Q.
Proof.
  assert (Hmin : (0 < Matcher.minScore_default)%Q) by (vm_compute; reflexivity).
  destruct (matchReservoirToDam_best_above_threshold
              Samples.tehri [Samples.tehriRecord] Matcher.minScore_default Hmin)
    as (_ & Hsome & _).
  destruct (Matcher.matchReservoirToDam (Some Samples.tehri) [Samples.tehriRecord]
              Matcher.minScore_default) as [m|] eqn:E; [|vm_compute in E; discriminate E].
  destruct (Hsome m eq_refl) as (r & Hr).
  exists m, r. split; [reflexivity | exact Hr].
Defined.

(** ** The high-risk zones *)
Section ZoneFacts.
Import Analytics.

Section Sorting.
Context {A : Type} (compare : A -> A -> Z).
Hypothesis compare_flip : forall x y, 0 < compare x y -> compare y x <= 0.
Hypothesis compare_trans :
  forall x y z, compare x y <= 0 -> compare y z <= 0 -> compare x z <= 0.

Lemma insertBy_perm (x : A) (l : list A) : insertBy compare x l ≡ₚ x :: l.
Proof.
  induction l as [|y l IH]; [reflexivity|]. cbn [insertBy].
  destruct (compare x y <=? 0); [reflexivity|].
  rewrite IH. apply perm_swap.
Qed.

Lemma sortBy_perm (l : list A) : sortBy compare l ≡ₚ l.
Proof.
  induction l as [|x l IH]; [reflexivity|]. cbn [sortBy].
  rewrite insertBy_perm, IH. reflexivity.
Qed.

Lemma insertBy_sorted (x : A) (l : list A) :
  StronglySorted (fun a b => compare a b <= 0) l ->
  StronglySorted (fun a b => compare a b <= 0) (insertBy compare x l).
Proof.
  induction l as [|y l IH]; intros Hs; cbn [insertBy].
  - repeat constructor.
  - apply StronglySorted_inv in Hs as [Hs Hy].
    destruct (Z.leb_spec (compare x y) 0) as [Hle|Hgt].
    + constructor; [constructor; assumption|].
      constructor; [exact Hle|].
      eapply Forall_impl; [exact Hy|].
      intros z Hz. cbv beta in *. eapply compare_trans; eassumption.
    + constructor; [apply IH, Hs|].
      rewrite insertBy_perm. constructor; [apply compare_flip, Hgt | exact Hy].
Qed.

Lemma sortBy_sorted (l : list A) :
  StronglySorted (fun a b => compare a b <= 0) (sortBy compare l).
Proof.
  induction l as [|x l IH]; cbn [sortBy]; [constructor | apply insertBy_sorted, IH].
Qed.
End Sorting.

Lemma StronglySorted_lookup_lt {A : Type} (R : A -> A -> Prop) (l : list A) :
  StronglySorted R l ->
  forall (i j : nat) (a b : A),
    (i < j)%nat -> l !! i = Some a -> l !! j = Some b -> R a b.
Proof.
  induction 1 as [|x l Hs IH Hx]; intros i j a b Hij Ha Hb; [discriminate|].
  destruct j as [|j]; [lia|]. cbn in Hb.
  destruct i as [|i]; cbn in Ha.
  - injection Ha as <-. rewrite Forall_forall in Hx.
    apply Hx. eapply list_elem_of_lookup_2, Hb.
  - apply (IH i j); [lia | assumption | assumption].
Qed.

Lemma zoneCompare_flip (x y : Zone) : 0 < zoneCompare x y -> zoneCompare y x <= 0.
Proof.
  unfold zoneCompare.
  destruct (bool_decide (zone_severity x = HIGH)), (bool_decide (zone_severity y = HIGH));
    cbn; lia.
Qed.

Lemma zoneCompare_trans (x y z : Zone) :
  zoneCompare x y <= 0 -> zoneCompare y z <= 0 -> zoneCompare x z <= 0.
Proof.
  unfold zoneCompare.
  destruct (bool_decide (zone_severity x = HIGH)), (bool_decide (zone_severity y = HIGH)),
    (bool_decide (zone_severity z = HIGH)); cbn; lia.
Qed.

Lemma zoneCompare_le (a b : Zone) :
  zoneCompare a b <= 0 ->
  (zone_severity b = HIGH -> zone_severity a = HIGH) /\
  (zone_severity a = zone_severity b ->
   Z.max (flood_risk b) (landslide_risk b) <= Z.max (flood_risk a) (landslide_risk a)).
Proof.
  unfold zoneCompare.
  destruct (bool_decide_reflect (zone_severity a = HIGH)) as [Ha|Ha],
    (bool_decide_reflect (zone_severity b = HIGH)) as [Hb|Hb]; cbn; intros Hle;
    split; intros Hh; try lia; try congruence.
Qed.

Lemma toZone_severity (d : DamResult) :
  (zone_severity (toZone d) = HIGH <->
   flood_risk_level d = HIGH \/ landslide_risk_level d = HIGH) /\
  (zone_severity (toZone d) = MEDIUM <->
   ~ (flood_risk_level d = HIGH \/ landslide_risk_level d = HIGH)).
Proof.
  unfold toZone. cbn [zone_severity].
  destruct (bool_decide_reflect (flood_risk_level d = HIGH)) as [Hf|Hf];
    destruct (bool_decide_reflect (landslide_risk_level d = HIGH)) as [Hl|Hl];
    cbn [orb]; split; split; intros Hx;
    first [reflexivity | discriminate | tauto].
Qed.

Lemma zones_of_filter (damResults : list DamResult) (z : Zone) :
  z ∈ high_risk_zones damResults <->
  exists d : DamResult,
    d ∈ damResults /\ z = toZone d /\
    (flood_risk_level d <> LOW \/ landslide_risk_level d <> LOW).
Proof.
  unfold high_risk_zones. rewrite sortBy_perm.
  rewrite list_elem_of_In, in_map_iff. split.
  - intros (d & <- & Hd). apply list_elem_of_In, list_elem_of_filter in Hd as [Hz Hd].
    exists d. split; [exact Hd|]. split; [reflexivity|].
    unfold isZone in Hz. apply orb_true_iff in Hz as [Hz|Hz];
      apply negb_true_iff, bool_decide_eq_false in Hz; tauto.
  - intros (d & Hd & -> & Hlev). exists d. split; [reflexivity|].
    apply list_elem_of_In, list_elem_of_filter. split; [|exact Hd].
    unfold isZone. apply orb_true_iff.
    destruct Hlev as [Hl|Hl]; [left|right];
      apply negb_true_iff, bool_decide_eq_false; exact Hl.
Qed.

Lemma filter_isZone_length (damResults : list DamResult) :
  length (filter (fun d => isZone d = true) damResults) =
  length (filter (fun d => flood_risk_level d <> LOW \/ landslide_risk_level d <> LOW)
            damResults).
Proof.
  induction damResults as [|d l IH]; [reflexivity|].
  rewrite !filter_cons.
  assert (Hiff : isZone d = true <->
                 flood_risk_level d <> LOW \/ landslide_risk_level d <> LOW).
  { unfold isZone. rewrite orb_true_iff, !negb_true_iff, !bool_decide_eq_false. tauto. }
  destruct (decide (isZone d = true)) as [Hz|Hz];
    destruct (decide (flood_risk_level d <> LOW \/ landslide_risk_level d <> LOW))
      as [Hl|Hl]; cbn [length]; first [rewrite IH; reflexivity | tauto].
Qed.

(** C7. Every entry of [damResults] whose flood or landslide level is not
    LOW appears in [high_risk_zones] under its own name and state, with
    its two scores and its two levels, and with severity HIGH when one of
    its levels is HIGH and MEDIUM otherwise; every zone of the list is
    such an entry, and the list has as many zones as there are such
    entries.  No state average enters the list.  In the list no HIGH zone
    comes after a zone that is not HIGH, and of two zones of the same
    severity the earlier one has the larger (or equal) maximum of its two
    scores. *)
Theorem high_risk_zones_complete_and_ranked (damResults : list DamResult) :
  (forall d : DamResult,
      d ∈ damResults ->
      flood_risk_level d <> LOW \/ landslide_risk_level d <> LOW ->
      exists z : Zone,
        z ∈ high_risk_zones damResults /\
        dam z = name d /\ zone_state z = dam_state d /\
        flood_risk z = flood_risk_score d /\ landslide_risk z = landslide_risk_score d /\
        flood_level z = flood_risk_level d /\ landslide_level z = landslide_risk_level d /\
        (zone_severity z = HIGH <->
         flood_risk_level d = HIGH \/ landslide_risk_level d = HIGH) /\
        (zone_severity z = MEDIUM <->
         ~ (flood_risk_level d = HIGH \/ landslide_risk_level d = HIGH))) /\
  (forall z : Zone,
      z ∈ high_risk_zones damResults ->
      exists d : DamResult,
        d ∈ damResults /\
        (flood_risk_level d <> LOW \/ landslide_risk_level d <> LOW) /\
        dam z = name d /\ zone_state z = dam_state d /\
        flood_risk z = flood_risk_score d /\ landslide_risk z = landslide_risk_score d /\
        flood_level z = flood_risk_level d /\ landslide_level z = landslide_risk_level d /\
        (zone_severity z = HIGH <-> flood_level z = HIGH \/ landslide_level z = HIGH) /\
        (zone_severity z = MEDIUM <-> ~ (flood_level z = HIGH \/ landslide_level z = HIGH))) /\
  length (high_risk_zones damResults) =
    length (filter (fun d => flood_risk_level d <> LOW \/ landslide_risk_level d <> LOW)
              damResults) /\
  (forall (i j : nat) (a b : Zone),
      (i < j)%nat ->
      high_risk_zones damResults !! i = Some a ->
      high_risk_zones damResults !! j = Some b ->
      (zone_severity b = HIGH -> zone_severity a = HIGH) /\
      (zone_severity a = zone_severity b ->
       Z.max (flood_risk b) (landslide_risk b)
         <= Z.max (flood_risk a) (landslide_risk a))).
Proof.
  split; [|split; [|split]].
  - intros d Hd Hlev. exists (toZone d).
    split; [apply zones_of_filter; exists d; auto|].
    destruct (toZone_severity d) as [Hh Hm].
    repeat split; first [reflexivity | apply Hh | apply Hm].
  - intros z Hz. apply zones_of_filter in Hz as (d & Hd & -> & Hlev).
    exists d. split; [exact Hd|]. split; [exact Hlev|].
    destruct (toZone_severity d) as [Hh Hm].
    repeat split; first [reflexivity | apply Hh | apply Hm].
  - unfold high_risk_zones.
    rewrite (Permutation_length (sortBy_perm zoneCompare _)), length_map.
    apply filter_isZone_length.
  - intros i j a b Hij Ha Hb. apply zoneCompare_le.
    apply (StronglySorted_lookup_lt (fun a b => zoneCompare a b <= 0)
             (high_risk_zones damResults)
             (sortBy_sorted zoneCompare zoneCompare_flip zoneCompare_trans _)
             i j a b Hij Ha Hb).
Qed.

(** A hotspot in a state whose averages are LOW is still listed, and a
    HIGH zone with a smaller score still precedes a MEDIUM one. *)
Example hotspot_in_low_state :
  let damResults :=
    [ damResult "Quiet" "Kerala" 5 4; damResult "Alert" "Goa" 20 60;
      damResult "Hotspot" "Kerala" 70 12; damResult "Calm" "Kerala" 6 3 ]%string in
  stateFloodLevel "Kerala" damResults = LOW /\
  stateLandslideLevel "Kerala" damResults = LOW /\
  map dam (high_risk_zones damResults) = ["Hotspot"; "Alert"]%string.
Proof. vm_compute. repeat split. Qed.

End ZoneFacts.

(** ** The top-level assessment *)
Section RiskEngineFacts.
Import JS RiskEngine.

Lemma rejection_degrades
    (ts : string) (dams : list Matcher.Dam) (configLocations : option (list Matcher.Dam))
    (rainfall : fetched (list RainEntry)) (earthquakesF : fetched (list Earthquake))
    (secondFirst : bool) (reservoirs : fetched (list Matcher.Reservoir)) :
  isRejected rainfall || isRejected earthquakesF || isRejected reservoirs = true ->
  exists message,
    (rainfall = Rejected message \/ earthquakesF = Rejected message \/
     reservoirs = Rejected message) /\
    runRiskCheck ts dams configLocations rainfall earthquakesF secondFirst reservoirs
      = degraded ts message.
Proof.
  intros Hrej. unfold runRiskCheck.
  destruct rainfall as [rd|m1], earthquakesF as [eqs|m2]; cbn [promiseAll2].
  - destruct reservoirs as [rl|m3]; [discriminate Hrej|]. eauto.
  - eauto.
  - eauto.
  - destruct secondFirst; eauto.
Qed.

Lemma resolved_succeeds
    (ts : string) (dams : list Matcher.Dam) (configLocations : option (list Matcher.Dam))
    (rainfallData : list RainEntry) (earthquakes : list Earthquake)
    (secondFirst : bool) (reservoirLevels : list Matcher.Reservoir) :
  success (runRiskCheck ts dams configLocations (Resolved rainfallData)
             (Resolved earthquakes) secondFirst (Resolved reservoirLevels)) = true /\
  error (runRiskCheck ts dams configLocations (Resolved rainfallData)
           (Resolved earthquakes) secondFirst (Resolved reservoirLevels)) = None.
Proof. split; reflexivity. Qed.

(** The entry of a location whose request and retry both fail. *)
Lemma fetchLocation_failed (r : OpenMeteo.Response * OpenMeteo.Response) :
  OpenMeteo.bothFailed r ->
  OpenMeteo.fetchLocation r.1 r.2 =
    {| summary := Some OpenMeteo.fallbackSummary; elevation_m := Undefined |}.
Proof.
  destruct r as [[p1 e1|m1] [p2 e2|m2]]; cbn; intros Hf; first [reflexivity | destruct Hf].
Qed.

(** The zero summary of the fallback, with no earthquake and no matched
    reservoir, scores 2 and 5 whatever the location is. *)
Lemma fallback_scores (damOf : option Matcher.Dam) :
  Analytics.floodScore
    (riskCheckInput OpenMeteo.fallbackSummary Undefined damOf 0 None) = 2 /\
  Analytics.landslideScore
    (riskCheckInput OpenMeteo.fallbackSummary Undefined damOf 0 None) = 5.
Proof.
  split.
  - apply floodScore_at_5. vm_compute. reflexivity.
  - set (i := riskCheckInput OpenMeteo.fallbackSummary Undefined damOf 0 None).
    assert (Hl : (Analytics.landslideLinear i == 13)%Q \/
                 (Analytics.landslideLinear i == 13.72)%Q).
    { unfold Analytics.landslideLinear, Analytics.proneStateBoost.
      destruct (bool_decide _); [right | left]; vm_compute; reflexivity. }
    destruct Hl as [Hl|Hl];
      [apply landslideScore_at_13 | apply landslideScore_at_13_72];
      exact Hl.
Qed.

Lemma accumulate_fallback (t : Totals) (dam : option Matcher.Dam) :
  let t' := accumulate [] [] t
              {| summary := Some OpenMeteo.fallbackSummary; elevation_m := Undefined |} dam in
  floodSum t' = floodSum t + 2 /\ landslideSum t' = landslideSum t + 5 /\
  count t' = count t + 1.
Proof.
  cbv zeta. unfold accumulate. cbn [summary elevation_m].
  assert (He : match dam with
               | Some d => eqNear [] (Matcher.lat d) (Matcher.lon d)
               | None => 0
               end = 0) by (destruct dam; reflexivity).
  assert (Hr : match dam with
               | Some d => Matcher.matchReservoirToDam (Some d) [] Matcher.minScore_default
               | None => None
               end = None) by (destruct dam; reflexivity).
  rewrite He, Hr. cbn [floodSum landslideSum count].
  unfold Analytics.calculateAdvancedRisk.
  cbn [Analytics.flood_score Analytics.landslide_score].
  destruct (fallback_scores dam) as [-> ->]. repeat split.
Qed.

Lemma loop_fallback (rainfallData : list RainEntry) :
  Forall (fun e => e = {| summary := Some OpenMeteo.fallbackSummary;
                          elevation_m := Undefined |}) rainfallData ->
  forall (locations : list Matcher.Dam) (t : Totals),
    let t' := loop [] [] rainfallData locations t in
    floodSum t' = floodSum t + 2 * Z.of_nat (length rainfallData) /\
    landslideSum t' = landslideSum t + 5 * Z.of_nat (length rainfallData) /\
    count t' = count t + Z.of_nat (length rainfallData).
Proof.
  induction 1 as [|e rest -> _ IH]; intros locations t; cbv zeta.
  - cbn [loop length]. lia.
  - cbn [loop]. specialize (IH (tail locations)
      (accumulate [] [] t {| summary := Some OpenMeteo.fallbackSummary;
                             elevation_m := Undefined |} (head locations))).
    cbv zeta in IH. destruct IH as (Hf & Hl & Hc).
    destruct (accumulate_fallback t (head locations)) as (Af & Al & Ac).
    rewrite Hf, Hl, Hc, Af, Al, Ac. cbn [length]. lia.
Qed.

Lemma average_exact (v c : Z) : 0 < c -> average (v * c) c = v.
Proof.
  intros Hc. unfold average.
  destruct (Z.eqb_spec c 0) as [->|_]; [lia|].
  rewrite <- (round_inject_Z v) at 2. unfold round. apply Qfloor_comp.
  apply Qplus_inj_r. rewrite inject_Z_mult. field.
  change 0%Q with (inject_Z 0). rewrite inject_Z_injective. lia.
Qed.

(** When every request of every collector fails, the three promises
    still resolve and the assessment is assembled from the fallbacks. *)
Lemma batch_failure_assessment
    (ts : string) (dams : list Matcher.Dam) (configLocations : option (list Matcher.Dam))
    (responses : list (OpenMeteo.Response * OpenMeteo.Response)) (secondFirst : bool) :
  Forall OpenMeteo.bothFailed responses ->
  responses <> [] ->
  let a := runRiskCheck ts dams configLocations (OpenMeteo.fetchRainfall responses)
             (Usgs.fetchRecentEarthquakes None) secondFirst
             (ReservoirCollector.fetchCombinedWaterLevels None None) in
  success a = true /\ error a = None /\
  flood_risk_score a = 2 /\ landslide_risk_score a = 5 /\
  overall_alert_level a = Analytics.LOW /\
  alert_message a = "No significant disaster risk. Continue normal monitoring."%string.
Proof.
  intros Hall Hne. cbv zeta.
  unfold OpenMeteo.fetchRainfall, Usgs.fetchRecentEarthquakes,
    ReservoirCollector.fetchCombinedWaterLevels, runRiskCheck.
  cbn [promiseAll2 default from_option filter ReservoirCollector.combine app fold_left].
  change (filter _ []) with (@nil Earthquake).
  set (rainfallData := map _ responses).
  assert (Hfb : Forall (fun e => e = {| summary := Some OpenMeteo.fallbackSummary;
                                        elevation_m := Undefined |}) rainfallData).
  { unfold rainfallData. apply Forall_map. eapply Forall_impl; [exact Hall|].
    intros r Hr. apply fetchLocation_failed, Hr. }
  pose proof (loop_fallback rainfallData Hfb (locationsOf dams configLocations) zeroTotals)
    as Hloop.
  cbv zeta in Hloop. destruct Hloop as (Hf & Hl & Hc).
  cbn [floodSum landslideSum count zeroTotals] in Hf, Hl, Hc.
  assert (Hn : 0 < Z.of_nat (length rainfallData)).
  { unfold rainfallData. rewrite length_map. destruct responses; [congruence | cbn; lia]. }
  unfold assemble.
  cbn [success error flood_risk_score landslide_risk_score overall_alert_level alert_message].
  rewrite Hf, Hl, Hc.
  replace (0 + 2 * Z.of_nat (length rainfallData))
    with (2 * Z.of_nat (length rainfallData)) by lia.
  replace (0 + 5 * Z.of_nat (length rainfallData))
    with (5 * Z.of_nat (length rainfallData)) by lia.
  replace (0 + Z.of_nat (length rainfallData)) with (Z.of_nat (length rainfallData)) by lia.
  rewrite !average_exact by exact Hn.
  repeat split.
Qed.


Lemma riskCheckInput_anomaly (s : Analytics.RainSummary) (elev : value)
    (damOf : option Matcher.Dam) (eq : Z) (reservoir : option Matcher.Match) :
  Analytics.anomaly (riskCheckInput s elev damOf eq reservoir) = 50%Q.
Proof. reflexivity. Qed.

Lemma accumulate_invariant significantEq reservoirLevels t rain dam :
  anomalyInvariant t ->
  anomalyInvariant (accumulate significantEq reservoirLevels t rain dam).
Proof.
  intros (Hf & Hl & Hc). unfold accumulate.
  destruct (summary rain) as [s|]; [|repeat split; assumption].
  unfold anomalyInvariant. cbn [floodTotals landslideTotals count].
  unfold addFlood, addLandslide, Analytics.calculateAdvancedRisk.
  cbn [Analytics.components Analytics.flood Analytics.landslide
       Analytics.Flood.anomaly Analytics.Landslide.anomaly
       Analytics.floodComponents Analytics.landslideComponents].
  rewrite riskCheckInput_anomaly, Hf, Hl.
  change (round 50) with 50. lia.
Qed.

Lemma loop_invariant significantEq reservoirLevels rainfallData :
  forall locations t,
    anomalyInvariant t ->
    anomalyInvariant (loop significantEq reservoirLevels rainfallData locations t).
Proof.
  induction rainfallData as [|rain rest IH]; intros locations t Ht; [exact Ht|].
  cbn [loop]. apply IH, accumulate_invariant, Ht.
Qed.

Lemma accumulate_count significantEq reservoirLevels t rain dam :
  count (accumulate significantEq reservoirLevels t rain dam) =
    match summary rain with Some _ => count t + 1 | None => count t end.
Proof. unfold accumulate. destruct (summary rain); reflexivity. Qed.

Lemma loop_count_zero significantEq reservoirLevels rainfallData :
  forall locations t,
    0 <= count t ->
    count (loop significantEq reservoirLevels rainfallData locations t) = 0 ->
    Forall (fun rain => summary rain = None) rainfallData /\
    loop significantEq reservoirLevels rainfallData locations t = t.
Proof.
  induction rainfallData as [|rain rest IH]; intros locations t Ht Hz.
  - split; [constructor | reflexivity].
  - cbn [loop] in *.
    pose proof (accumulate_count significantEq reservoirLevels t rain (head locations)) as Hc.
    destruct (IH (tail locations) _ ltac:(rewrite Hc; destruct (summary rain); lia) Hz)
      as [Hall Heq].
    rewrite Heq in Hz. rewrite Hc in Hz.
    destruct (summary rain) as [s|] eqn:Es; [lia|].
    split; [constructor; assumption|].
    rewrite Heq. unfold accumulate. rewrite Es. reflexivity.
Qed.

Lemma average_multiple (c : Z) : 0 < c -> average (50 * c) c = 50.
Proof.
  intros Hc. unfold average.
  destruct (Z.eqb_spec c 0) as [->|_]; [lia|].
  change 50 with (round 50) at 2. unfold round. apply Qfloor_comp.
  apply Qplus_inj_r. rewrite inject_Z_mult. field.
  change 0%Q with (inject_Z 0). rewrite inject_Z_injective. lia.
Qed.

(** C10. Every argument [runRiskCheck] builds for [calculateAdvancedRisk]
    has [baselineAvgDaily: null]; its anomaly sub-index is exactly 50,
    raw and rounded, for flood and for landslide, whatever the rain, the
    elevation, the location, the earthquakes and the reservoir are.  In
    the assessment the averaged anomaly is therefore 50, or 0 when no
    location had a rain summary. *)
Theorem riskCheck_anomaly_neutral :
  (forall (s : Analytics.RainSummary) (elev : value) (damOf : option Matcher.Dam)
          (eq : Z) (reservoir : option Matcher.Match),
      let input := riskCheckInput s elev damOf eq reservoir in
      let r := Analytics.calculateAdvancedRisk input in
      Analytics.baselineAvgDaily input = Null /\
      Analytics.anomaly input = 50%Q /\
      Analytics.Flood.anomaly (Analytics.flood (Analytics.components r)) = 50 /\
      Analytics.Landslide.anomaly (Analytics.landslide (Analytics.components r)) = 50) /\
  (forall (ts : string) (dams : list Matcher.Dam) (configLocations : option (list Matcher.Dam))
          (rainfallData : list RainEntry) (earthquakes : list Earthquake)
          (secondFirst : bool) (reservoirLevels : list Matcher.Reservoir),
      match model_diagnostics
              (runRiskCheck ts dams configLocations (Resolved rainfallData)
                 (Resolved earthquakes) secondFirst (Resolved reservoirLevels)) with
      | Some d =>
          (Analytics.Flood.anomaly (averaged_flood d) = 50 /\
           Analytics.Landslide.anomaly (averaged_landslide d) = 50) \/
          (Forall (fun rain => summary rain = None) rainfallData /\
           Analytics.Flood.anomaly (averaged_flood d) = 0 /\
           Analytics.Landslide.anomaly (averaged_landslide d) = 0)
      | None => False
      end).
Proof.
  split.
  - intros s elev damOf eq reservoir. cbv zeta.
    repeat split; reflexivity.
  - intros ts dams configLocations rainfallData earthquakes secondFirst reservoirLevels.
    unfold runRiskCheck. cbn [promiseAll2]. unfold assemble. cbn [model_diagnostics].
    set (t := loop _ _ _ _ _).
    assert (Hinv : anomalyInvariant t).
    { apply loop_invariant. repeat split; try reflexivity; cbn; lia. }
    destruct Hinv as (Hf & Hl & Hc).
    cbn [averaged_flood averaged_landslide]. unfold averageFlood, averageLandslide.
    cbn [Analytics.Flood.anomaly Analytics.Landslide.anomaly].
    rewrite Hf, Hl.
    destruct (Z.eq_dec (count t) 0) as [Hz|Hnz].
    + right. unfold t in Hz.
      destruct (loop_count_zero _ _ _ _ zeroTotals ltac:(cbn; lia) Hz) as [Hall _].
      split; [exact Hall|].
      fold t in Hz. rewrite Hz. split; reflexivity.
    + left. split; apply average_multiple; lia.
Qed.

End RiskEngineFacts.


(** ** The trend tracker and the escalation gate *)
Section NowcastFacts.
Import Nowcast.
Context `{Countable K}.

Lemma slice_from_neg_length {A : Type} (n : Z) (l : list A) :
  0 < n -> (Z.of_nat (length (slice_from (- n) l)) <= n)%Z.
Proof.
  intros Hn. unfold slice_from.
  destruct (Z.ltb_spec (- n) 0) as [_|Hc]; [|lia].
  rewrite length_drop. lia.
Qed.

Lemma slice_from_suffix {A : Type} (n : Z) (l : list A) :
  exists evicted, l = evicted ++ slice_from n l.
Proof.
  unfold slice_from. eexists. symmetry. apply take_drop.
Qed.

Lemma slice_from_full {A : Type} (x : A) (l : list A) :
  length l = 8%nat ->
  slice_from (- 8) (l ++ [x]) = tail l ++ [x].
Proof.
  intros Hl. unfold slice_from. rewrite length_app, Hl. simpl.
  destruct l as [|y l]; [discriminate|]. reflexivity.
Qed.

Lemma slice_from_short {A : Type} (l : list A) :
  (length l <= 8)%nat -> slice_from (- 8) l = l.
Proof.
  intros Hl. unfold slice_from.
  replace (Z.to_nat _) with 0%nat; [reflexivity|].
  simpl. lia.
Qed.

Lemma updateHistory_next (store : gmap K (list TrendPoint)) k sc now :
  updateHistory store k sc now maxPoints_default =
    (<[k := slice_from (- 8) (default [] (store !! k) ++ [{| score := sc; ts := now |}])]> store,
     slice_from (- 8) (default [] (store !! k) ++ [{| score := sc; ts := now |}])).
Proof. reflexivity. Qed.

Lemma appends_bounded (ops : list (K * Z * Z)) :
  forall store : gmap K (list TrendPoint),
    (forall k, (length (default [] (store !! k)) <= 8)%nat) ->
    forall k, (length (default [] (appends store ops !! k)) <= 8)%nat.
Proof.
  induction ops as [|[[k0 sc] now] ops IH]; intros store Hst k; [apply Hst|].
  simpl. apply IH. clear k. intros k.
  destruct (decide (k0 = k)) as [->|Hne].
  - rewrite lookup_insert_eq.
    pose proof (slice_from_neg_length 8
      (default [] (store !! k) ++ [{| score := sc; ts := now |}]) eq_refl) as Hb.
    unfold maxPoints_default. simpl default. unfold id. lia.
  - rewrite lookup_insert_ne by done. apply Hst.
Qed.

Example consecutiveRising_examples :
  map (fun scores => consecutiveRising (map (fun sc => {| score := sc; ts := 0 |}) scores))
      [ []; [90]; [40; 55; 70]; [70; 55; 60]; [10; 20; 20; 30; 40]; [50; 40] ]
    = [0; 0; 2; 1; 2; 0].
Proof. reflexivity. Qed.

(** C6. Whatever sequence of trend points is appended, for whatever
    keys, starting from the empty store, no key ever holds more than 8
    points; and one append stores, under the key, the last
    [min 8 (n + 1)] points of the old history followed by the new point:
    what is dropped is a prefix, the oldest points. *)
Theorem trend_history_fifo_bound :
  (forall (ops : list (K * Z * Z)) (k : K),
      (length (default [] (appends scoreHistory_init ops !! k)) <= 8)%nat) /\
  (forall (store : gmap K (list TrendPoint)) (k : K) (sc now : Z),
      let existing := default [] (store !! k) in
      let point := {| score := sc; ts := now |} in
      let next := snd (updateHistory store k sc now maxPoints_default) in
      fst (updateHistory store k sc now maxPoints_default) !! k = Some next /\
      length next = Nat.min 8 (length existing + 1) /\
      next = drop (length existing + 1 - 8) (existing ++ [point])).
Proof.
  split.
  - intros ops k. apply appends_bounded. intros k'.
    unfold scoreHistory_init. rewrite lookup_empty. simpl. lia.
  - intros store k sc now. cbv zeta. rewrite updateHistory_next. simpl fst. simpl snd.
    split; [apply lookup_insert_eq|].
    set (l := default [] (store !! k) ++ [{| score := sc; ts := now |}]).
    assert (Hl : length l = (length (default [] (store !! k)) + 1)%nat)
      by (unfold l; rewrite length_app; reflexivity).
    unfold slice_from. rewrite <- Hl.
    replace (Z.to_nat _) with (length l - 8)%nat.
    + split; [rewrite length_drop; lia | reflexivity].
    + destruct (Z.ltb_spec (- 8) 0); lia.
Qed.

(** A first reading for a location has no streak at all, however high
    it is. *)
Lemma first_sample_never_escalates
    (c : NowcastCfg) (store : gmap K (list TrendPoint)) (k : K) (overall1h now : Z) :
  store !! k = None ->
  rising_out (snd (escalate c store k overall1h now)) = 0 /\
  emergency_triggered (snd (escalate c store k overall1h now)) = false /\
  (0 < risingChecks c -> warning_triggered (snd (escalate c store k overall1h now)) = false).
Proof.
  intros Hk. unfold escalate. rewrite updateHistory_next, Hk.
  cbn [snd rising_out emergency_triggered warning_triggered].
  change (consecutiveRising _) with 0.
  split; [reflexivity|]. split.
  - apply andb_false_iff. right. apply Z.leb_gt. lia.
  - intros Hc. apply andb_false_iff. right. apply Z.leb_gt. lia.
Qed.

(** The third of three rising runs, by the code: two rising comparisons. *)
Lemma three_runs_streak (c : NowcastCfg) (store : gmap K (list TrendPoint)) (k : K)
    (t1 t2 t3 : Z) :
  store !! k = None ->
  map rising_out (snd (runs c store k [(40, t1); (55, t2); (70, t3)])) = [0; 1; 2].
Proof.
  intros Hk. unfold runs, escalate. rewrite !updateHistory_next.
  rewrite Hk. simpl. rewrite !lookup_insert_eq. reflexivity.
Qed.

(** C1, as the code has it. With [rising_checks = 3] and
    [warning_threshold = 60], runs scoring 40, 55, 70 on an empty history
    reach a streak of 2 on the third run, which leaves
    [warning_triggered] false in all three; a fourth run with a higher
    score reaches a streak of 3 and sets it. *)
Theorem warning_after_three_rising_comparisons
    (e : option Z) (store : gmap K (list TrendPoint)) (k : K)
    (t1 t2 t3 t4 s4 : Z) :
  let c := {| warning_threshold := Some 60; emergency_threshold := e;
              rising_checks := Some 3 |} in
  store !! k = None ->
  70 < s4 ->
  map (fun r => (rising_out r, warning_triggered r))
      (snd (runs c store k [(40, t1); (55, t2); (70, t3)]))
    = [(0, false); (1, false); (2, false)] /\
  map (fun r => (rising_out r, warning_triggered r))
      (snd (runs c store k [(40, t1); (55, t2); (70, t3); (s4, t4)]))
    = [(0, false); (1, false); (2, false); (3, true)].
Proof.
  intros c Hk Hs. unfold runs, escalate. rewrite !updateHistory_next.
  rewrite Hk. simpl. rewrite !lookup_insert_eq. simpl.
  split; [reflexivity|].
  unfold consecutiveRising, warningThreshold, risingChecks. simpl.
  destruct (Z.ltb_spec 70 s4) as [_|]; [|lia].
  destruct (Z.leb_spec 60 s4) as [_|]; [|lia].
  reflexivity.
Qed.

End NowcastFacts.

(** C1 as stated fails: on the third run the streak is 2, below
    [rising_checks = 3]. *)
Lemma warning_not_set_on_third_run :
  map Nowcast.warning_triggered
      (snd (Nowcast.runs
              {| Nowcast.warning_threshold := Some 60;
                 Nowcast.emergency_threshold := None;
                 Nowcast.rising_checks := Some 3 |}
              (Nowcast.scoreHistory_init (K := string)) "dam-1"%string
              [(40, 1000); (55, 2000); (70, 3000)]))
    = [false; false; false].
Proof. vm_compute. reflexivity. Qed.

(** C2 as stated fails: the location holds the readings 1 and 2, so its
    streak is 1, below [rising_checks - 1 = 2]; the single reading 75, the
    only one at or above any threshold, then sets the emergency flag. *)
Lemma single_high_reading_escalates :
  map (fun r => (Nowcast.overall_score_1h r, Nowcast.rising_out r,
                 Nowcast.emergency_triggered r))
      (snd (Nowcast.runs Nowcast.defaultCfg
              (Nowcast.scoreHistory_init (K := string)) "dam-1"%string
              [(1, 1000); (2, 2000); (75, 3000)]))
    = [(1, 0, false); (2, 1, false); (75, 2, true)].
Proof. vm_compute. reflexivity. Qed.

Lemma warning_after_three_rising_comparisons_witness :
  map (fun r => (Nowcast.rising_out r, Nowcast.warning_triggered r))
      (snd (Nowcast.runs
              {| Nowcast.warning_threshold := Some 60;
                 Nowcast.emergency_threshold := None;
                 Nowcast.rising_checks := Some 3 |}
              (∅ : gmap string (list Nowcast.TrendPoint)) "dam-1"%string
              [(40, 1000); (55, 2000); (70, 3000); (85, 4000)]))
    = [(0, false); (1, false); (2, false); (3, true)].
Proof.
  apply (warning_after_three_rising_comparisons None
           (∅ : gmap string (list Nowcast.TrendPoint)) "dam-1"%string
           1000 2000 3000 4000 85).
  - apply lookup_empty.
  - lia.
Defined.

Lemma rain24_monotone_witness :
  Analytics.flood_score
    (Analytics.calculateAdvancedRisk (Analytics.withRain24 Analytics.emptyInput 0))
    <= Analytics.flood_score
         (Analytics.calculateAdvancedRisk (Analytics.withRain24 Analytics.emptyInput 10)) /\
  Analytics.landslide_score
    (Analytics.calculateAdvancedRisk (Analytics.withRain24 Analytics.emptyInput 0))
    <= Analytics.landslide_score
         (Analytics.calculateAdvancedRisk (Analytics.withRain24 Analytics.emptyInput 10)).
Proof.
  apply (rain24_monotone Analytics.emptyInput 0 10).
  unfold Qle. simpl. lia.
Defined.


(** * Further properties of the code *)

(** ** The trend tracker *)
Section TrendFacts.
Import Nowcast.
Context `{Countable K}.

Lemma risingLoop_acc (h : list TrendPoint) (i : nat) :
  forall acc, risingLoop h i acc = acc + risingLoop h i 0.
Proof.
  induction i as [|j IH]; intros acc; cbn [risingLoop]; [lia|].
  destruct (h !! S j) as [cur|]; [|lia].
  destruct (h !! j) as [prev|]; [|lia].
  destruct (score prev <? score cur); [|lia].
  rewrite (IH (acc + 1)), (IH (0 + 1)). lia.
Qed.

Lemma risingLoop_range (h : list TrendPoint) (i : nat) :
  0 <= risingLoop h i 0 <= Z.of_nat i.
Proof.
  induction i as [|j IH]; cbn [risingLoop]; [lia|].
  destruct (h !! S j) as [cur|]; [|lia].
  destruct (h !! j) as [prev|]; [|lia].
  destruct (score prev <? score cur); [|lia].
  rewrite risingLoop_acc. lia.
Qed.

Lemma risingLoop_prefix (h t : list TrendPoint) (i : nat) :
  forall acc, (i < length h)%nat -> risingLoop (h ++ t) i acc = risingLoop h i acc.
Proof.
  induction i as [|j IH]; intros acc Hi; cbn [risingLoop]; [reflexivity|].
  rewrite !lookup_app_l by lia.
  destruct (h !! S j) as [cur|]; [|reflexivity].
  destruct (h !! j) as [prev|]; [|reflexivity].
  destruct (score prev <? score cur); [|reflexivity].
  apply IH. lia.
Qed.

Lemma consecutiveRising_range (h : list TrendPoint) :
  0 <= consecutiveRising h <= Z.of_nat (length h - 1).
Proof.
  unfold consecutiveRising. destruct (length h <? 2)%nat; [lia|].
  apply risingLoop_range.
Qed.

(** The count as a recursion on the newest point: one more than the count
    without it when it rises above its predecessor, 0 otherwise. *)
Lemma consecutiveRising_snoc (l : list TrendPoint) (a b : TrendPoint) :
  consecutiveRising (l ++ [a; b]) =
    if score a <? score b then 1 + consecutiveRising (l ++ [a]) else 0.
Proof.
  unfold consecutiveRising. rewrite !length_app. cbn [length].
  replace (length l + 2 <? 2)%nat with false by (symmetry; apply Nat.ltb_ge; lia).
  replace (length l + 2 - 1)%nat with (S (length l)) by lia.
  replace (length l + 1 - 1)%nat with (length l) by lia.
  cbn [risingLoop].
  replace ((l ++ [a; b]) !! S (length l)) with (Some b)
    by (symmetry; change (l ++ [a; b]) with (l ++ [a] ++ [b]); rewrite app_assoc;
        apply (list_lookup_middle (l ++ [a]) [] b (S (length l)));
        rewrite length_app; cbn; lia).
  replace ((l ++ [a; b]) !! length l) with (Some a)
    by (symmetry; apply (list_lookup_middle l [b] a (length l)); reflexivity).
  destruct (score a <? score b); [|reflexivity].
  rewrite risingLoop_acc. change (l ++ [a; b]) with (l ++ [a] ++ [b]).
  rewrite app_assoc, risingLoop_prefix by (rewrite length_app; cbn; lia).
  destruct l as [|x l]; [reflexivity|].
  replace (length (x :: l) + 1 <? 2)%nat with false
    by (symmetry; apply Nat.ltb_ge; cbn; lia).
  lia.
Qed.

Lemma slice_from_keeps_last_two {A : Type} (l : list A) (a b : A) :
  exists l', slice_from (- 8) (l ++ [a; b]) = l' ++ [a; b].
Proof.
  unfold slice_from. rewrite length_app. cbn [length].
  destruct (Z.ltb_spec (- 8) 0) as [_|]; [|lia].
  set (d := Z.to_nat _).
  assert (Hd : (d <= length l)%nat) by (unfold d; lia).
  exists (drop d l). rewrite drop_app_le by exact Hd. reflexivity.
Qed.

Lemma slice_from_absorb {A : Type} (l t : list A) :
  slice_from (- 8) (slice_from (- 8) l ++ t) = slice_from (- 8) (l ++ t).
Proof.
  unfold slice_from. destruct (Z.ltb_spec (- 8) 0) as [_|]; [|lia].
  rewrite !length_app, !length_drop.
  set (d := Z.to_nat (Z.max (Z.of_nat (length l) + - 8) 0)).
  assert (Hd : d = (length l - 8)%nat) by (unfold d; lia).
  replace (Z.to_nat (Z.max (Z.of_nat (length l - d + length t) + - 8) 0))
    with (length l - d + length t - 8)%nat by lia.
  replace (Z.to_nat (Z.max (Z.of_nat (length l + length t) + - 8) 0))
    with (length l + length t - 8)%nat by lia.
  destruct (Nat.le_gt_cases (length l) 8) as [Hle|Hgt].
  - replace d with 0%nat by lia. rewrite drop_0.
    replace (length l - 0)%nat with (length l) by lia. reflexivity.
  - replace (length l - d + length t - 8)%nat with (length t) by lia.
    replace (length l + length t - 8)%nat with (d + length t)%nat by lia.
    rewrite <- drop_drop.
    rewrite (drop_app_le l t d) by lia. reflexivity.
Qed.

Lemma slice_from_keeps_last_three {A : Type} (l : list A) (a b c : A) :
  exists l', slice_from (- 8) (l ++ [a; b; c]) = l' ++ [a; b; c].
Proof.
  unfold slice_from. rewrite length_app. cbn [length].
  destruct (Z.ltb_spec (- 8) 0) as [_|]; [|lia].
  set (d := Z.to_nat _).
  assert (Hd : (d <= length l)%nat) by (unfold d; lia).
  exists (drop d l). rewrite drop_app_le by exact Hd. reflexivity.
Qed.

(** The streak after an append, read off the stored history: it reaches 2
    exactly when the two stored readings before the new one exist and
    each reading is above the one before it. *)
Lemma streak_of_two (existing : list TrendPoint) (point : TrendPoint) :
  2 <= consecutiveRising (slice_from (- 8) (existing ++ [point])) <->
  exists (older : list TrendPoint) (a b : TrendPoint),
    existing = older ++ [a; b] /\ score a < score b /\ score b < score point.
Proof.
  destruct existing as [|b older] using rev_ind.
  { split.
    - intros Hs. exfalso. change (consecutiveRising _) with 0 in Hs. lia.
    - intros (older & a & b & E & _). destruct older; discriminate E. }
  clear IHolder. destruct older as [|a older] using rev_ind.
  { split.
    - intros Hs. exfalso. revert Hs. cbn [app].
      rewrite slice_from_short by (cbn; lia). unfold consecutiveRising. cbn.
      destruct (score b <? score point); lia.
    - intros (older & a & b' & E & _).
      apply (f_equal (@length TrendPoint)) in E. rewrite !length_app in E.
      cbn [length] in E. lia. }
  clear IHolder. rewrite <- !app_assoc. cbn [app].
  destruct (slice_from_keeps_last_three older a b point) as [l' ->].
  change (l' ++ [a; b; point]) with (l' ++ [a] ++ [b; point]).
  rewrite app_assoc, consecutiveRising_snoc, <- app_assoc. cbn [app].
  rewrite consecutiveRising_snoc.
  pose proof (consecutiveRising_range (l' ++ [a])) as [Hr _].
  split.
  - intros Hs. exists older, a, b. split; [reflexivity|].
    destruct (Z.ltb_spec (score b) (score point)); [|lia].
    destruct (Z.ltb_spec (score a) (score b)); [|lia]. lia.
  - intros (older' & a' & b' & E & Hab & Hbp).
    change (older ++ [a; b]) with (older ++ [a] ++ [b]) in E.
    change (older' ++ [a'; b']) with (older' ++ [a'] ++ [b']) in E.
    rewrite !app_assoc in E. apply app_inj_tail in E as [E <-].
    apply app_inj_tail in E as [_ <-].
    destruct (Z.ltb_spec (score b) (score point)); [|lia].
    destruct (Z.ltb_spec (score a) (score b)); [|lia]. lia.
Qed.

(** C2, as the code has it.  Under the default configuration the
    emergency flag is set exactly when the reading is at or above 75 and
    the streak counted after the reading is appended is at least
    [rising_checks - 1 = 2]; and that streak is at least 2 exactly when the
    location already holds two readings and each of the last three
    readings, the new one included, is above the one before it.  So a
    reading whose streak is below 2 never sets the flag, however high it
    is; the gate reads the direction of the last two comparisons, not the
    height of the earlier readings. *)
Theorem emergency_needs_two_rising_comparisons
    (store : gmap K (list TrendPoint)) (k : K) (overall1h now : Z) :
  let e := snd (escalate defaultCfg store k overall1h now) in
  (emergency_triggered e = true <->
   emergencyThreshold defaultCfg <= overall1h /\
   risingChecks defaultCfg - 1 <= rising_out e) /\
  (rising_out e < risingChecks defaultCfg - 1 -> emergency_triggered e = false) /\
  (risingChecks defaultCfg - 1 <= rising_out e <->
   exists (older : list TrendPoint) (a b : TrendPoint),
     store !! k = Some (older ++ [a; b]) /\
     score a < score b /\ score b < overall1h).
Proof.
  cbv zeta. unfold escalate, updateHistory.
  cbn [snd emergency_triggered rising_out].
  change (risingChecks defaultCfg - 1) with 2.
  change (Z.max 1 2) with 2.
  unfold maxPoints_default. change (Z.opp 8) with (Zneg 8).
  set (point := {| score := overall1h; ts := now |}).
  set (rising := consecutiveRising _).
  split; [|split].
  - rewrite andb_true_iff, !Z.leb_le. reflexivity.
  - intros Hlt. apply andb_false_iff. right. apply Z.leb_gt. exact Hlt.
  - unfold rising. rewrite (streak_of_two (default [] (store !! k)) point).
    change (score point) with overall1h.
    split; intros (older & a & b & E & Hab & Hbp); exists older, a, b;
      (split; [|split; assumption]).
    + destruct (store !! k) as [l|]; cbn in E; [rewrite E; reflexivity|].
      destruct older; discriminate E.
    + rewrite E. reflexivity.
Qed.

(** X1. The streak counted after an append never exceeds 7, because the
    history keeps 8 points; a configuration that asks for more than 7
    rising checks can therefore never raise a warning. *)
Theorem streak_capped_by_window
    (c : NowcastCfg) (store : gmap K (list TrendPoint)) (k : K) (overall1h now : Z) :
  7 < risingChecks c ->
  0 <= rising_out (snd (escalate c store k overall1h now)) <= 7 /\
  warning_triggered (snd (escalate c store k overall1h now)) = false.
Proof.
  intros Hc. unfold escalate.
  destruct (updateHistory store k overall1h now maxPoints_default) as [store' history] eqn:E.
  cbn [snd rising_out warning_triggered].
  assert (Hlen : (length history <= 8)%nat).
  { unfold updateHistory in E. injection E as _ <-.
    pose proof (slice_from_neg_length 8
      (default [] (store !! k) ++ [{| score := overall1h; ts := now |}]) eq_refl).
    unfold maxPoints_default. lia. }
  pose proof (consecutiveRising_range history) as Hr.
  split; [lia|].
  apply andb_false_iff. right. apply Z.leb_gt. lia.
Qed.

(** X2. Whatever the configuration, a reading that is not above the
    previous reading of the same location has streak 0 and cannot set the
    emergency flag, however high it is. *)
Theorem no_rise_no_emergency
    (c : NowcastCfg) (store : gmap K (list TrendPoint)) (k : K)
    (older : list TrendPoint) (prev : TrendPoint) (overall1h now : Z) :
  store !! k = Some (older ++ [prev]) ->
  overall1h <= score prev ->
  rising_out (snd (escalate c store k overall1h now)) = 0 /\
  emergency_triggered (snd (escalate c store k overall1h now)) = false.
Proof.
  intros Hk Hle. unfold escalate, updateHistory. rewrite Hk.
  cbn [default from_option snd rising_out emergency_triggered].
  cbv [Datatypes.id]. unfold maxPoints_default. change (Z.opp 8) with (Zneg 8).
  rewrite <- app_assoc. cbn [app].
  destruct (slice_from_keeps_last_two older prev {| score := overall1h; ts := now |})
    as [l' ->].
  rewrite consecutiveRising_snoc. cbn [score].
  destruct (Z.ltb_spec (score prev) overall1h) as [Hlt|_]; [lia|].
  split; [reflexivity|].
  apply andb_false_iff. right. apply Z.leb_gt. lia.
Qed.

(** X3. On a history in which every point is above the one before it,
    the streak is the number of points minus one. *)
Theorem rising_run_streak (h : list TrendPoint) :
  (forall (i : nat) (a b : TrendPoint),
      h !! i = Some a -> h !! S i = Some b -> score a < score b) ->
  consecutiveRising h = Z.of_nat (length h - 1).
Proof.
  induction h as [|b h IH] using rev_ind; intros Hall; [reflexivity|].
  destruct h as [|a h] using rev_ind; [reflexivity|]. clear IHh.
  rewrite <- app_assoc. cbn [app]. rewrite consecutiveRising_snoc.
  assert (Hab : score a < score b).
  { apply (Hall (length h)).
    - rewrite <- app_assoc. cbn [app].
      apply (list_lookup_middle h [b] a (length h)). reflexivity.
    - rewrite lookup_app_r by (rewrite length_app; cbn; lia).
      rewrite length_app. cbn [length].
      replace (S (length h) - (length h + 1))%nat with 0%nat by lia. reflexivity. }
  destruct (Z.ltb_spec (score a) (score b)) as [_|]; [|lia].
  rewrite IH.
  - rewrite !length_app. cbn [length]. lia.
  - intros i x y Hx Hy. apply (Hall i).
    + rewrite lookup_app_l; [exact Hx|]. apply lookup_lt_Some in Hx. exact Hx.
    + rewrite lookup_app_l; [exact Hy|]. apply lookup_lt_Some in Hy. exact Hy.
Qed.

Lemma pointsFor_cons (k k0 : K) (sc now : Z) (ops : list (K * Z * Z)) :
  pointsFor k ((k0, sc, now) :: ops) =
    if decide (k0 = k) then {| score := sc; ts := now |} :: pointsFor k ops
    else pointsFor k ops.
Proof.
  unfold pointsFor. cbn. destruct (decide (k0 = k)); reflexivity.
Qed.

Lemma appends_history (ops : list (K * Z * Z)) (k : K) :
  forall store : gmap K (list TrendPoint),
    default [] (appends store ops !! k) =
      match pointsFor k ops with
      | [] => default [] (store !! k)
      | _ => slice_from (- 8) (default [] (store !! k) ++ pointsFor k ops)
      end.
Proof.
  induction ops as [|[[k0 sc] now] ops IH]; intros store; [reflexivity|].
  cbn [appends]. rewrite IH, pointsFor_cons. unfold updateHistory. cbn [fst].
  destruct (decide (k0 = k)) as [->|Hne].
  - rewrite lookup_insert_eq. cbn [default from_option]. cbv [Datatypes.id].
    unfold maxPoints_default. change (Z.opp 8) with (Zneg 8).
    destruct (pointsFor k ops) as [|pt pts]; [reflexivity|].
    rewrite slice_from_absorb, <- app_assoc. reflexivity.
  - rewrite lookup_insert_ne by done. reflexivity.
Qed.

(** X4. After any sequence of appends from the empty store, the history
    of a key is exactly the last 8 of the points appended under that key,
    in the order they were appended; appends to other keys do not
    disturb it. *)
Theorem history_is_last_eight (ops : list (K * Z * Z)) (k : K) :
  default [] (appends scoreHistory_init ops !! k) = slice_from (- 8) (pointsFor k ops).
Proof.
  rewrite appends_history. unfold scoreHistory_init. rewrite lookup_empty.
  destruct (pointsFor k ops); reflexivity.
Qed.

End TrendFacts.

Lemma streak_capped_by_window_witness :
  0 <= Nowcast.rising_out
         (snd (Nowcast.escalate
                 {| Nowcast.warning_threshold := None; Nowcast.emergency_threshold := None;
                    Nowcast.rising_checks := Some 8 |}
                 (∅ : gmap string (list Nowcast.TrendPoint)) "dam-1"%string 99 1000)) <= 7 /\
  Nowcast.warning_triggered
    (snd (Nowcast.escalate
            {| Nowcast.warning_threshold := None; Nowcast.emergency_threshold := None;
               Nowcast.rising_checks := Some 8 |}
            (∅ : gmap string (list Nowcast.TrendPoint)) "dam-1"%string 99 1000)) = false.
Proof.
  apply (streak_capped_by_window
           {| Nowcast.warning_threshold := None; Nowcast.emergency_threshold := None;
              Nowcast.rising_checks := Some 8 |}
           (∅ : gmap string (list Nowcast.TrendPoint)) "dam-1"%string 99 1000).
  vm_compute. reflexivity.
Defined.

Lemma no_rise_no_emergency_witness :
  Nowcast.rising_out
    (snd (Nowcast.escalate Nowcast.defaultCfg
            ({[ "dam-1"%string := [] ++ [{| Nowcast.score := 90; Nowcast.ts := 1 |}] ]}
               : gmap string (list Nowcast.TrendPoint))
            "dam-1"%string 90 1000)) = 0 /\
  Nowcast.emergency_triggered
    (snd (Nowcast.escalate Nowcast.defaultCfg
            ({[ "dam-1"%string := [] ++ [{| Nowcast.score := 90; Nowcast.ts := 1 |}] ]}
               : gmap string (list Nowcast.TrendPoint))
            "dam-1"%string 90 1000)) = false.
Proof.
  apply (no_rise_no_emergency Nowcast.defaultCfg
           ({[ "dam-1"%string := [] ++ [{| Nowcast.score := 90; Nowcast.ts := 1 |}] ]}
              : gmap string (list Nowcast.TrendPoint))
           "dam-1"%string [] {| Nowcast.score := 90; Nowcast.ts := 1 |} 90 1000).
  - apply lookup_singleton_eq.
  - simpl. lia.
Defined.

Lemma rising_run_streak_witness :
  Nowcast.consecutiveRising
    [ {| Nowcast.score := 10; Nowcast.ts := 1 |}; {| Nowcast.score := 20; Nowcast.ts := 2 |};
      {| Nowcast.score := 30; Nowcast.ts := 3 |} ] = 2.
Proof.
  apply (rising_run_streak
    [ {| Nowcast.score := 10; Nowcast.ts := 1 |}; {| Nowcast.score := 20; Nowcast.ts := 2 |};
      {| Nowcast.score := 30; Nowcast.ts := 3 |} ]).
  intros [|[|[|i]]] a b Ha Hb; cbn in Ha, Hb; try discriminate;
    injection Ha as <-; injection Hb as <-; simpl; lia.
Defined.

(** ** The 1-hour scores *)
Section OneHourFacts.
Import JS Nowcast.

Lemma round_le_Z (x : Q) (n : Z) : (x <= inject_Z n)%Q -> round x <= n.
Proof.
  intros Hx. rewrite <- (round_inject_Z n). apply round_mono, Hx.
Qed.

Lemma clamp_le (v b : Q) : (v <= b)%Q -> (0 <= b)%Q -> (clamp v 0 100 <= b)%Q.
Proof.
  intros Hv Hb. unfold clamp. apply Q.max_lub; [exact Hb|].
  eapply Qle_trans; [apply Q.le_min_r | exact Hv].
Qed.

Lemma oneHour_terrain_range (elevation : value) :
  (0 <= match elevation with
        | Undefined | Null => 50
        | _ => clamp (toNumber elevation 0 / 30) 0 100
        end <= 100)%Q.
Proof.
  destruct elevation; try (split; discriminate). apply clamp_range.
Qed.

Lemma oneHour_stress_range (reservoirLevelPct : value) :
  (0 <= match reservoirLevelPct with
        | Undefined | Null => 0
        | _ => clamp ((toNumber reservoirLevelPct 0 - 60) * 2.5) 0 100
        end <= 100)%Q.
Proof.
  destruct reservoirLevelPct; try (split; discriminate). apply clamp_range.
Qed.

Lemma normalizeRain_mono (u v : value) (scale : Q) :
  (0 < scale)%Q -> (toNumber u 0 <= toNumber v 0)%Q ->
  (normalizeRain u scale <= normalizeRain v scale)%Q.
Proof.
  intros Hs Huv. unfold normalizeRain. apply clamp_mono.
  apply Qmult_le_compat_r; [|discriminate].
  apply Qdiv_le_mono; assumption.
Qed.

(** X5. Both 1-hour scores are integers between 0 and 100 for every
    input, and raising any of the four rain windows (next hour, next three
    hours, past six hours, acceleration) with everything else fixed never
    lowers either score. *)
Theorem oneHourScores_bounded_monotone
    (advanced : Analytics.RiskResult) (w1 w2 : RainWin) (modelConfidence : Z)
    (elevation reservoirLevelPct : value) :
  (toNumber (next1h_mm w1) 0 <= toNumber (next1h_mm w2) 0)%Q ->
  (toNumber (next3h_mm w1) 0 <= toNumber (next3h_mm w2) 0)%Q ->
  (toNumber (past6h_mm w1) 0 <= toNumber (past6h_mm w2) 0)%Q ->
  (toNumber (accel_mm w1) 0 <= toNumber (accel_mm w2) 0)%Q ->
  let o1 := oneHourScores advanced w1 modelConfidence elevation reservoirLevelPct in
  let o2 := oneHourScores advanced w2 modelConfidence elevation reservoirLevelPct in
  0 <= flood_score_1h o1 <= flood_score_1h o2 /\ flood_score_1h o2 <= 100 /\
  0 <= landslide_score_1h o1 <= landslide_score_1h o2 /\ landslide_score_1h o2 <= 100.
Proof.
  intros H1 H3 H6 Ha. cbv zeta. unfold oneHourScores.
  cbn [flood_score_1h landslide_score_1h].
  pose proof (normalizeRain_mono _ _ 25 eq_refl H1) as M1.
  pose proof (normalizeRain_mono _ _ 55 eq_refl H3) as M3.
  pose proof (normalizeRain_mono _ _ 70 eq_refl H6) as M6.
  pose proof (normalizeRain_mono _ _ 30 eq_refl Ha) as Ma.
  repeat split.
  - apply round_range, clamp_range.
  - apply round_mono, clamp_mono. Lqa.lra.
  - apply round_range, clamp_range.
  - apply round_range, clamp_range.
  - apply round_mono, clamp_mono. Lqa.lra.
  - apply round_range, clamp_range.
Qed.

Lemma normalizeRain_nonpos (v : value) (scale : Q) :
  (0 < scale)%Q -> (toNumber v 0 <= 0)%Q -> (normalizeRain v scale <= 0)%Q.
Proof.
  intros Hs Hv. unfold normalizeRain. apply clamp_le; [|apply Qle_refl].
  assert (Hd : (toNumber v 0 / scale <= 0 / scale)%Q) by (apply Qdiv_le_mono; assumption).
  assert (E : (0 / scale == 0)%Q) by (unfold Qdiv; ring).
  rewrite E in Hd. Lqa.lra.
Qed.

(** With no rain in any window, the near-term terms vanish: the flood
    score is at most 0.34 * 100 + 0.06 * 100, the landslide score at most
    0.32 * 100 + 0.11 * 100 + 2. *)
Lemma dry_scores_low (advanced : Analytics.RiskResult) (w : RainWin)
    (modelConfidence : Z) (elevation reservoirLevelPct : value) :
  Analytics.in_range (Analytics.flood_score advanced) ->
  Analytics.in_range (Analytics.landslide_score advanced) ->
  (toNumber (next1h_mm w) 0 <= 0)%Q -> (toNumber (next3h_mm w) 0 <= 0)%Q ->
  (toNumber (past6h_mm w) 0 <= 0)%Q -> (toNumber (accel_mm w) 0 <= 0)%Q ->
  flood_score_1h (oneHourScores advanced w modelConfidence elevation reservoirLevelPct) <= 40 /\
  landslide_score_1h (oneHourScores advanced w modelConfidence elevation reservoirLevelPct) <= 45.
Proof.
  intros [Hf0 Hf1] [Hl0 Hl1] H1 H3 H6 Ha.
  pose proof (normalizeRain_nonpos _ 25 eq_refl H1) as Z1.
  pose proof (normalizeRain_nonpos _ 55 eq_refl H3) as Z3.
  pose proof (normalizeRain_nonpos _ 70 eq_refl H6) as Z6.
  pose proof (normalizeRain_nonpos _ 30 eq_refl Ha) as Za.
  unfold oneHourScores. cbn [flood_score_1h landslide_score_1h]. split.
  - apply round_le_Z, clamp_le; [|discriminate].
    pose proof (oneHour_stress_range reservoirLevelPct) as [_ Hs].
    assert (Hq : (inject_Z (Analytics.flood_score advanced) <= 100)%Q)
      by (change 100%Q with (inject_Z 100); rewrite <- Zle_Qle; exact Hf1).
    change (inject_Z 40) with 40%Q. Lqa.lra.
  - apply round_le_Z, clamp_le; [|discriminate].
    pose proof (oneHour_terrain_range elevation) as [_ Ht].
    pose proof (clamp_range (inject_Z modelConfidence)) as [Hc _].
    assert (Hq : (inject_Z (Analytics.landslide_score advanced) <= 100)%Q)
      by (change 100%Q with (inject_Z 100); rewrite <- Zle_Qle; exact Hl1).
    change (inject_Z 45) with 45%Q. Lqa.lra.
Qed.

End OneHourFacts.

Lemma oneHourScores_bounded_monotone_witness :
  0 <= Nowcast.flood_score_1h
         (Nowcast.oneHourScores (Analytics.calculateAdvancedRisk Analytics.emptyInput)
            Nowcast.zeroWin 64 JS.Undefined JS.Null)
    <= Nowcast.flood_score_1h
         (Nowcast.oneHourScores (Analytics.calculateAdvancedRisk Analytics.emptyInput)
            {| Nowcast.next1h_mm := JS.Num (JS.Fin 12); Nowcast.next3h_mm := JS.Num (JS.Fin 30);
               Nowcast.past6h_mm := JS.Num (JS.Fin 8); Nowcast.accel_mm := JS.Num (JS.Fin 22) |}
            64 JS.Undefined JS.Null) /\
  Nowcast.flood_score_1h
    (Nowcast.oneHourScores (Analytics.calculateAdvancedRisk Analytics.emptyInput)
       {| Nowcast.next1h_mm := JS.Num (JS.Fin 12); Nowcast.next3h_mm := JS.Num (JS.Fin 30);
          Nowcast.past6h_mm := JS.Num (JS.Fin 8); Nowcast.accel_mm := JS.Num (JS.Fin 22) |}
       64 JS.Undefined JS.Null) <= 100 /\
  0 <= Nowcast.landslide_score_1h
         (Nowcast.oneHourScores (Analytics.calculateAdvancedRisk Analytics.emptyInput)
            Nowcast.zeroWin 64 JS.Undefined JS.Null)
    <= Nowcast.landslide_score_1h
         (Nowcast.oneHourScores (Analytics.calculateAdvancedRisk Analytics.emptyInput)
            {| Nowcast.next1h_mm := JS.Num (JS.Fin 12); Nowcast.next3h_mm := JS.Num (JS.Fin 30);
               Nowcast.past6h_mm := JS.Num (JS.Fin 8); Nowcast.accel_mm := JS.Num (JS.Fin 22) |}
            64 JS.Undefined JS.Null) /\
  Nowcast.landslide_score_1h
    (Nowcast.oneHourScores (Analytics.calculateAdvancedRisk Analytics.emptyInput)
       {| Nowcast.next1h_mm := JS.Num (JS.Fin 12); Nowcast.next3h_mm := JS.Num (JS.Fin 30);
          Nowcast.past6h_mm := JS.Num (JS.Fin 8); Nowcast.accel_mm := JS.Num (JS.Fin 22) |}
       64 JS.Undefined JS.Null) <= 100.
Proof.
  apply (oneHourScores_bounded_monotone
           (Analytics.calculateAdvancedRisk Analytics.emptyInput) Nowcast.zeroWin
           {| Nowcast.next1h_mm := JS.Num (JS.Fin 12); Nowcast.next3h_mm := JS.Num (JS.Fin 30);
              Nowcast.past6h_mm := JS.Num (JS.Fin 8); Nowcast.accel_mm := JS.Num (JS.Fin 22) |}
           64 JS.Undefined JS.Null);
    vm_compute; discriminate.
Defined.


(** ** The rain windows *)
Section WindowFacts.
Import JS Nowcast.

Lemma pairUp_nonneg (times : list (option Z)) :
  forall precip : list Q,
    Forall (fun q => (0 <= q)%Q) precip ->
    Forall (fun x => (0 <= p x)%Q) (pairUp times precip).
Proof.
  induction times as [|t times IH]; intros precip Hp; cbn [pairUp]; [constructor|].
  assert (Ht : Forall (fun q => (0 <= q)%Q) (tail precip))
    by (destruct Hp; [constructor | assumption]).
  destruct t as [ms|]; [|apply IH, Ht].
  constructor; [|apply IH, Ht].
  cbn [p]. destruct Hp; [apply Qle_refl | assumption].
Qed.

Lemma Forall_filter_keep {A : Type} (P Q : A -> Prop) `{forall x, Decision (Q x)}
    (l : list A) :
  Forall P l -> Forall P (filter Q l).
Proof.
  rewrite !Forall_forall. intros Hl x Hx.
  apply list_elem_of_filter in Hx as [_ Hx]. apply Hl, Hx.
Qed.

Lemma pairUp_unparsed (times : list (option Z)) :
  Forall (fun t => t = None) times -> forall precip, pairUp times precip = [].
Proof.
  induction 1 as [|t times -> _ IH]; intros precip; [reflexivity|].
  cbn [pairUp]. apply IH.
Qed.

Lemma sum_shift (xs : list Paired) :
  forall acc, (fold_left (fun a b => a + p b) xs acc == acc + fold_left (fun a b => a + p b) xs 0)%Q.
Proof.
  induction xs as [|x xs IH]; intros acc; cbn [fold_left]; [ring|].
  pose proof (IH (acc + p x)%Q) as E1. pose proof (IH (0 + p x)%Q) as E2. Lqa.lra.
Qed.

Lemma sum_nonneg (xs : list Paired) :
  Forall (fun x => (0 <= p x)%Q) xs -> (0 <= fold_left (fun a b => a + p b) xs 0)%Q.
Proof.
  induction 1 as [|x xs Hx _ IH]; cbn [fold_left]; [apply Qle_refl|].
  pose proof (sum_shift xs (0 + p x)%Q) as E. Lqa.lra.
Qed.

Lemma sumFirst_nonneg (n : nat) (xs : list Paired) :
  Forall (fun x => (0 <= p x)%Q) xs -> (0 <= sumFirst n xs)%Q.
Proof.
  intros Hxs. unfold sumFirst. apply sum_nonneg, Forall_take, Hxs.
Qed.

Lemma sumFirst_mono (n m : nat) (xs : list Paired) :
  (n <= m)%nat -> Forall (fun x => (0 <= p x)%Q) xs ->
  (sumFirst n xs <= sumFirst m xs)%Q.
Proof.
  intros Hnm Hxs. unfold sumFirst.
  replace m with (n + (m - n))%nat by lia.
  rewrite <- take_take_drop, fold_left_app.
  pose proof (sum_shift (take (m - n) (drop n xs))
                (fold_left (fun a b => a + p b) (take n xs) 0)%Q) as E.
  assert (H0 : (0 <= fold_left (fun a b => a + p b) (take (m - n) (drop n xs)) 0)%Q)
    by (apply sum_nonneg, Forall_take, Forall_drop, Hxs).
  Lqa.lra.
Qed.

Lemma round2_mono (x y : Q) : (x <= y)%Q -> (round2 x <= round2 y)%Q.
Proof.
  intros Hxy. unfold round2. apply Qdiv_le_mono; [reflexivity|].
  rewrite <- Zle_Qle. apply round_mono.
  apply Qmult_le_compat_r; [exact Hxy | discriminate].
Qed.

Lemma round2_nonneg (x : Q) : (0 <= x)%Q -> (0 <= round2 x)%Q.
Proof.
  intros Hx. apply Qle_trans with (round2 0); [discriminate | apply round2_mono, Hx].
Qed.

(** X6. A series with no times, with no precipitation values, or whose
    times all fail to parse gives the four zero windows. *)
Theorem rainfallWindows_no_data (hourly : Hourly) (now : Z) :
  time hourly = [] \/ precipitation hourly = [] \/
  Forall (fun t => t = None) (time hourly) ->
  rainfallWindows hourly now = zeroWin.
Proof.
  unfold rainfallWindows. intros [Ht|[Hp|Hn]].
  - rewrite Ht. reflexivity.
  - rewrite Hp. cbn [map length]. rewrite orb_true_r. reflexivity.
  - destruct (_ || _)%bool; [reflexivity|].
    rewrite (pairUp_unparsed _ Hn). reflexivity.
Qed.


(** X8. A dam whose hourly series is missing, empty or unparseable, or
    whose four windows are all zero, gets an overall 1-hour score of at
    most 45 whatever its long-horizon risk is; under the default
    thresholds it raises neither a warning nor an emergency, whatever its
    history. *)
Theorem nowcast_without_rain `{Countable K}
    (s : Analytics.RainSummary) (elevation_m : value) (hourly : Hourly) (now : Z)
    (eqNearby : Z) (matchedReservoir : option Matcher.Match) (damState : string)
    (store : gmap K (list TrendPoint)) (k : K) :
  (toNumber (next1h_mm (rainfallWindows hourly now)) 0 <= 0)%Q ->
  (toNumber (next3h_mm (rainfallWindows hourly now)) 0 <= 0)%Q ->
  (toNumber (past6h_mm (rainfallWindows hourly now)) 0 <= 0)%Q ->
  (toNumber (accel_mm (rainfallWindows hourly now)) 0 <= 0)%Q ->
  let overall1h :=
    overall1hOf s elevation_m hourly now eqNearby matchedReservoir damState in
  0 <= overall1h <= 45 /\
  warning_triggered (snd (escalate defaultCfg store k overall1h now)) = false /\
  emergency_triggered (snd (escalate defaultCfg store k overall1h now)) = false.
Proof.
  intros H1 H3 H6 Ha. cbv zeta.
  assert (Hov : 0 <= overall1hOf s elevation_m hourly now eqNearby matchedReservoir damState
                  <= 45).
  { unfold overall1hOf.
    set (advanced := Analytics.calculateAdvancedRisk _).
    assert (Hf : Analytics.in_range (Analytics.flood_score advanced))
      by apply roundR_range, clampR_range.
    assert (Hl : Analytics.in_range (Analytics.landslide_score advanced))
      by apply roundR_range, clampR_range.
    destruct (dry_scores_low advanced (rainfallWindows hourly now)
                (Analytics.confidence advanced) elevation_m
                (matchedLevel matchedReservoir) Hf Hl H1 H3 H6 Ha) as [Hflood Hland].
    assert (0 <= flood_score_1h
                   (oneHourScores advanced (rainfallWindows hourly now)
                      (Analytics.confidence advanced) elevation_m
                      (matchedLevel matchedReservoir)))
      by (unfold oneHourScores; cbn [flood_score_1h]; apply round_range, clamp_range).
    lia. }
  split; [exact Hov|].
  unfold escalate.
  destruct (updateHistory _ _ _ _ _) as [store' history].
  cbn [snd warning_triggered emergency_triggered].
  change (warningThreshold defaultCfg) with 60.
  change (emergencyThreshold defaultCfg) with 75.
  split; apply andb_false_iff; left; apply Z.leb_gt; lia.
Qed.

End WindowFacts.

Lemma rainfallWindows_no_data_witness :
  Nowcast.rainfallWindows
    {| Nowcast.time := [None; None]; Nowcast.precipitation := [JS.Num (JS.Fin 4); JS.Null] |}
    1000 = Nowcast.zeroWin.
Proof.
  apply (rainfallWindows_no_data
           {| Nowcast.time := [None; None];
              Nowcast.precipitation := [JS.Num (JS.Fin 4); JS.Null] |} 1000).
  right. right. repeat constructor.
Defined.


Lemma nowcast_without_rain_witness :
  let overall1h :=
    Nowcast.overall1hOf Analytics.emptySummary JS.Undefined
      {| Nowcast.time := []; Nowcast.precipitation := [] |} 1000 0 None "Kerala" in
  0 <= overall1h <= 45 /\
  Nowcast.warning_triggered
    (snd (Nowcast.escalate Nowcast.defaultCfg (∅ : gmap string (list Nowcast.TrendPoint))
            "dam-1"%string overall1h 1000)) = false /\
  Nowcast.emergency_triggered
    (snd (Nowcast.escalate Nowcast.defaultCfg (∅ : gmap string (list Nowcast.TrendPoint))
            "dam-1"%string overall1h 1000)) = false.
Proof.
  apply (nowcast_without_rain Analytics.emptySummary JS.Undefined
           {| Nowcast.time := []; Nowcast.precipitation := [] |} 1000 0 None "Kerala"
           (∅ : gmap string (list Nowcast.TrendPoint)) "dam-1"%string);
    vm_compute; discriminate.
Defined.

(** ** The nowcast summary *)
Section SummaryFacts.
Import Nowcast.

Lemma filter_positive {A : Type} (P : A -> Prop) `{forall x, Decision (P x)} (l : list A) :
  (0 <? length (filter P l))%nat = true <-> Exists P l.
Proof.
  rewrite Nat.ltb_lt. induction l as [|x l IH].
  - cbn. split; [lia | intros HE; inversion HE].
  - rewrite filter_cons. destruct (decide (P x)) as [Hx|Hx].
    + cbn. split; [intros _; left; exact Hx | lia].
    + rewrite IH. split; [intros HE; right; exact HE|].
      intros HE. inversion HE; [contradiction | assumption].
Qed.

Lemma ranking_sorted (results : list NowcastResult) :
  StronglySorted (fun a b => result_overall b - result_overall a <= 0)
    (Analytics.sortBy (fun a b => result_overall b - result_overall a) results).
Proof. apply sortBy_sorted; intros; lia. Qed.

(** X9. The system-wide level is HIGH exactly when some dam raised an
    emergency, MEDIUM exactly when none did but some dam raised a warning,
    and LOW otherwise; the returned list holds the same entries ranked by
    descending overall score. *)
Theorem summarize_level_and_ranking (results : list NowcastResult) :
  let s := summarize results in
  (alert_level_1h s = Analytics.HIGH <->
     Exists (fun r => result_emergency r = true) results) /\
  (alert_level_1h s = Analytics.MEDIUM <->
     ~ Exists (fun r => result_emergency r = true) results /\
     Exists (fun r => result_warning r = true) results) /\
  dams s ≡ₚ results /\
  (forall (i j : nat) (a b : NowcastResult),
      (i < j)%nat -> dams s !! i = Some a -> dams s !! j = Some b ->
      result_overall b <= result_overall a).
Proof.
  cbv zeta. unfold summarize. cbn [alert_level_1h dams].
  pose proof (filter_positive (fun r => result_emergency r = true) results) as He.
  pose proof (filter_positive (fun r => result_warning r = true) results) as Hw.
  destruct (0 <? length (filter (fun r => result_emergency r = true) results))%nat.
  - split; [split; [intros _; apply He; reflexivity | reflexivity]|].
    split; [split; [discriminate | intros [Hn _]; exfalso; apply Hn, He; reflexivity]|].
    split; [apply sortBy_perm|].
    intros i j a b Hij Ha Hb.
    pose proof (StronglySorted_lookup_lt _ _ (ranking_sorted results) i j a b Hij Ha Hb).
    cbv beta in *. lia.
  - assert (Hne : ~ Exists (fun r => result_emergency r = true) results)
      by (intros HE; apply He in HE; discriminate).
    split.
    { split; [|intros HE; contradiction].
      destruct (0 <? _)%nat; discriminate. }
    split.
    { destruct (0 <? length (filter (fun r => result_warning r = true) results))%nat.
      - split; [intros _; split; [exact Hne | apply Hw; reflexivity] | reflexivity].
      - split; [discriminate|]. intros [_ HW]. apply Hw in HW. discriminate. }
    split; [apply sortBy_perm|].
    intros i j a b Hij Ha Hb.
    pose proof (StronglySorted_lookup_lt _ _ (ranking_sorted results) i j a b Hij Ha Hb).
    cbv beta in *. lia.
Qed.

End SummaryFacts.

(** ** The alert history of the run-check handler *)
Section HistoryFacts.
Import RiskEngine Routes.

Lemma removelast_cons_take {A : Type} (a : A) (r : list A) :
  length (take 100 r) = 100%nat ->
  removelast (a :: take 100 r) = take 100 (a :: r).
Proof.
  intros Hlen. change (take 100 (a :: r)) with (a :: take 99 r).
  assert (Hr : (100 <= length r)%nat) by (rewrite length_take in Hlen; lia).
  rewrite <- (take_drop 99 (take 100 r)). rewrite take_take. cbn [Nat.min].
  replace (Nat.min 99 100) with 99%nat by reflexivity.
  destruct (drop 99 (take 100 r)) as [|x [|y t]] eqn:E.
  - apply (f_equal length) in E. rewrite length_drop, length_take in E. cbn [length] in E. lia.
  - change (a :: take 99 r ++ [x]) with ((a :: take 99 r) ++ [x]).
    apply removelast_last.
  - apply (f_equal length) in E. rewrite length_drop, length_take in E. cbn [length] in E. lia.
Qed.

Lemma recordAll_history (assessments : list Assessment) :
  Forall (fun a => assessment_id a <> ""%string) assessments ->
  alertHistory (recordAll initial assessments) = take 100 (rev assessments) /\
  currentAssessment (recordAll initial assessments) = last assessments.
Proof.
  induction assessments as [|a l IH] using rev_ind; intros Hall; [split; reflexivity|].
  apply Forall_app in Hall as [Hl Ha]. apply Forall_cons in Ha as [Ha _].
  destruct (IH Hl) as [IHh _].
  unfold recordAll in *. rewrite fold_left_app. cbn [fold_left].
  unfold recordAssessment at 1 3. cbn [alertHistory currentAssessment].
  rewrite last_snoc. split; [|reflexivity].
  destruct (String.eqb_spec (assessment_id a) "") as [E|_]; [contradiction|].
  rewrite IHh, rev_app_distr. cbn [rev app]. unfold MAX_HISTORY.
  destruct (Nat.ltb_spec 100 (length (a :: take 100 (rev l)))) as [Hgt|Hle].
  - apply removelast_cons_take. cbn [length] in Hgt.
    pose proof (length_take_le (rev l) 100). rewrite length_take in *. lia.
  - cbn [length] in Hle. rewrite length_take in Hle.
    rewrite take_ge by lia. symmetry. apply take_ge. cbn [length]. lia.
Qed.

Lemma assessmentIdOf_nonempty (ts : string) : assessmentIdOf ts <> ""%string.
Proof. unfold assessmentIdOf. cbn. discriminate. Qed.

(** X10. Every object [runRiskCheck] returns, degraded or not, has a
    non-empty id and is therefore recorded.  After any number of checks
    from a fresh start the alert history is the last 100 assessments,
    newest first, and the current assessment is the newest one. *)
Theorem alert_history_last_hundred :
  (forall ts dams configLocations rainfall earthquakesF secondFirst reservoirs,
      assessment_id
        (runRiskCheck ts dams configLocations rainfall earthquakesF secondFirst reservoirs)
      <> ""%string) /\
  (forall assessments : list Assessment,
      Forall (fun a => assessment_id a <> ""%string) assessments ->
      alertHistory (recordAll initial assessments) = take 100 (rev assessments) /\
      (length (alertHistory (recordAll initial assessments)) <= 100)%nat /\
      currentAssessment (recordAll initial assessments) = last assessments).
Proof.
  split.
  - intros ts dams cl rainfall eqs sf reservoirs. unfold runRiskCheck.
    destruct (promiseAll2 rainfall eqs sf) as [[rd es]|m]; [|apply assessmentIdOf_nonempty].
    destruct reservoirs as [rl|m]; apply assessmentIdOf_nonempty.
  - intros assessments Hall. destruct (recordAll_history assessments Hall) as [Hh Hc].
    split; [exact Hh|]. split; [|exact Hc].
    rewrite Hh, length_take. lia.
Qed.

End HistoryFacts.

(** ** More on the risk formula *)
Section RiskFormulaMore.
Import JS Analytics.

Lemma clamp_ge (v b : Q) : (b <= v)%Q -> (b <= 100)%Q -> (b <= clamp v 0 100)%Q.
Proof.
  intros Hv Hb. unfold clamp.
  eapply Qle_trans; [|apply Q.le_max_r]. apply Q.min_glb; assumption.
Qed.

Lemma round_ge_Z (x : Q) (n : Z) : (inject_Z n <= x)%Q -> n <= round x.
Proof.
  intros Hx. rewrite <- (round_inject_Z n). apply round_mono, Hx.
Qed.

Lemma completeness_range (i : Input) : (0 <= completeness i <= 1)%Q.
Proof.
  unfold completeness, featuresAvailable.
  destruct (Qltb 0 (r24 i)), (Qltb 0 (r72 i)), (Qltb 0 (r7 i)), (Qleb 0 (peak i)),
    (Qleb 0 (quakes i)), (bool_decide (is_Some (elevationOf i))),
    (bool_decide (is_Some (baselineOf i))),
    (bool_decide (is_Some (normalizeReservoirLevel (level_pct (contextOf i)))));
    vm_compute; split; discriminate.
Qed.

Lemma sourceDiversity_range (i : Input) : (3 <= sourceDiversity i <= 5)%Q.
Proof.
  unfold sourceDiversity.
  destruct (bool_decide (is_Some (baselineOf i))),
    (bool_decide (is_Some (normalizeReservoirLevel (level_pct (contextOf i)))));
    vm_compute; split; discriminate.
Qed.

(** X11. The confidence of every result is between 54 and 100: three
    sources always count, so even a bundle in which nothing is present
    and the peak and earthquake count are negative gets 45 + 9. *)
Theorem confidence_between_54_and_100 (input : Input) :
  54 <= confidence (calculateAdvancedRisk input) <= 100.
Proof.
  cbn [calculateAdvancedRisk confidence]. unfold confidenceOf.
  pose proof (completeness_range input) as [Hc0 Hc1].
  pose proof (sourceDiversity_range input) as [Hd0 Hd1].
  split.
  - apply round_ge_Z, clamp_ge; [|discriminate].
    change (inject_Z 54) with 54%Q. Lqa.lra.
  - apply round_range, clamp_range.
Qed.

Lemma reservoirStress_Q (i : Input) : (0 <= inject_Z (reservoirStress i) <= 100)%Q.
Proof.
  pose proof (reservoirStressIndex_range (contextOf i)) as [H0 H1].
  unfold reservoirStress. split.
  - change 0%Q with (inject_Z 0). rewrite <- Zle_Qle. exact H0.
  - change 100%Q with (inject_Z 100). rewrite <- Zle_Qle. exact H1.
Qed.

Lemma lowlandFactor_Q (i : Input) : (0 <= lowlandFactor i <= 12)%Q.
Proof.
  unfold lowlandFactor. destruct (elevationOf i) as [e|]; [|split; discriminate].
  destruct (Qltb e 300); [|destruct (Qltb e 600)]; split; discriminate.
Qed.

Lemma proneStateBoost_Q (i : Input) : (0 <= proneStateBoost i <= 12)%Q.
Proof.
  unfold proneStateBoost. destruct (bool_decide _); split; discriminate.
Qed.

Lemma floodLinear_range (i : Input) : (0 <= floodLinear i <= 94.72)%Q.
Proof.
  unfold floodLinear.
  pose proof (clamp_range (r24 i / 1.25 + peak i * 2.8)) as H1. fold (intensityFlood i) in H1.
  pose proof (clamp_range (r72 i / 2.0)) as H2. fold (persistence i) in H2.
  pose proof (clamp_range (r7 i / 3.6)) as H3. fold (saturation i) in H3.
  pose proof (reservoirStress_Q i) as H4.
  pose proof (clamp_range ((anomalyRatio i - 1) * 50 + 50)) as H5. fold (anomaly i) in H5.
  pose proof (clamp_range (quakes i * 18)) as H6. fold (seismic i) in H6.
  pose proof (lowlandFactor_Q i) as H7.
  split; Lqa.lra.
Qed.

Lemma landslideLinear_range (i : Input) : (0 <= landslideLinear i <= 92)%Q.
Proof.
  unfold landslideLinear.
  pose proof (clamp_range (r24 i / 1.15 + peak i * 3.1)) as H1. fold (intensityLand i) in H1.
  pose proof (clamp_range (r72 i / 1.8)) as H2. fold (durationLand i) in H2.
  pose proof (terrain_range i) as H3.
  pose proof (clamp_range (quakes i * 20)) as H4. fold (seismicLand i) in H4.
  pose proof (clamp_range ((anomalyRatio i - 1) * 50 + 50)) as H5. fold (anomaly i) in H5.
  pose proof (reservoirStress_Q i) as [R0 R1].
  assert (H6 : (0 <= spillSlopeStress i <= 55)%Q).
  { unfold spillSlopeStress. split; [apply clamp_range|].
    apply clamp_le; [Lqa.lra | discriminate]. }
  pose proof (proneStateBoost_Q i) as H7.
  split; Lqa.lra.
Qed.

Lemma exp_enclosure (n m : nat) (x lo hi : R) :
  (0 <= 1 + x / INR n)%R -> (x / INR m < 1)%R ->
  (0 < INR n)%R -> (0 < INR m)%R ->
  (lo <= (1 + x / INR n) ^ n)%R -> ((/ (1 - x / INR m)) ^ m <= hi)%R ->
  (lo <= exp x <= hi)%R.
Proof.
  intros Hn Hm Pn Pm Hlo Hhi. split.
  - eapply Rle_trans; [exact Hlo|].
    replace x with (INR n * (x / INR n))%R at 2 by (field; Lra.lra).
    apply exp_ge_pow, Hn.
  - eapply Rle_trans; [|exact Hhi].
    replace x with (INR m * (x / INR m))%R at 1 by (field; Lra.lra).
    apply exp_le_pow, Hm.
Qed.

Lemma floodScore_least : roundR (clampR (sigmoidTo100 (Q2R 0) 50 0.09) 0 100) = 1.
Proof.
  apply (sigmoid_round 1 _ _ _ 70 150)%R; try Lra.lra.
  replace (- (0.09 * (Q2R 0 - 50)))%R with 4.5%R by (unfold Q2R; simpl; Lra.lra).
  apply (exp_enclosure 64 32); simpl INR; Lra.lra.
Qed.

Lemma floodScore_most : roundR (clampR (sigmoidTo100 (Q2R 94.72) 50 0.09) 0 100) = 98.
Proof.
  apply (sigmoid_round 98 _ _ _ 0.0155 0.0255)%R; try Lra.lra.
  replace (- (0.09 * (Q2R 94.72 - 50)))%R with (- 4.0248)%R by (unfold Q2R; simpl; Lra.lra).
  apply (exp_enclosure 128 128); simpl INR; Lra.lra.
Qed.

Lemma landslideScore_least : roundR (clampR (sigmoidTo100 (Q2R 0) 48 0.085) 0 100) = 2.
Proof.
  apply (sigmoid_round 2 _ _ _ 40 65)%R; try Lra.lra.
  replace (- (0.085 * (Q2R 0 - 48)))%R with 4.08%R by (unfold Q2R; simpl; Lra.lra).
  apply (exp_enclosure 32 128); simpl INR; Lra.lra.
Qed.

Lemma landslideScore_most : roundR (clampR (sigmoidTo100 (Q2R 92) 48 0.085) 0 100) = 98.
Proof.
  apply (sigmoid_round 98 _ _ _ 0.0155 0.0255)%R; try Lra.lra.
  replace (- (0.085 * (Q2R 92 - 48)))%R with (- 3.74)%R by (unfold Q2R; simpl; Lra.lra).
  apply (exp_enclosure 128 256); simpl INR; Lra.lra.
Qed.

(** X12. No input reaches the ends of the scale: the flood score is
    always between 1 and 98 and the landslide score between 2 and 98. *)
Theorem scores_never_reach_the_ends (input : Input) :
  1 <= flood_score (calculateAdvancedRisk input) <= 98 /\
  2 <= landslide_score (calculateAdvancedRisk input) <= 98.
Proof.
  cbn [calculateAdvancedRisk flood_score landslide_score].
  unfold floodScore, landslideScore.
  pose proof (floodLinear_range input) as [F0 F1].
  pose proof (landslideLinear_range input) as [L0 L1].
  repeat split.
  - rewrite <- floodScore_least.
    apply roundR_mono, clampR_mono, sigmoidTo100_mono; [Lra.lra | apply Qle_Rle, F0].
  - rewrite <- floodScore_most.
    apply roundR_mono, clampR_mono, sigmoidTo100_mono; [Lra.lra | apply Qle_Rle, F1].
  - rewrite <- landslideScore_least.
    apply roundR_mono, clampR_mono, sigmoidTo100_mono; [Lra.lra | apply Qle_Rle, L0].
  - rewrite <- landslideScore_most.
    apply roundR_mono, clampR_mono, sigmoidTo100_mono; [Lra.lra | apply Qle_Rle, L1].
Qed.

End RiskFormulaMore.

(** ** Defaults, reservoir stress, calibration and roll-up *)
Section AnalyticsMore.
Import JS Analytics.

(** X13. A baseline that is absent, null, not finite, zero or negative
    leaves the anomaly at exactly 50 whatever the rainfall is; an
    elevation that is absent or not finite leaves the terrain at 50 and
    adds no lowland factor. *)
Theorem neutral_defaults (input : Input) :
  (match baselineAvgDaily input with
   | Num (Fin b) => (b <= 0)%Q
   | _ => True
   end -> anomaly input = 50%Q) /\
  (match elevation input with
   | Null | Num (Fin _) => False
   | _ => True
   end -> terrain input = 50%Q /\ lowlandFactor input = 0%Q).
Proof.
  split.
  - intros Hb. unfold anomaly, anomalyRatio, baselineOf, finiteOrNull.
    destruct (baselineAvgDaily input) as [| |[b| | |]]; try reflexivity.
    cbn [toNumber]. apply Qltb_ge in Hb. rewrite Hb. reflexivity.
  - intros He. unfold terrain, lowlandFactor, elevationOf, finiteOrNull.
    destruct (elevation input) as [| |[e| | |]]; try contradiction; split; reflexivity.
Qed.

Lemma normalizeReservoirLevel_percent (a : Q) :
  (1 < a)%Q -> (a <= 100)%Q -> normalizeReservoirLevel (Num (Fin a)) = Some a.
Proof.
  intros H1 H100. unfold normalizeReservoirLevel, safeNum. cbn [toNumber].
  assert (H0 : (0 <= a)%Q) by Lqa.lra.
  apply Qleb_le in H0. rewrite H0. cbn [andb].
  destruct (Qleb a 1) eqn:E; [apply Qleb_le in E; Lqa.lra|].
  apply Qleb_le in H100. rewrite H100. reflexivity.
Qed.

(** X14. For percentage readings above 1 and up to 100, with the flows
    unchanged, a fuller reservoir never has a lower stress index. *)
Theorem reservoirStress_monotone_in_level (c : ReservoirContext) (a b : Q) :
  (1 < a)%Q -> (a <= b)%Q -> (b <= 100)%Q ->
  reservoirStressIndex
    {| level_pct := Num (Fin a); inflow := inflow c; outflow := outflow c |}
  <= reservoirStressIndex
       {| level_pct := Num (Fin b); inflow := inflow c; outflow := outflow c |}.
Proof.
  intros H1 Hab H100. unfold reservoirStressIndex, levelStress. cbn [level_pct].
  rewrite (normalizeReservoirLevel_percent a) by Lqa.lra.
  rewrite (normalizeReservoirLevel_percent b) by Lqa.lra.
  assert (Hl : (clamp ((a - 60) * 2.5) 0 100 <= clamp ((b - 60) * 2.5) 0 100)%Q)
    by (apply clamp_mono; Lqa.lra).
  change (flowStress {| level_pct := Num (Fin a); inflow := inflow c; outflow := outflow c |})
    with (flowStress c).
  change (flowStress {| level_pct := Num (Fin b); inflow := inflow c; outflow := outflow c |})
    with (flowStress c).
  destruct (flowStress c) as [f|]; apply round_mono; Lqa.lra.
Qed.

Lemma calibrated_le_100 (q : Q) (sc : Z) : round (Qmin 100 (inject_Z sc * q)) <= 100.
Proof. apply round_le_Z. apply Q.le_min_l. Qed.

Lemma calibrated_nonneg (q : Q) (sc : Z) :
  (0 <= q)%Q -> 0 <= sc -> 0 <= round (Qmin 100 (inject_Z sc * q)).
Proof.
  intros Hq Hsc. apply round_ge_Z.
  apply Q.min_glb; [discriminate|].
  apply Qmult_le_0_compat; [|exact Hq].
  change 0%Q with (inject_Z 0). rewrite <- Zle_Qle. exact Hsc.
Qed.

Lemma calibrated_zero (q : Q) : round (Qmin 100 (inject_Z 0 * q)) = 0.
Proof.
  change 0 with (round 0) at 2. unfold round.
  apply Qfloor_comp. apply Qplus_inj_r.
  assert (E : (inject_Z 0 * q == 0)%Q) by ring.
  rewrite (Q.min_r 100 (inject_Z 0 * q)); [exact E|].
  rewrite E. discriminate.
Qed.

Lemma calibrated_one (q : Q) (sc : Z) :
  (q == 1)%Q -> sc <= 100 -> round (Qmin 100 (inject_Z sc * q)) = sc.
Proof.
  intros Hq Hsc. rewrite <- (round_inject_Z sc) at 2. unfold round.
  apply Qfloor_comp, Qplus_inj_r.
  assert (E : (inject_Z sc * q == inject_Z sc)%Q) by (rewrite Hq; ring).
  rewrite (Q.min_r 100 (inject_Z sc * q)); [exact E|].
  rewrite E. change 100%Q with (inject_Z 100). rewrite <- Zle_Qle. exact Hsc.
Qed.

Lemma calibrated_nonpos (q : Q) (sc : Z) :
  (q < 0)%Q -> 0 <= sc -> round (Qmin 100 (inject_Z sc * q)) <= 0.
Proof.
  intros Hq Hsc. apply round_le_Z.
  eapply Qle_trans; [apply Q.le_min_r|].
  assert (Hs : (0 <= inject_Z sc)%Q)
    by (change 0%Q with (inject_Z 0); rewrite <- Zle_Qle; exact Hsc).
  change (inject_Z 0) with 0%Q. Lqa.nra.
Qed.

Lemma Qeq_bool_inject_Z (z : Z) : Qeq_bool (inject_Z z) 0 = (z =? 0).
Proof.
  unfold Qeq_bool, inject_Z. cbn [Qnum Qden]. rewrite Z.mul_1_r, Z.mul_0_l.
  destruct z; reflexivity.
Qed.

Lemma Qltb_inject_Z (z : Z) : 0 <= z -> (z =? 0) = false -> Qltb 0 (inject_Z z) = true.
Proof.
  intros Hz Hne. apply Z.eqb_neq in Hne.
  apply Qltb_lt. change 0%Q with (inject_Z 0). rewrite <- Zlt_Qlt. lia.
Qed.

Lemma riskLevelOf_integer (z : Z) : riskLevelOf (Fin (inject_Z z)) = riskLevel z.
Proof.
  unfold riskLevelOf, riskLevel.
  assert (Hb : forall n : Z, Qleb (inject_Z z) (inject_Z n) = (z <=? n)).
  { intros n. destruct (Z.leb_spec z n) as [Hle|Hgt].
    - apply Qleb_le. rewrite <- Zle_Qle. exact Hle.
    - apply not_true_is_false. intros E.
      apply Qleb_le in E. rewrite <- Zle_Qle in E. lia. }
  change 33%Q with (inject_Z 33). change 66%Q with (inject_Z 66).
  rewrite !Hb. reflexivity.
Qed.

(** X15. For a score between 0 and 100: the calibrated score is never
    above 100; a finite multiplier that is not negative gives an integer
    between 0 and 100, and the multiplier 1 changes nothing; a negative
    finite multiplier gives a score in the LOW band.  A multiplier that is
    [NaN] gives [NaN]; an infinite multiplier gives [NaN] on the score 0
    and otherwise 100 or [-Infinity]; and a [NaN] score is in the HIGH
    band. *)
Theorem calibrate_bounds (m : number) (sc : Z) :
  0 <= sc <= 100 ->
  match calibrate (Some m) sc with
  | Fin v => (v <= 100)%Q
  | PosInfinity => False
  | NegInfinity | NaN => True
  end /\
  (forall q, m = Fin q -> (0 <= q)%Q ->
     exists z, calibrate (Some m) sc = Fin (inject_Z z) /\ 0 <= z <= 100 /\
               ((q == 1)%Q -> z = sc)) /\
  (forall q, m = Fin q -> (q < 0)%Q -> riskLevelOf (calibrate (Some m) sc) = LOW) /\
  (m = NaN -> calibrate (Some m) sc = NaN) /\
  (m = PosInfinity -> calibrate (Some m) sc = if sc =? 0 then NaN else Fin 100) /\
  (m = NegInfinity -> calibrate (Some m) sc = if sc =? 0 then NaN else NegInfinity) /\
  riskLevelOf NaN = HIGH.
Proof.
  intros [Hsc0 Hsc1]. unfold calibrate.
  split; [|split; [|split; [|split; [|split; [|split]]]]].
  - destruct m as [q| | |]; cbn [mul min100 roundNumber]; try exact I.
    + change 100%Q with (inject_Z 100). rewrite <- Zle_Qle. apply calibrated_le_100.
    + rewrite Qeq_bool_inject_Z. destruct (sc =? 0) eqn:E; [exact I|].
      rewrite (Qltb_inject_Z sc Hsc0 E). cbn. discriminate.
    + rewrite Qeq_bool_inject_Z. destruct (sc =? 0) eqn:E; [exact I|].
      rewrite (Qltb_inject_Z sc Hsc0 E). exact I.
  - intros q -> Hq. cbn [mul min100 roundNumber].
    exists (round (Qmin 100 (inject_Z sc * q))). split; [reflexivity|]. split.
    + split; [apply calibrated_nonneg; assumption | apply calibrated_le_100].
    + intros H1. apply calibrated_one; assumption.
  - intros q -> Hq. cbn [mul min100 roundNumber]. rewrite riskLevelOf_integer.
    pose proof (calibrated_nonpos q sc Hq Hsc0) as Hle.
    unfold riskLevel. destruct (Z.leb_spec (round (Qmin 100 (inject_Z sc * q))) 33);
      [reflexivity | lia].
  - intros ->. reflexivity.
  - intros ->. cbn [mul min100 roundNumber]. rewrite Qeq_bool_inject_Z.
    destruct (sc =? 0) eqn:E; [reflexivity|].
    rewrite (Qltb_inject_Z sc Hsc0 E). reflexivity.
  - intros ->. cbn [mul min100 roundNumber]. rewrite Qeq_bool_inject_Z.
    destruct (sc =? 0) eqn:E; [reflexivity|].
    rewrite (Qltb_inject_Z sc Hsc0 E). reflexivity.
  - reflexivity.
Qed.

Lemma sum_range (scores : list Z) :
  Forall in_range scores ->
  forall acc, acc <= fold_left Z.add scores acc <= acc + 100 * Z.of_nat (length scores).
Proof.
  induction 1 as [|x l [Hx0 Hx1] _ IH]; intros acc; cbn [fold_left length]; [lia|].
  specialize (IH (acc + x)). lia.
Qed.

(** X16. A state average of scores that are all between 0 and 100 is
    itself between 0 and 100, a state with no dam included. *)
Theorem stateAverage_range (scores : list Z) :
  Forall in_range scores ->
  in_range (stateAverage scores (Z.of_nat (length scores))).
Proof.
  intros Hall. unfold stateAverage, in_range.
  pose proof (sum_range scores Hall 0) as [S0 S1].
  set (total := fold_left Z.add scores 0) in *.
  set (n := if Z.of_nat (length scores) =? 0 then 1 else Z.of_nat (length scores)).
  assert (Hn : 0 < n) by (unfold n; destruct (Z.eqb_spec (Z.of_nat (length scores)) 0); lia).
  assert (Ht : total <= 100 * n)
    by (unfold n; destruct (Z.eqb_spec (Z.of_nat (length scores)) 0); lia).
  assert (HnQ : (0 < inject_Z n)%Q)
    by (change 0%Q with (inject_Z 0); rewrite <- Zlt_Qlt; exact Hn).
  apply round_range. split.
  - apply Qle_shift_div_l; [exact HnQ|]. rewrite Qmult_0_l.
    change 0%Q with (inject_Z 0). rewrite <- Zle_Qle. exact S0.
  - apply Qle_shift_div_r; [exact HnQ|].
    change 100%Q with (inject_Z 100). rewrite <- inject_Z_mult, <- Zle_Qle. exact Ht.
Qed.

Lemma calibrate_plain (multiplier : option number) (sc : Z) :
  plainMultiplier multiplier -> in_range sc ->
  exists z, calibrate multiplier sc = Fin (inject_Z z) /\ in_range z.
Proof.
  intros Hm [H0 H1]. destruct multiplier as [[q| | |]|]; cbn in Hm; try contradiction.
  - exists (round (Qmin 100 (inject_Z sc * q))). split; [reflexivity|].
    split; [apply calibrated_nonneg; assumption | apply calibrated_le_100].
  - exists sc. split; [reflexivity | split; assumption].
Qed.

Lemma calibrate_finite_zero (multiplier : option number) :
  finiteMultiplier multiplier -> calibrate multiplier 0 = Fin 0.
Proof.
  destruct multiplier as [[q| | |]|]; cbn [finiteMultiplier]; intros Hm;
    try contradiction; [|reflexivity].
  cbn [calibrate mul min100 roundNumber]. rewrite calibrated_zero. reflexivity.
Qed.

Lemma calibrate_not_finite_zero (m : number) :
  m = NaN \/ m = PosInfinity \/ m = NegInfinity -> calibrate (Some m) 0 = NaN.
Proof. intros [->|[->| ->]]; reflexivity. Qed.

(** X17. A dam whose rain entry has no summary is scored 0 for flood and
    for landslide and is LOW on both when each multiplier is absent or
    finite; a flood multiplier that is [NaN] or infinite makes its flood
    score [NaN] and its flood level HIGH instead.  With multipliers that
    are absent or finite and not negative, both scores of every dam are
    integers between 0 and 100 and the levels are their bands. *)
Theorem analyticsDamResult_scores
    (nm st : string) (summary : option RainSummary) (eqNear : Z)
    (elev baselineSample : value) (matchedReservoir : option ReservoirContext)
    (cal : option Calibration) :
  let d := analyticsDamResult nm st summary eqNear elev baselineSample matchedReservoir cal in
  (summary = None ->
   match cal with
   | Some c => finiteMultiplier (flood_multiplier c) /\
               finiteMultiplier (landslide_multiplier c)
   | None => True
   end ->
   scored_flood d = Fin 0 /\ scored_landslide d = Fin 0 /\
   scored_flood_level d = LOW /\ scored_landslide_level d = LOW) /\
  (summary = None ->
   forall (c : Calibration) (m : number),
     cal = Some c -> flood_multiplier c = Some m ->
     m = NaN \/ m = PosInfinity \/ m = NegInfinity ->
     scored_flood d = NaN /\ scored_flood_level d = HIGH) /\
  (match cal with
   | Some c => plainMultiplier (flood_multiplier c) /\
               plainMultiplier (landslide_multiplier c)
   | None => True
   end ->
   exists f l : Z,
     scored_flood d = Fin (inject_Z f) /\ scored_landslide d = Fin (inject_Z l) /\
     in_range f /\ in_range l /\
     scored_flood_level d = riskLevel f /\ scored_landslide_level d = riskLevel l).
Proof.
  cbv zeta. split; [|split].
  - intros -> Hcal. unfold analyticsDamResult.
    cbn [fst snd scored_flood scored_landslide scored_flood_level scored_landslide_level].
    assert (Hf : match cal with
                 | Some c => calibrate (flood_multiplier c) 0
                 | None => Fin (inject_Z 0) end = Fin 0).
    { destruct cal as [c|]; [|reflexivity]. apply calibrate_finite_zero, Hcal. }
    assert (Hl : match cal with
                 | Some c => calibrate (landslide_multiplier c) 0
                 | None => Fin (inject_Z 0) end = Fin 0).
    { destruct cal as [c|]; [|reflexivity]. apply calibrate_finite_zero, Hcal. }
    rewrite Hf, Hl. repeat split.
  - intros -> c m -> Hm Hnf. unfold analyticsDamResult.
    cbn [fst snd scored_flood scored_flood_level]. rewrite Hm.
    rewrite (calibrate_not_finite_zero m Hnf). split; reflexivity.
  - intros Hcal. unfold analyticsDamResult.
    set (scores := match summary with Some s => _ | None => (0, 0) end).
    assert (Hs : in_range (fst scores) /\ in_range (snd scores)).
    { unfold scores. destruct summary as [s|]; cbn [fst snd].
      - split; apply roundR_range, clampR_range.
      - split; unfold in_range; lia. }
    destruct Hs as [HF HL].
    cbn [scored_flood scored_landslide scored_flood_level scored_landslide_level].
    assert (Hf : exists f, match cal with
                           | Some c => calibrate (flood_multiplier c) (fst scores)
                           | None => Fin (inject_Z (fst scores))
                           end = Fin (inject_Z f) /\ in_range f).
    { destruct cal as [c|]; [apply calibrate_plain; [apply Hcal | exact HF]|].
      exists (fst scores). split; [reflexivity | exact HF]. }
    assert (Hl : exists l, match cal with
                           | Some c => calibrate (landslide_multiplier c) (snd scores)
                           | None => Fin (inject_Z (snd scores))
                           end = Fin (inject_Z l) /\ in_range l).
    { destruct cal as [c|]; [apply calibrate_plain; [apply Hcal | exact HL]|].
      exists (snd scores). split; [reflexivity | exact HL]. }
    destruct Hf as (f & -> & Hfr). destruct Hl as (l & -> & Hlr).
    exists f, l. rewrite !riskLevelOf_integer. repeat split; first [apply Hfr | apply Hlr].
Qed.

Lemma riskLevel_LOW (sc : Z) : riskLevel sc = LOW <-> sc <= 33.
Proof.
  unfold riskLevel. destruct (Z.leb_spec sc 33); [tauto|].
  destruct (Z.leb_spec sc 66); split; (discriminate || lia).
Qed.

Lemma riskLevel_HIGH (sc : Z) : riskLevel sc = HIGH <-> 66 < sc.
Proof.
  unfold riskLevel. destruct (Z.leb_spec sc 33); [split; (discriminate || lia)|].
  destruct (Z.leb_spec sc 66); split; (discriminate || lia || reflexivity).
Qed.

End AnalyticsMore.

Lemma reservoirStress_monotone_in_level_witness :
  Analytics.reservoirStressIndex
    {| Analytics.level_pct := JS.Num (JS.Fin 70);
       Analytics.inflow := Analytics.inflow Analytics.emptyContext;
       Analytics.outflow := Analytics.outflow Analytics.emptyContext |}
  <= Analytics.reservoirStressIndex
       {| Analytics.level_pct := JS.Num (JS.Fin 90);
          Analytics.inflow := Analytics.inflow Analytics.emptyContext;
          Analytics.outflow := Analytics.outflow Analytics.emptyContext |}.
Proof.
  apply (reservoirStress_monotone_in_level Analytics.emptyContext 70 90);
    vm_compute; (reflexivity || discriminate).
Defined.

Lemma stateAverage_range_witness :
  Analytics.in_range (Analytics.stateAverage [10; 70; 100] (Z.of_nat (length [10; 70; 100]))).
Proof.
  apply (stateAverage_range [10; 70; 100]).
  repeat constructor; vm_compute; discriminate.
Defined.

Lemma calibrate_bounds_witness :
  exists z, Analytics.calibrate (Some (JS.Fin 1.5)) 60 = JS.Fin (inject_Z z) /\
            0 <= z <= 100 /\ ((1.5 == 1)%Q -> z = 60).
Proof.
  assert (Hsc : 0 <= 60 <= 100) by lia.
  destruct (calibrate_bounds (JS.Fin 1.5) 60 Hsc) as (_ & Hfin & _).
  apply (Hfin 1.5%Q eq_refl). discriminate.
Defined.

(** ** The state filter *)
Section StateFilterFacts.
Import JS Analytics.

Lemma lower_char_idem (c : ascii) : lower_char (lower_char c) = lower_char c.
Proof. destruct c as [[] [] [] [] [] [] [] []]; reflexivity. Qed.

Lemma lower_char_space (c : ascii) : is_space (lower_char c) = is_space c.
Proof. destruct c as [[] [] [] [] [] [] [] []]; reflexivity. Qed.

Lemma toLowerCase_idem (s : string) : toLowerCase (toLowerCase s) = toLowerCase s.
Proof.
  unfold toLowerCase. induction s as [|c s IH]; [reflexivity|].
  cbn [map_string]. rewrite lower_char_idem, IH. reflexivity.
Qed.

Lemma trimStart_lower (s : string) : trimStart (toLowerCase s) = toLowerCase (trimStart s).
Proof.
  unfold toLowerCase. induction s as [|c s IH]; [reflexivity|].
  cbn [map_string trimStart]. rewrite lower_char_space.
  destruct (is_space c); [exact IH | reflexivity].
Qed.

Lemma trimEnd_lower (s : string) : trimEnd (toLowerCase s) = toLowerCase (trimEnd s).
Proof.
  unfold toLowerCase. induction s as [|c s IH]; [reflexivity|].
  cbn [map_string trimEnd]. rewrite IH, lower_char_space.
  destruct (trimEnd s) as [|c' s']; cbn [map_string].
  - destruct (is_space c); reflexivity.
  - reflexivity.
Qed.

Lemma trim_lower (s : string) : trim (toLowerCase s) = toLowerCase (trim s).
Proof. unfold trim. rewrite trimStart_lower, trimEnd_lower. reflexivity. Qed.

Lemma toLowerCase_empty (s : string) : toLowerCase s = ""%string <-> s = ""%string.
Proof. destruct s; cbn; split; (reflexivity || discriminate). Qed.

(** X19. The state filter ignores the letter case of the query, returns
    only dams of the list whose state equals the trimmed query up to
    case, in their original order, and applying it twice is the same as
    applying it once. *)
Theorem getDamsByState_case_insensitive (dams : list Matcher.Dam) (st : string) :
  getDamsByState dams (toLowerCase st) = getDamsByState dams st /\
  getDamsByState (getDamsByState dams st) st = getDamsByState dams st /\
  sublist (getDamsByState dams st) dams /\
  (st <> ""%string ->
   forall d, d ∈ getDamsByState dams st ->
             toLowerCase (Matcher.dam_state d) = toLowerCase (trim st)).
Proof.
  unfold getDamsByState.
  destruct (String.eqb_spec st "") as [->|Hne].
  - split; [reflexivity|]. split; [reflexivity|]. split; [reflexivity|].
    intros Hne. contradiction.
  - destruct (String.eqb_spec (toLowerCase st) "") as [E|_];
      [apply (proj1 (toLowerCase_empty st)) in E; contradiction|].
    rewrite trim_lower, toLowerCase_idem.
    split; [reflexivity|]. split.
    { apply list_filter_filter_l. intros d Hd; exact Hd. }
    split; [apply sublist_filter|].
    intros _ d Hd. apply list_elem_of_filter in Hd as [Hd _]. exact Hd.
Qed.

End StateFilterFacts.

(** ** More on the reservoir matcher *)
Section MatcherMore.
Import JS Matcher.

Lemma jaccard_counts (A B : list string) :
  NoDup A -> NoDup B ->
  (length (filter (fun item => item ∈ B) A) <= length (remove_dups (A ++ B)))%nat /\
  length (filter (fun item => item ∈ B) A) = length (filter (fun item => item ∈ A) B) /\
  length (remove_dups (A ++ B)) = length (remove_dups (B ++ A)).
Proof.
  intros HA HB. split; [|split].
  - apply submseteq_length, NoDup_submseteq; [apply NoDup_filter, HA|].
    intros x Hx. apply list_elem_of_filter in Hx as [_ Hx].
    apply elem_of_remove_dups, elem_of_app. left. exact Hx.
  - apply Permutation_length, NoDup_Permutation; try (apply NoDup_filter; assumption).
    intros x. rewrite !list_elem_of_filter. tauto.
  - apply Permutation_length, NoDup_Permutation; try apply NoDup_remove_dups.
    intros x. rewrite !elem_of_remove_dups, !elem_of_app. tauto.
Qed.

Lemma jaccardScore_le_1 (a b : string) : (jaccardScore a b <= 1)%Q.
Proof.
  unfold jaccardScore.
  destruct (_ || _)%bool; [discriminate|].
  destruct (Nat.eqb_spec (length (remove_dups (remove_dups (tokens a) ++ remove_dups (tokens b)))) 0)
    as [_|Hne]; [discriminate|].
  destruct (jaccard_counts (remove_dups (tokens a)) (remove_dups (tokens b))
              (NoDup_remove_dups _) (NoDup_remove_dups _)) as [Hle _].
  apply Qle_shift_div_r.
  - change 0%Q with (inject_Z 0). rewrite <- Zlt_Qlt. lia.
  - rewrite Qmult_1_l, <- Zle_Qle. lia.
Qed.

(** X20. The token-set similarity of two names is between 0 and 1, does
    not depend on the order of the two names, and is 1 for a name against
    itself as soon as the name has a token. *)
Theorem jaccardScore_properties (a b : string) :
  (0 <= jaccardScore a b <= 1)%Q /\
  jaccardScore a b = jaccardScore b a /\
  (tokens a <> [] -> (jaccardScore a a == 1)%Q).
Proof.
  split; [|split].
  - split; [apply jaccardScore_nonneg | apply jaccardScore_le_1].
  - unfold jaccardScore.
    destruct (jaccard_counts (remove_dups (tokens a)) (remove_dups (tokens b))
                (NoDup_remove_dups _) (NoDup_remove_dups _)) as (_ & Hi & Hu).
    rewrite Hi, Hu, orb_comm. reflexivity.
  - intros Ht.
    assert (Hpos : (0 < length (remove_dups (tokens a)))%nat).
    { destruct (tokens a) as [|t ts]; [contradiction|].
      assert (Hin : t ∈ remove_dups (t :: ts)) by (apply elem_of_remove_dups; left).
      destruct (remove_dups (t :: ts)); [inversion Hin | cbn; lia]. }
    unfold jaccardScore.
    set (A := remove_dups (tokens a)) in *.
    assert (HA : NoDup A) by apply NoDup_remove_dups.
    replace (length A =? 0)%nat with false by (symmetry; apply Nat.eqb_neq; lia).
    cbn [orb].
    assert (Hi : length (filter (fun item => item ∈ A) A) = length A).
    { apply Permutation_length, NoDup_Permutation; [apply NoDup_filter, HA | exact HA|].
      intros x. rewrite list_elem_of_filter. tauto. }
    assert (Hu : length (remove_dups (A ++ A)) = length A).
    { apply Permutation_length, NoDup_Permutation; [apply NoDup_remove_dups | exact HA|].
      intros x. rewrite elem_of_remove_dups, elem_of_app. tauto. }
    rewrite Hi, Hu.
    replace (length A =? 0)%nat with false by (symmetry; apply Nat.eqb_neq; lia).
    field. change 0%Q with (inject_Z 0). rewrite inject_Z_injective. lia.
Qed.

Lemma variantScore_spec_range (res nm : string) : (0 <= variantScore_spec res nm <= 1)%Q.
Proof.
  unfold variantScore_spec. split.
  - eapply Qle_trans; [apply (jaccardScore_nonneg nm res) | apply Q.le_max_l].
  - apply Q.max_lub; [apply jaccardScore_le_1|]. destruct (eitherIncludes nm res); discriminate.
Qed.

Lemma maxima_le_1 (l : list Q) :
  Forall (fun q => (q <= 1)%Q) l -> (fold_right Qmax 0%Q l <= 1)%Q.
Proof.
  induction 1 as [|x l Hx _ IH]; cbn [fold_right]; [discriminate|].
  apply Q.max_lub; assumption.
Qed.

Lemma scoreReservoirMatch_range (d : Dam) (r : Reservoir) :
  (0 <= scoreReservoirMatch d r <= 1.2)%Q.
Proof.
  destruct (bestNameScore_spec d r) as (_ & Hs & Hb).
  assert (Hn : (0 <= nameSimilarity_spec d r <= 1)%Q).
  { unfold nameSimilarity_spec. split; [apply maxima_nonneg|].
    apply maxima_le_1. rewrite Forall_map. apply Forall_forall.
    intros nm _. apply variantScore_spec_range. }
  destruct Hb as [Hb|Hb]; rewrite Hb in Hs; Lqa.lra.
Qed.

(** X21. The combined score of any candidate is between 0 and 1.2.  With
    the default threshold a returned match therefore carries a
    [match_score] between 0.45 and 1.2. *)
Theorem match_score_range (d : Dam) (reservoirLevels : list Reservoir) :
  (forall r, (0 <= scoreReservoirMatch d r <= 1.2)%Q) /\
  match matchReservoirToDam (Some d) reservoirLevels minScore_default with
  | Some m => (0.45 <= match_score m <= 1.2)%Q
  | None => True
  end.
Proof.
  split; [apply scoreReservoirMatch_range|].
  unfold matchReservoirToDam. destruct reservoirLevels as [|x l]; [exact I|].
  pose proof (bestStep_fold d (x :: l) (None, 0%Q)) as Hfold. cbv zeta in Hfold.
  destruct (fold_left (bestStep d) (x :: l) (None, 0%Q)) as [b bestScore].
  cbn [snd] in Hfold. destruct Hfold as (_ & _ & Hres).
  destruct (Qltb bestScore minScore_default) eqn:E; [exact I|].
  apply Qltb_ge in E. cbn [match_score].
  assert (Hup : (bestScore <= 1.2)%Q).
  { destruct Hres as [Hres|(r & _ & Hres)]; injection Hres as _ ->;
      [discriminate | apply scoreReservoirMatch_range]. }
  split.
  - apply Qle_shift_div_l; [reflexivity|].
    apply Qle_trans with (inject_Z 45); [discriminate|].
    rewrite <- Zle_Qle. apply round_ge_Z.
    change (inject_Z 45) with 45%Q. unfold minScore_default in E. Lqa.lra.
  - apply Qle_shift_div_r; [reflexivity|].
    apply Qle_trans with (inject_Z 120); [|discriminate].
    rewrite <- Zle_Qle. apply round_le_Z.
    change (inject_Z 120) with 120%Q. Lqa.lra.
Qed.

Lemma bestStep_fold_first (d : Dam) (l : list Reservoir) :
  forall acc : option Reservoir * Q,
    fold_left (bestStep d) l acc = acc \/
    exists l1 r l2,
      l = l1 ++ r :: l2 /\
      fold_left (bestStep d) l acc = (Some r, scoreReservoirMatch d r) /\
      (snd acc < scoreReservoirMatch d r)%Q /\
      (forall x, x ∈ l1 -> (scoreReservoirMatch d x < scoreReservoirMatch d r)%Q).
Proof.
  induction l as [|x l IH]; intros acc; cbn [fold_left]; [left; reflexivity|].
  destruct (IH (bestStep d acc x)) as [Hsame|(l1 & r & l2 & -> & Hres & Hgt & Hl1)].
  - rewrite Hsame. unfold bestStep.
    destruct (Qltb (snd acc) (scoreReservoirMatch d x)) eqn:E; [|left; reflexivity].
    apply Qltb_lt in E. right. exists [], x, l. cbn [app].
    repeat split; try assumption. intros y Hy. inversion Hy.
  - right. exists (x :: l1), r, l2. split; [reflexivity|]. split; [exact Hres|].
    unfold bestStep in Hgt.
    destruct (Qltb (snd acc) (scoreReservoirMatch d x)) eqn:E; cbn [snd] in Hgt.
    + apply Qltb_lt in E. split; [eapply Qlt_trans; eassumption|].
      intros y Hy. apply elem_of_cons in Hy as [->|Hy]; [exact Hgt | apply Hl1, Hy].
    + apply Qltb_ge in E. split; [exact Hgt|].
      intros y Hy. apply elem_of_cons in Hy as [->|Hy]; [|apply Hl1, Hy].
      eapply Qle_lt_trans; eassumption.
Qed.

(** X22. Ties are broken by position: the returned record is the first
    one in the list with the highest score, every record before it scores
    strictly less. *)
Theorem first_best_candidate_wins
    (d : Dam) (reservoirLevels : list Reservoir) (minScore : Q) (m : Match) :
  (0 < minScore)%Q ->
  matchReservoirToDam (Some d) reservoirLevels minScore = Some m ->
  exists (before : list Reservoir) (r : Reservoir) (after : list Reservoir),
    reservoirLevels = before ++ r :: after /\
    best m = Some r /\
    (forall x, x ∈ before -> (scoreReservoirMatch d x < scoreReservoirMatch d r)%Q) /\
    (forall x, x ∈ after -> (scoreReservoirMatch d x <= scoreReservoirMatch d r)%Q).
Proof.
  intros Hmin. unfold matchReservoirToDam.
  destruct reservoirLevels as [|x l]; [discriminate|].
  pose proof (bestStep_fold d (x :: l) (None, 0%Q)) as Hfold. cbv zeta in Hfold.
  destruct (bestStep_fold_first d (x :: l) (None, 0%Q))
    as [Hsame|(l1 & r & l2 & Hsplit & Hres & _ & Hl1)].
  - rewrite Hsame. destruct (Qltb 0 minScore) eqn:E; [discriminate|].
    apply Qltb_ge in E. exfalso. apply (Qlt_not_le _ _ Hmin E).
  - rewrite Hres in *. cbn [snd] in Hfold. destruct Hfold as (_ & Hall & _).
    destruct (Qltb (scoreReservoirMatch d r) minScore); [discriminate|].
    intros [= <-]. exists l1, r, l2. cbn [best].
    split; [exact Hsplit|]. split; [reflexivity|]. split; [exact Hl1|].
    intros y Hy. apply Hall. rewrite Hsplit. apply elem_of_app. right.
    apply elem_of_cons. right. exact Hy.
Qed.

Lemma normalizeText_lower (s : string) : normalizeText (toLowerCase s) = normalizeText s.
Proof. unfold normalizeText. rewrite toLowerCase_idem. reflexivity. Qed.

Lemma tokens_lower (s : string) : tokens (toLowerCase s) = tokens s.
Proof. unfold tokens. rewrite normalizeText_lower. reflexivity. Qed.

Lemma jaccardScore_lower (a b : string) :
  jaccardScore (toLowerCase a) b = jaccardScore a b /\
  jaccardScore a (toLowerCase b) = jaccardScore a b.
Proof. unfold jaccardScore. rewrite !tokens_lower. split; reflexivity. Qed.

Lemma nameStep_lower (res : string) (acc : Q) (nm : string) :
  nameStep (toLowerCase res) acc nm = nameStep res acc nm /\
  nameStep res acc (toLowerCase nm) = nameStep res acc nm.
Proof.
  unfold nameStep.
  rewrite !normalizeText_lower, (proj1 (jaccardScore_lower nm res)),
    (proj2 (jaccardScore_lower nm res)). split; reflexivity.
Qed.

Lemma fold_nameStep_lower (res : string) (names : list string) :
  forall acc, fold_left (nameStep (toLowerCase res)) names acc = fold_left (nameStep res) names acc.
Proof.
  induction names as [|nm names IH]; intros acc; [reflexivity|].
  cbn [fold_left]. rewrite (proj1 (nameStep_lower res acc nm)). apply IH.
Qed.

(** X23. Matching ignores letter case: writing the name and the state of
    the dam and of the record in lower case does not change the score. *)
Theorem scoreReservoirMatch_ignores_case (d : Dam) (r : Reservoir) :
  scoreReservoirMatch
    {| dam_name := toLowerCase (dam_name d); dam_state := toLowerCase (dam_state d);
       lat := lat d; lon := lon d |}
    {| name := toLowerCase (name r); state := toLowerCase (state r);
       level_pct := level_pct r; inflow := inflow r; outflow := outflow r |}
  = scoreReservoirMatch d r.
Proof.
  unfold scoreReservoirMatch, bestNameScore, stateBonus.
  cbn [dam_name dam_state name state].
  rewrite !normalizeText_lower. f_equal.
  rewrite fold_nameStep_lower.
  unfold getCandidateNames. rewrite toLowerCase_idem.
  rewrite !filter_cons.
  destruct (dam_name d) as [|c s] eqn:En; [reflexivity|].
  cbn [toLowerCase map_string String.eqb].
  destruct (decide (false = false)) as [_|Hf]; [|contradiction].
  cbn [fold_left].
  rewrite <- (proj2 (nameStep_lower (name r) 0 (String c s))). reflexivity.
Qed.

End MatcherMore.

Lemma first_best_candidate_wins_witness :
  exists (before : list Matcher.Reservoir) (r : Matcher.Reservoir)
         (after : list Matcher.Reservoir),
    [Samples.tehriRecord; Samples.tehriRecord] = before ++ r :: after /\
    Matcher.best {| Matcher.best := Some Samples.tehriRecord; Matcher.match_score := 1.20 |}
      = Some r /\
    (forall x, x ∈ before ->
               (Matcher.scoreReservoirMatch Samples.tehri x
                < Matcher.scoreReservoirMatch Samples.tehri r)%Q) /\
    (forall x, x ∈ after ->
               (Matcher.scoreReservoirMatch Samples.tehri x
                <= Matcher.scoreReservoirMatch Samples.tehri r)%Q).
Proof.
  apply (first_best_candidate_wins Samples.tehri [Samples.tehriRecord; Samples.tehriRecord]
           Matcher.minScore_default
           {| Matcher.best := Some Samples.tehriRecord; Matcher.match_score := 1.20 |}).
  - reflexivity.
  - vm_compute. reflexivity.
Defined.

(** ** More on the top-level assessment *)
Section RiskEngineMore.
Import JS RiskEngine.

Lemma average_in_range (v cnt : Z) :
  0 <= cnt -> 0 <= v <= 100 * cnt -> Analytics.in_range (average v cnt).
Proof.
  intros Hc [Hv0 Hv1]. unfold average, Analytics.in_range.
  destruct (Z.eqb_spec cnt 0) as [_|Hne]; [lia|].
  assert (HcQ : (0 < inject_Z cnt)%Q)
    by (change 0%Q with (inject_Z 0); rewrite <- Zlt_Qlt; lia).
  apply round_range. split.
  - apply Qle_shift_div_l; [exact HcQ|]. rewrite Qmult_0_l.
    change 0%Q with (inject_Z 0). rewrite <- Zle_Qle. exact Hv0.
  - apply Qle_shift_div_r; [exact HcQ|].
    change 100%Q with (inject_Z 100). rewrite <- inject_Z_mult, <- Zle_Qle. exact Hv1.
Qed.

Lemma loop_sums significantEq reservoirLevels rainfallData :
  forall locations t,
    (0 <= count t /\
     0 <= floodSum t <= 100 * count t /\
     0 <= landslideSum t <= 100 * count t /\
     0 <= confidenceSum t <= 100 * count t) ->
    let t' := loop significantEq reservoirLevels rainfallData locations t in
    0 <= count t' /\
    0 <= floodSum t' <= 100 * count t' /\
    0 <= landslideSum t' <= 100 * count t' /\
    0 <= confidenceSum t' <= 100 * count t'.
Proof.
  induction rainfallData as [|rain rest IH]; intros locations t Ht; [exact Ht|].
  cbn [loop]. apply IH. unfold accumulate.
  destruct (summary rain) as [s|]; [|exact Ht].
  cbn [count floodSum landslideSum confidenceSum].
  set (advanced := Analytics.calculateAdvancedRisk _).
  assert (Hf : Analytics.in_range (Analytics.flood_score advanced))
    by apply roundR_range, clampR_range.
  assert (Hl : Analytics.in_range (Analytics.landslide_score advanced))
    by apply roundR_range, clampR_range.
  assert (Hc : Analytics.in_range (Analytics.confidence advanced))
    by apply round_range, clamp_range.
  unfold Analytics.in_range in *. lia.
Qed.

Lemma loop_without_summaries significantEq reservoirLevels rainfallData :
  Forall (fun rain => summary rain = None) rainfallData ->
  forall locations t, loop significantEq reservoirLevels rainfallData locations t = t.
Proof.
  induction 1 as [|rain rest Hr _ IH]; intros locations t; [reflexivity|].
  cbn [loop]. unfold accumulate. rewrite Hr. apply IH.
Qed.

(** X24. When the three collectors resolve, the assessment reports
    success without an error, its two scores and its confidence are
    between 0 and 100, and the overall alert level is the band of the
    larger score: LOW exactly when both scores are at most 33, HIGH
    exactly when one of them is above 66. *)
Theorem runRiskCheck_success_shape
    (ts : string) (dams : list Matcher.Dam) (configLocations : option (list Matcher.Dam))
    (rainfallData : list RainEntry) (earthquakes : list Earthquake)
    (secondFirst : bool) (reservoirLevels : list Matcher.Reservoir) :
  let a := runRiskCheck ts dams configLocations (Resolved rainfallData)
             (Resolved earthquakes) secondFirst (Resolved reservoirLevels) in
  success a = true /\ error a = None /\
  Analytics.in_range (flood_risk_score a) /\
  Analytics.in_range (landslide_risk_score a) /\
  match model_diagnostics a with
  | Some diag => Analytics.in_range (diag_confidence diag)
  | None => False
  end /\
  overall_alert_level a
    = Analytics.riskLevel (Z.max (flood_risk_score a) (landslide_risk_score a)) /\
  (overall_alert_level a = Analytics.LOW <->
     flood_risk_score a <= 33 /\ landslide_risk_score a <= 33) /\
  (overall_alert_level a = Analytics.HIGH <->
     66 < flood_risk_score a \/ 66 < landslide_risk_score a).
Proof.
  cbv zeta. unfold runRiskCheck. cbn [promiseAll2]. unfold assemble.
  cbn [success error flood_risk_score landslide_risk_score model_diagnostics
       diag_confidence overall_alert_level].
  set (t := loop _ _ _ _ _).
  assert (Hinv : 0 <= count t /\
                 0 <= floodSum t <= 100 * count t /\
                 0 <= landslideSum t <= 100 * count t /\
                 0 <= confidenceSum t <= 100 * count t).
  { apply loop_sums. cbn. lia. }
  destruct Hinv as (Hc & Hf & Hl & Hk).
  split; [reflexivity|]. split; [reflexivity|].
  split; [apply average_in_range; assumption|].
  split; [apply average_in_range; assumption|].
  split; [apply average_in_range; assumption|].
  unfold getLevel. split; [reflexivity|].
  rewrite riskLevel_LOW, riskLevel_HIGH. split; lia.
Qed.

(** X25. When the collectors resolve but no rain entry carries a summary
    (or there is no rain entry at all), the assessment still reports
    success: both scores are 0, the level is LOW, and the message and
    recommendations are the all-clear texts. *)
Theorem runRiskCheck_without_rain_summaries
    (ts : string) (dams : list Matcher.Dam) (configLocations : option (list Matcher.Dam))
    (rainfallData : list RainEntry) (earthquakes : list Earthquake)
    (secondFirst : bool) (reservoirLevels : list Matcher.Reservoir) :
  Forall (fun rain => summary rain = None) rainfallData ->
  let a := runRiskCheck ts dams configLocations (Resolved rainfallData)
             (Resolved earthquakes) secondFirst (Resolved reservoirLevels) in
  success a = true /\
  flood_risk_score a = 0 /\ landslide_risk_score a = 0 /\
  overall_alert_level a = Analytics.LOW /\
  alert_message a = "No significant disaster risk. Continue normal monitoring."%string /\
  recommendations a =
    [ "No special action required"; "Continue normal activities";
      "Stay informed through official channels" ]%string.
Proof.
  intros Hall. cbv zeta. unfold runRiskCheck. cbn [promiseAll2].
  rewrite (loop_without_summaries _ _ _ Hall). repeat split.
Qed.

End RiskEngineMore.

Lemma runRiskCheck_without_rain_summaries_witness :
  RiskEngine.success
    (RiskEngine.runRiskCheck "2026-01-05T10:20:30.000Z" [] None
       (RiskEngine.Resolved
          [ {| RiskEngine.summary := None; RiskEngine.elevation_m := JS.Undefined |} ])
       (RiskEngine.Resolved []) false (RiskEngine.Resolved [])) = true.
Proof.
  apply (runRiskCheck_without_rain_summaries "2026-01-05T10:20:30.000Z" [] None
           [ {| RiskEngine.summary := None; RiskEngine.elevation_m := JS.Undefined |} ]
           [] false []).
  repeat constructor.
Defined.

Section RainSummaryFacts.
Import JS OpenMeteo.

Lemma orZero_plausible (n : number) :
  plausible n -> exists q, orZero n = Fin q /\ (0 <= q)%Q.
Proof.
  destruct n as [q| | |]; simpl; intros Hn; try contradiction.
  - destruct (Qeq_bool q 0); [exists 0%Q | exists q]; split; auto; discriminate.
  - exists 0%Q. split; [reflexivity | discriminate].
Qed.

Lemma sum_total (l : list number) :
  Forall plausible l ->
  exists s, (0 <= s)%Q /\ forall a, exists q,
    fold_left (fun x b => add x (orZero b)) l (Fin a) = Fin q /\ (q == a + s)%Q.
Proof.
  induction 1 as [|n l Hn _ IH].
  - exists 0%Q. split; [discriminate|]. intros a. exists a. split; [reflexivity | Lqa.lra].
  - destruct IH as (s & Hs & IH).
    destruct (orZero_plausible n Hn) as (v & Ev & Hv).
    exists (v + s)%Q. split; [Lqa.lra|]. intros a. cbn [fold_left]. rewrite Ev.
    cbn [add]. destruct (IH (a + v)%Q) as (q & Eq & Hq).
    exists q. split; [exact Eq | Lqa.lra].
Qed.

Lemma sum_suffix (l1 l2 : list number) :
  Forall plausible (l1 ++ l2) ->
  exists q2 q, sum l2 = Fin q2 /\ sum (l1 ++ l2) = Fin q /\
               (0 <= q2)%Q /\ (q2 <= q)%Q.
Proof.
  intros Hall. apply Forall_app in Hall as [H1 H2].
  destruct (sum_total l1 H1) as (s1 & Hs1 & F1).
  destruct (sum_total l2 H2) as (s2 & Hs2 & F2).
  destruct (F1 0%Q) as (q1 & E1 & Hq1).
  destruct (F2 0%Q) as (q2 & E2 & Hq2).
  destruct (F2 q1) as (q & E & Hq).
  exists q2, q. unfold sum. rewrite fold_left_app, E1, E, E2.
  repeat split; Lqa.lra.
Qed.

Lemma lastHours_suffix (k : nat) (l : list number) :
  exists older, l = older ++ lastHours k l.
Proof.
  unfold lastHours. destruct (k <=? length l)%nat.
  - apply slice_from_suffix.
  - exists []. reflexivity.
Qed.

Lemma lastHours_nested (l : list number) :
  exists older, lastHours 72 l = older ++ lastHours 24 l.
Proof.
  unfold lastHours.
  destruct (Nat.leb_spec 72 (length l)) as [H72|H72].
  - destruct (Nat.leb_spec 24 (length l)) as [_|]; [|lia].
    unfold Nowcast.slice_from. cbn [Z.ltb Z.of_nat Z.opp Pos.of_succ_nat].
    destruct (Z.ltb_spec (- Z.of_nat 72) 0) as [_|]; [|lia].
    destruct (Z.ltb_spec (- Z.of_nat 24) 0) as [_|]; [|lia].
    replace (Z.to_nat (Z.max (Z.of_nat (length l) + - Z.of_nat 72) 0))
      with (length l - 72)%nat by lia.
    replace (Z.to_nat (Z.max (Z.of_nat (length l) + - Z.of_nat 24) 0))
      with ((length l - 72) + 48)%nat by lia.
    exists (take 48 (drop (length l - 72) l)).
    rewrite <- drop_drop. symmetry. apply take_drop.
  - destruct (24 <=? length l)%nat.
    + apply slice_from_suffix.
    + exists []. reflexivity.
Qed.


Lemma max_from_nan (l : list number) : fold_left max2 l NaN = NaN.
Proof. induction l as [|n l IH]; [reflexivity | exact IH]. Qed.

Lemma max_with_nan (l : list number) (a : number) :
  In NaN l -> fold_left max2 l a = NaN.
Proof.
  revert a. induction l as [|n l IH]; intros a Hin; [destruct Hin|].
  cbn [fold_left]. destruct Hin as [->|Hin].
  - replace (max2 a NaN) with NaN by (destruct a; reflexivity). apply max_from_nan.
  - apply IH, Hin.
Qed.

(** X27 (unnamed/part_003, [Math.max(0, ...precip)] in [fetchLocation];
    analyticsEngine.js, [safeNum]): one hourly value that is [NaN] makes the
    hourly maximum of the summary [NaN], which the risk formula reads as a
    peak of 0, whatever the other hours hold. *)
Theorem max_hourly_lost_on_nan (precip : list number) (elevation : value)
    (damOf : option Matcher.Dam) (eq : Z) (reservoir : option Matcher.Match) :
  In NaN precip ->
  let s := summaryOf precip in
  Analytics.max_hourly_precipitation_mm s = Num NaN /\
  (Analytics.peak (RiskEngine.riskCheckInput s elevation damOf eq reservoir) == 0)%Q.
Proof.
  intros Hin s. subst s.
  unfold Analytics.peak, Analytics.summaryOf, RiskEngine.riskCheckInput, summaryOf.
  cbn [Analytics.rainSummary default Analytics.max_hourly_precipitation_mm].
  cbv [Datatypes.id]. cbn [Analytics.max_hourly_precipitation_mm].
  unfold maxWithZero. rewrite (max_with_nan _ _ Hin). split; reflexivity.
Qed.

Lemma max_fin (l : list number) :
  Forall (fun n => exists q, n = Fin q) l ->
  forall a, exists m, fold_left max2 l (Fin a) = Fin m /\ (a <= m)%Q /\
    forall q, In (Fin q) l -> (q <= m)%Q.
Proof.
  induction 1 as [|n l (v & ->) _ IH]; intros a.
  - exists a. split; [reflexivity|]. split; [Lqa.lra|]. intros q [].
  - cbn [fold_left max2]. destruct (IH (Qmax a v)) as (m & E & Hm & Hall).
    exists m. split; [exact E|].
    pose proof (Q.le_max_l a v). pose proof (Q.le_max_r a v).
    split; [Lqa.lra|]. intros q [Hq|Hq].
    + injection Hq as ->. Lqa.lra.
    + apply Hall, Hq.
Qed.


End RainSummaryFacts.


Lemma max_hourly_lost_on_nan_witness :
  Analytics.max_hourly_precipitation_mm
    (OpenMeteo.summaryOf [JS.Fin 0; JS.Fin (5 # 2); JS.NaN; JS.Fin 12]) = JS.Num JS.NaN.
Proof.
  assert (H : In JS.NaN [JS.Fin 0; JS.Fin (5 # 2); JS.NaN; JS.Fin 12])
    by (simpl; auto).
  exact (proj1 (max_hourly_lost_on_nan [JS.Fin 0; JS.Fin (5 # 2); JS.NaN; JS.Fin 12]
                  (JS.Num (JS.Fin 640)) None 0 None H)).
Defined.


Section MergeFacts.
Import JS ReservoirCollector.

Lemma has_key_spec (key : string) (dedup : list Matcher.Reservoir) :
  existsb (fun kept => String.eqb (rowKey kept) key) dedup = true <->
  exists kept, In kept dedup /\ rowKey kept = key.
Proof.
  rewrite existsb_exists. split; intros (kept & Hin & Hk); exists kept; split; auto.
  - apply String.eqb_eq, Hk.
  - apply String.eqb_eq, Hk.
Qed.

Lemma dedup_grows (l dedup : list Matcher.Reservoir) :
  exists added, fold_left dedupStep l dedup = dedup ++ added /\ sublist added l.
Proof.
  revert dedup. induction l as [|row l IH]; intros dedup.
  - exists []. split; [symmetry; apply app_nil_r | constructor].
  - cbn [fold_left]. unfold dedupStep at 2.
    destruct (String.eqb (rowKey row) "");
      [|destruct (existsb _ dedup)].
    + destruct (IH dedup) as (added & E & Hs). exists added.
      split; [exact E | apply sublist_cons, Hs].
    + destruct (IH dedup) as (added & E & Hs). exists added.
      split; [exact E | apply sublist_cons, Hs].
    + destruct (IH (dedup ++ [row])) as (added & E & Hs). exists (row :: added).
      split; [rewrite E, <- app_assoc; reflexivity | apply sublist_skip, Hs].
Qed.

Lemma dedup_keys_distinct (l dedup : list Matcher.Reservoir) :
  NoDup (map rowKey dedup) -> Forall (fun row => rowKey row <> ""%string) dedup ->
  NoDup (map rowKey (fold_left dedupStep l dedup)) /\
  Forall (fun row => rowKey row <> ""%string) (fold_left dedupStep l dedup).
Proof.
  revert dedup. induction l as [|row l IH]; intros dedup Hnd Hne; [split; assumption|].
  cbn [fold_left]. apply IH; unfold dedupStep.
  - destruct (String.eqb_spec (rowKey row) ""); [exact Hnd|].
    destruct (existsb _ dedup) eqn:Ex; [exact Hnd|].
    rewrite map_app. cbn [map]. apply NoDup_app. split; [exact Hnd|].
    split; [|apply NoDup_singleton].
    intros key Hk Hk'. apply list_elem_of_singleton in Hk'. subst key.
    apply list_elem_of_fmap in Hk as (kept & Ek & Hin).
    assert (Hex : existsb (fun kept => String.eqb (rowKey kept) (rowKey row)) dedup = true).
    { apply has_key_spec. exists kept. split; [apply list_elem_of_In, Hin | auto]. }
    congruence.
  - destruct (String.eqb_spec (rowKey row) ""); [exact Hne|].
    destruct (existsb _ dedup); [exact Hne|].
    apply Forall_app. split; [exact Hne | repeat constructor; assumption].
Qed.

Lemma dedup_first_wins (l1 l2 dedup : list Matcher.Reservoir) (row : Matcher.Reservoir) :
  rowKey row <> ""%string ->
  (forall kept, In kept dedup -> rowKey kept <> rowKey row) ->
  (forall earlier, In earlier l1 -> rowKey earlier <> rowKey row) ->
  In row (fold_left dedupStep (l1 ++ row :: l2) dedup).
Proof.
  intros Hne. revert dedup. induction l1 as [|x l1 IH]; intros dedup Hd Hl.
  - cbn [app fold_left]. unfold dedupStep at 2.
    destruct (String.eqb_spec (rowKey row) ""); [contradiction|].
    destruct (existsb _ dedup) eqn:Ex.
    + apply has_key_spec in Ex as (kept & Hin & Hk). destruct (Hd kept Hin Hk).
    + destruct (dedup_grows l2 (dedup ++ [row])) as (added & -> & _).
      apply in_or_app. left. apply in_or_app. right. left. reflexivity.
  - cbn [app fold_left]. apply IH.
    + intros kept Hin. unfold dedupStep in Hin.
      destruct (String.eqb (rowKey x) ""); [apply Hd, Hin|].
      destruct (existsb _ dedup); [apply Hd, Hin|].
      apply in_app_or in Hin as [Hin|[<-|[]]]; [apply Hd, Hin|].
      apply Hl. left. reflexivity.
    + intros earlier Hin. apply Hl. right. exact Hin.
Qed.

Lemma first_with_key (key : string) (l : list Matcher.Reservoir) :
  (exists row, In row l /\ rowKey row = key) ->
  exists l1 row l2, l = l1 ++ row :: l2 /\ rowKey row = key /\
    forall earlier, In earlier l1 -> rowKey earlier <> key.
Proof.
  induction l as [|x l IH]; intros (row & Hin & Hk); [destruct Hin|].
  destruct (String.eqb_spec (rowKey x) key) as [Hx|Hx].
  - exists [], x, l. split; [reflexivity|]. split; [exact Hx|]. intros ? [].
  - destruct Hin as [->|Hin]; [contradiction|].
    destruct IH as (l1 & r & l2 & -> & Hr & Hl); [exists row; auto|].
    exists (x :: l1), r, l2. split; [reflexivity|]. split; [exact Hr|].
    intros earlier [<-|He]; [exact Hx | apply Hl, He].
Qed.

(** X29 (unnamed/part_004, [fetchCombinedWaterLevels]): the merged list is
    a sub-list of the NWDP rows followed by the configured-source rows in
    which no two rows share a name up to surrounding blanks and letter case
    and no row has a blank name; every non-blank name of either source is
    kept once, by its first row in that order, so the row kept for a name
    that the NWDP source has is an NWDP row. *)
Theorem combined_levels_keep_first_of_each_name
    (nwdpRows reservoirRows : list Matcher.Reservoir) :
  let merged := nwdpRows ++ reservoirRows in
  let out := combine nwdpRows reservoirRows in
  sublist out merged /\
  NoDup (map rowKey out) /\
  Forall (fun row => rowKey row <> ""%string) out /\
  (forall l1 row l2, merged = l1 ++ row :: l2 -> rowKey row <> ""%string ->
     (forall earlier, In earlier l1 -> rowKey earlier <> rowKey row) ->
     In row out) /\
  (forall row, In row merged -> rowKey row <> ""%string ->
     exists kept, In kept out /\ rowKey kept = rowKey row) /\
  (forall row, In row nwdpRows -> rowKey row <> ""%string ->
     exists kept, In kept out /\ In kept nwdpRows /\ rowKey kept = rowKey row).
Proof.
  intros merged out. subst merged out. unfold combine.
  assert (Hfirst : forall l1 row l2, nwdpRows ++ reservoirRows = l1 ++ row :: l2 ->
     rowKey row <> ""%string ->
     (forall earlier, In earlier l1 -> rowKey earlier <> rowKey row) ->
     In row (fold_left dedupStep (nwdpRows ++ reservoirRows) [])).
  { intros l1 row l2 -> Hne Hl. apply dedup_first_wins; auto. }
  split.
  { destruct (dedup_grows (nwdpRows ++ reservoirRows) []) as (added & -> & Hs).
    exact Hs. }
  destruct (dedup_keys_distinct (nwdpRows ++ reservoirRows) []) as [Hnd Hne];
    [constructor | constructor |].
  split; [exact Hnd|]. split; [exact Hne|]. split; [exact Hfirst|]. split.
  - intros row Hin Hk.
    destruct (first_with_key (rowKey row) (nwdpRows ++ reservoirRows))
      as (l1 & r & l2 & E & Hr & Hl); [exists row; auto|].
    exists r. split; [|exact Hr].
    apply (Hfirst l1 r l2 E); rewrite Hr; assumption.
  - intros row Hin Hk.
    destruct (first_with_key (rowKey row) nwdpRows)
      as (l1 & r & l2 & E & Hr & Hl); [exists row; auto|].
    exists r. split; [|split; [rewrite E; apply in_or_app; right; left; reflexivity | exact Hr]].
    apply (Hfirst l1 r (l2 ++ reservoirRows)).
    + rewrite E, <- app_assoc. reflexivity.
    + rewrite Hr. exact Hk.
    + rewrite Hr. exact Hl.
Qed.

End MergeFacts.
